(** * Token-creation bot: scheduler, storage and retry layer

    A shallow embedding of the coordination code of the bot
    (services/scheduler.ts, services/storage.ts, services/tokenCreator.ts)
    together with the properties its design document states about it.

    Conventions of the embedding.
    - Counts and indices (token counts, wallet indices, attempt numbers,
      millisecond delays read with [parseInt]) are integers, [Z].
    - Times computed with [Math.random] and division are JavaScript doubles
      in the source; they are idealised here as exact rationals, [Q]: a
      sum or a product is the exact value where the source rounds it to
      the nearest double. A bound on a time is therefore stated only in
      the form that survives the rounding (a sum may be rounded up to
      the end of its window, [Math.floor] may return the end of its
      band), and [rounding] names what is assumed of the rounding where
      a property speaks of it.
    - The fields of the configuration are numbers. The [NaN] that
      [parseInt] and [parseFloat] give for text they cannot read, and
      which passes every check of [parseConfig], is not represented; a
      property that needs a field in a range says so in a hypothesis.
    - [Math.random] is an explicit random source that is threaded through
      the code: a stream of draws and a cursor.
    - A JavaScript function that may throw returns a [Completion]. The
      texts of some error messages are shortened.
    - [undefined] (array index out of range) is [None]; [NaN] (remainder by
      zero) is [None] as well.
    - The file system is the content of the state file; [mkdirSync] and
      I/O failures of [writeFileSync] are not modelled, and neither is
      what [console.log] prints. *)

From stdpp Require Import base option list gmap.
From Stdlib Require Import ZArith QArith Qround String DecimalString Lia Lqa.
From Stdlib Require Import Permutation Sorted.

Open Scope Z_scope.

(** ** JavaScript values shared by all services *)

Inductive JsError : Type :=
| Error (message : string).

Definition message (e : JsError) : string :=
  match e with Error m => m end.

Inductive Completion (A : Type) : Type :=
| Returned (a : A)
| Thrown (e : JsError).
Arguments Returned {A} a.
Arguments Thrown {A} e.

Definition returned {A} (c : Completion A) : bool :=
  match c with Returned _ => true | Thrown _ => false end.

(** [a % b] on integer-valued numbers: the sign follows the dividend and a
    zero divisor gives [NaN]. *)
Definition js_rem (a b : Z) : option Z :=
  if b =? 0 then None else Some (Z.rem a b).

(** types/index.ts *)
Record PreparedToken : Type := {
  name : string;
  symbol : string;
  tokenURI : string;
  description : string;
  imageUri : string;
  twitter : option string;
  telegram : option string;
  website : option string
}.

(** config/index.ts: the options the coordination code reads. *)
Inductive ExecutionMode : Type := sequential | parallel.

Record BotConfig : Type := {
  numWallets : Z;
  totalTokensToCreate : Z;
  durationHours : Q;
  executionMode : ExecutionMode;
  delayRandomness : Q;
  sellPercentage : Z;
  maxRetries : Z;
  retryDelayMs : Z
}.

(** [a > b] on numbers. *)
Definition Qgtb (a b : Q) : bool := negb (Qle_bool a b).

(** The block "Validate values" of [parseConfig]. The execution mode is
    one of the two by its type, and the check of the mnemonic is left
    out. Every check is a comparison, which [NaN] fails: a configuration
    that is returned may still hold [NaN] in the source, a case that
    the number fields here do not have. *)
Definition validateValues (config : BotConfig) : Completion BotConfig :=
  if numWallets config <? 1
  then Thrown (Error "NUM_WALLETS must be at least 1")
  else if totalTokensToCreate config <? 1
  then Thrown (Error "TOTAL_TOKENS_TO_CREATE must be at least 1")
  else if Qle_bool (durationHours config) 0
  then Thrown (Error "DURATION_HOURS must be greater than 0")
  else if (sellPercentage config <? 0) || (100 <? sellPercentage config)
  then Thrown (Error "SELL_PERCENTAGE must be between 0 and 100")
  else if Qgtb 0 (delayRandomness config) || Qgtb (delayRandomness config) 1
  then Thrown (Error "DELAY_RANDOMNESS must be between 0.0 and 1.0")
  else Returned config.

(** The text a template literal gives an integer. *)
Definition Z_to_string (z : Z) : string := NilZero.string_of_int (Z.to_int z).

(** ** services/scheduler.ts: the wallet lock table *)

Module WalletLockManager.

(** [private locks: Map<number, boolean>] *)
Record t : Type := { locks : gmap Z bool }.

Definition create : t := {| locks := ∅ |}.

(** [this.locks.get(walletIndex)] used as a condition: a missing key is
    [undefined], which is falsy. *)
Definition truthy (v : option bool) : bool :=
  match v with Some b => b | None => false end.

Definition tryAcquire (walletIndex : Z) (m : t) : bool * t :=
  if truthy (locks m !! walletIndex)
  then (false, m)
  else (true, {| locks := <[walletIndex := true]> (locks m) |}).

Definition release (walletIndex : Z) (m : t) : t :=
  {| locks := <[walletIndex := false]> (locks m) |}.

Definition isLocked (walletIndex : Z) (m : t) : bool :=
  truthy (locks m !! walletIndex).

End WalletLockManager.

(** ** services/storage.ts: the durable progress record *)

Module Storage.

Record CreatedToken : Type := {
  tokenAddress : string;
  metadata : PreparedToken;
  createdAt : Z;
  walletIndex : Z
}.

(** [interface BotState]; the two optional fields are [option]s. *)
Record BotState : Type := {
  tokensCreated : Z;
  startTime : option Z;
  lastCreatedAt : option Z;
  createdTokens : list CreatedToken
}.

(** What [STATE_FILE] holds: the JSON text of a state, written by
    [JSON.stringify] and read back by [JSON.parse], or text that
    [JSON.parse] rejects. *)
Inductive FileContent : Type :=
| Json (s : BotState)
| Malformed (raw : string).

(** Observable actions, in the order they happen: a write of
    [STATE_FILE], a call of [createToken], a call by [withRetry] of the
    operation it wraps, and a [setTimeout] pause. *)
Inductive Event : Type :=
| WriteState (s : BotState)
| CreateToken (wallet : Z) (sym : string)
| Invoke (taskName : string) (attempt : Z)
| Sleep (ms : Z).

(** [class StateLockManager]: a flag and a FIFO queue of the callers whose
    [acquire] promise is still pending (each caller is named by a
    number). *)
Module StateLockManager.

Record t : Type := { locked : bool; queue : list nat }.

Definition create : t := {| locked := false; queue := [] |}.

Inductive Grant : Type := Granted | Pending.

Definition acquire (caller : nat) (l : t) : Grant * t :=
  if negb (locked l)
  then (Granted, {| locked := true; queue := queue l |})
  else (Pending, {| locked := locked l; queue := queue l ++ [caller] |}).

(** [release] returns the caller whose promise it resolves, if any. *)
Definition release (l : t) : option nat * t :=
  match queue l with
  | next :: rest => (Some next, {| locked := locked l; queue := rest |})
  | [] => (None, {| locked := false; queue := [] |})
  end.

(** Callers that asked for the lock while its holder was suspended at
    an [await]. *)
Definition arrive (callers : list nat) (l : t) : t :=
  fold_left (fun acc c => snd (acquire c acc)) callers l.

End StateLockManager.

Record World : Type := {
  stateFile : option FileContent;
  stateLock : StateLockManager.t;
  log : list Event
}.

Definition with_lock (l : StateLockManager.t) (w : World) : World :=
  {| stateFile := stateFile w; stateLock := l; log := log w |}.

Definition emit (e : Event) (w : World) : World :=
  {| stateFile := stateFile w; stateLock := stateLock w; log := log w ++ [e] |}.

(** How a call that goes through the lock ends: it ran to completion
    (and [release] resolved the promise of [woken]), or it is parked in
    the queue. *)
Inductive Step (A : Type) : Type :=
| Finished (c : Completion A) (w : World) (woken : option nat)
| Parked (w : World).
Arguments Finished {A} c w woken.
Arguments Parked {A} w.

Definition emptyState : BotState :=
  {| tokensCreated := 0; startTime := None; lastCreatedAt := None;
     createdTokens := [] |}.

Definition loadState (w : World) : Completion BotState :=
  match stateFile w with
  | None => Returned emptyState
  | Some (Json s) => Returned s
  | Some (Malformed raw) => Thrown (Error "Unexpected token in JSON")
  end.

(** [writeFileSync(STATE_FILE, JSON.stringify(state, null, 2), 'utf-8')] *)
Definition writeState (s : BotState) (w : World) : World :=
  emit (WriteState s)
    {| stateFile := Some (Json s); stateLock := stateLock w; log := log w |}.

(** The part of [withLock] after [await this.acquire()] has resolved:
    [try { return await fn(); } finally { this.release(); }]. *)
Definition withLock_granted {A} (fn : World -> Completion A * World)
    (arrivals : list nat) (w : World) : Step A :=
  let '(c, w1) := fn w in
  let l1 := StateLockManager.arrive arrivals (stateLock w1) in
  let '(woken, l2) := StateLockManager.release l1 in
  Finished c (with_lock l2 w1) woken.

Definition withLock {A} (caller : nat) (fn : World -> Completion A * World)
    (arrivals : list nat) (w : World) : Step A :=
  match StateLockManager.acquire caller (stateLock w) with
  | (StateLockManager.Granted, l) => withLock_granted fn arrivals (with_lock l w)
  | (StateLockManager.Pending, l) => Parked (with_lock l w)
  end.

Definition saveState_body (state : BotState) (w : World) : Completion unit * World :=
  (Returned tt, writeState state w).

Definition saveState (caller : nat) (state : BotState) : list nat -> World -> Step unit :=
  withLock caller (saveState_body state).

(** The function handed to [withLock] by [updateState]. The updater
    mutates the state it is given and may throw; what it did to that
    object before it threw is lost with the object. *)
Definition updateState_body (updater : BotState -> Completion BotState)
    (w : World) : Completion unit * World :=
  match loadState w with
  | Thrown e => (Thrown e, w)
  | Returned state =>
      match updater state with
      | Thrown e => (Thrown e, w)
      | Returned state' => (Returned tt, writeState state' w)
      end
  end.

Definition updateState (caller : nat) (updater : BotState -> Completion BotState)
    : list nat -> World -> Step unit :=
  withLock caller (updateState_body updater).

(** The same call once a parked caller has been handed the lock. *)
Definition updateState_resumed (updater : BotState -> Completion BotState)
    : list nat -> World -> Step unit :=
  withLock_granted (updateState_body updater).

(** [resetState] is not [async]: it calls [saveState(emptyState)] and
    returns without awaiting the promise. When it returns, that call has
    run up to its first [await], the one of [this.acquire()] in
    [withLock]: the lock is taken or the call has joined the queue, and
    nothing is written yet. *)
Definition resetState (caller : nat) (w : World) : StateLockManager.Grant * World :=
  let '(grant, l) := StateLockManager.acquire caller (stateLock w) in
  (grant, with_lock l w).

(** The rest of the [saveState] that [resetState] started, which runs
    once that call holds the lock and the code that called [resetState]
    has given up control. *)
Definition resetState_resumed : list nat -> World -> Step unit :=
  withLock_granted (saveState_body emptyState).

End Storage.


(** ** services/tokenCreator.ts: the job workflow and the retry wrapper *)

Module TokenCreator.
Import Storage.

(** services/wallet.ts, the fields the workflow reads. *)
Record WalletInstance : Type := { address : string; index : Z }.

(** services/contracts.ts talks to the chain. What the chain answers is an
    input of the model: the outcome of [createToken], and the outcome of
    the [n]-th call of [sellTokens] (calls are numbered from 1). *)
Record Chain : Type := {
  createToken : WalletInstance -> PreparedToken -> Completion (string * Z);
  sellTokens : WalletInstance -> string -> Z -> Z -> Completion string
}.

(** The body of the [for] loop of [withRetry]; [fuel] bounds the number of
    iterations and [attempt] is the loop variable. [fn n] is the outcome
    of the [n]-th call of the wrapped operation. *)
Fixpoint withRetry_loop {T} (fn : Z -> Completion T) (taskName : string)
    (maxRetries retryDelay : Z) (fuel : nat) (attempt : Z) (w : World)
    : Completion T * World :=
  let exhausted :=
    Error (taskName ++ " failed after " ++ Z_to_string maxRetries ++ " attempts") in
  match fuel with
  | O => (Thrown exhausted, w)
  | S fuel' =>
      if attempt <=? maxRetries then
        let w1 := emit (Invoke taskName attempt) w in
        match fn attempt with
        | Returned v => (Returned v, w1)
        | Thrown error =>
            if attempt <? maxRetries then
              let delay := retryDelay * attempt in
              withRetry_loop fn taskName maxRetries retryDelay fuel'
                (attempt + 1) (emit (Sleep delay) w1)
            else
              (Thrown (Error (taskName ++ " failed after " ++ Z_to_string maxRetries
                              ++ " attempts: " ++ message error)), w1)
        end
      else (Thrown exhausted, w)
  end.

Definition withRetry {T} (fn : Z -> Completion T) (taskName : string)
    (maxRetries retryDelay : Z) (w : World) : Completion T * World :=
  withRetry_loop fn taskName maxRetries retryDelay (Z.to_nat maxRetries) 1 w.

(** The updater that [executeTokenCreation] hands to [updateState];
    [now1] and [now2] are its two readings of [Date.now()]. *)
Definition recordCreation (tokenAddress : string) (metadata : PreparedToken)
    (wallet : WalletInstance) (now1 now2 : Z) (state : BotState)
    : Completion BotState :=
  Returned
    {| tokensCreated := tokensCreated state + 1;
       startTime := startTime state;
       lastCreatedAt := Some now1;
       createdTokens :=
         createdTokens state ++
         [ {| Storage.tokenAddress := tokenAddress;
              Storage.metadata := metadata;
              createdAt := now2;
              walletIndex := index wallet |} ] |}.

(** [if (config.sellPercentage > 0) { ... await withRetry(...) }] *)
Definition sellStep (config : BotConfig) (chain : Chain) (wallet : WalletInstance)
    (metadata : PreparedToken) (tokenAddress : string) (tokensReceived : Z)
    (w : World) : Completion unit * World :=
  if 0 <? sellPercentage config then
    let sellAmount := Z.quot (tokensReceived * sellPercentage config) 100 in
    match withRetry (sellTokens chain wallet tokenAddress sellAmount)
            ("Sell tokens for " ++ symbol metadata)
            (maxRetries config) (retryDelayMs config) w with
    | (Returned _, w') => (Returned tt, w')
    | (Thrown e, w') => (Thrown e, w')
    end
  else (Returned tt, w).

(** A call of [executeTokenCreation] has ended, or it waits in the queue
    of the state lock with the token it created. *)
Inductive Run : Type :=
| Ended (c : Completion unit) (w : World)
| Waiting (tokenAddress : string) (tokensReceived : Z) (w : World).

(** What follows [await updateState(...)]. *)
Definition afterUpdate (config : BotConfig) (chain : Chain) (wallet : WalletInstance)
    (metadata : PreparedToken) (tokenAddress : string) (tokensReceived : Z)
    (st : Step unit) : Run :=
  match st with
  | Parked w => Waiting tokenAddress tokensReceived w
  | Finished (Thrown e) w _ => Ended (Thrown e) w
  | Finished (Returned _) w _ =>
      let '(c, w') := sellStep config chain wallet metadata tokenAddress tokensReceived w in
      Ended c w'
  end.

(** [caller] names this call at the state lock and [arrivals] are the callers
    that queue up while it holds the lock. [parseEther] of the configured
    amount, a decimal literal, is taken to succeed. *)
Definition executeTokenCreation (config : BotConfig) (chain : Chain)
    (caller : nat) (arrivals : list nat) (now1 now2 : Z)
    (wallet : WalletInstance) (metadata : PreparedToken) (w : World) : Run :=
  let w0 := emit (CreateToken (index wallet) (symbol metadata)) w in
  match createToken chain wallet metadata with
  | Thrown e => Ended (Thrown e) w0
  | Returned (tokenAddress, tokensReceived) =>
      afterUpdate config chain wallet metadata tokenAddress tokensReceived
        (updateState caller
           (recordCreation tokenAddress metadata wallet now1 now2) arrivals w0)
  end.

(** The rest of the call once the parked caller has been handed the lock. *)
Definition executeTokenCreation_resumed (config : BotConfig) (chain : Chain)
    (arrivals : list nat) (now1 now2 : Z)
    (wallet : WalletInstance) (metadata : PreparedToken)
    (tokenAddress : string) (tokensReceived : Z) (w : World) : Run :=
  afterUpdate config chain wallet metadata tokenAddress tokensReceived
    (updateState_resumed
       (recordCreation tokenAddress metadata wallet now1 now2) arrivals w).

End TokenCreator.


(** ** services/scheduler.ts: task generation and the scheduler *)

(** [Math.random()]: a stream of draws and the position of the next one.
    The engine promises [0 <= r < 1] for every draw; theorems that need
    the promise assume [fair]. *)
Record RandomSource : Type := { draws : nat -> Q; cursor : nat }.

Definition Math_random (s : RandomSource) : Q * RandomSource :=
  (draws s (cursor s), {| draws := draws s; cursor := S (cursor s) |}).

Definition fair (s : RandomSource) : Prop :=
  forall n, (0 <= draws s n)%Q /\ (draws s n < 1)%Q.

(** [interface TokenTask]. [walletIndex] is [None] when [i % numWallets]
    is [NaN]; [metadata] is [None] when the index read past the array. *)
Record TokenTask : Type := {
  tokenIndex : Z;
  walletIndex : option Z;
  metadata : option PreparedToken;
  delayMs : Q;
  scheduledTime : Q
}.

(** [array[i]] for an integer-valued [i]. *)
Definition at_index {A} (l : list A) (i : Z) : option A :=
  if i <? 0 then None else l !! Z.to_nat i.

(** [Array.prototype.sort] with a comparator that orders by [leb]: a stable
    sort, written as insertion of each element in front of the first one
    that is not smaller. *)
Fixpoint insert_by {A} (leb : A -> A -> bool) (x : A) (l : list A) : list A :=
  match l with
  | [] => [x]
  | y :: l' => if leb x y then x :: y :: l' else y :: insert_by leb x l'
  end.

Fixpoint sort_by {A} (leb : A -> A -> bool) (l : list A) : list A :=
  match l with
  | [] => []
  | x :: l' => insert_by leb x (sort_by leb l')
  end.

(** [min], [max] and the value that is floored are exact here. The source
    rounds each of them to a double, so that its [Math.floor] can return
    [max] itself where the exact value stays below it. *)
Definition getRandomDelay (averageMs randomness : Q) (s : RandomSource)
    : Q * RandomSource :=
  let min := (averageMs * (1 - randomness))%Q in
  let max := (averageMs * (1 + randomness))%Q in
  let '(r, s') := Math_random s in
  (inject_Z (Qfloor (r * (max - min) + min)), s').

(** [metadata[Math.floor(Math.random() * metadata.length)]!] *)
Definition randomMetadata (metadata : list PreparedToken) (s : RandomSource)
    : option PreparedToken * RandomSource :=
  let '(r, s') := Math_random s in
  let randomMetadataIndex := Qfloor (r * inject_Z (Z.of_nat (List.length metadata))) in
  (at_index metadata randomMetadataIndex, s').

(** The later revision of scheduler.ts, whose generator draws each offset
    with [Math.random() * durationMs] and sorts the offsets. A loop
    [for (i = 0; i < totalTokens; i++)] runs [Z.to_nat totalTokens] times;
    [i] is carried along. *)
Module Scheduler.

Fixpoint drawTimes (fuel : nat) (durationMs : Q) (s : RandomSource)
    : list Q * RandomSource :=
  match fuel with
  | O => ([], s)
  | S fuel' =>
      let '(r, s1) := Math_random s in
      let randomTime := (r * durationMs)%Q in
      let '(rest, s2) := drawTimes fuel' durationMs s1 in
      (randomTime :: rest, s2)
  end.

(** [randomTimes[i]!]; the loop keeps [i] inside the array. *)
Definition timeAt (randomTimes : list Q) (i : Z) : Q :=
  default 0%Q (at_index randomTimes i).

(** [scheduledTime] is the exact sum here; the source's addition rounds
    it to a double, which can be the end of the window,
    [startTime + durationMs], for an offset just below [durationMs]. *)
Fixpoint parallelLoop (fuel : nat) (i : Z) (numWallets : Z)
    (metadata : list PreparedToken) (startTime : Z) (randomTimes : list Q)
    (s : RandomSource) : list TokenTask * RandomSource :=
  match fuel with
  | O => ([], s)
  | S fuel' =>
      let '(md, s1) := randomMetadata metadata s in
      let task :=
        {| tokenIndex := i;
           walletIndex := js_rem i numWallets;
           metadata := md;
           delayMs := timeAt randomTimes i;
           scheduledTime := (inject_Z startTime + timeAt randomTimes i)%Q |} in
      let '(rest, s2) :=
        parallelLoop fuel' (i + 1) numWallets metadata startTime randomTimes s1 in
      (task :: rest, s2)
  end.

Fixpoint sequentialLoop (config : BotConfig) (fuel : nat) (i : Z)
    (averageDelay : Q) (numWallets : Z) (metadata : list PreparedToken)
    (startTime : Z) (s : RandomSource) : list TokenTask * RandomSource :=
  match fuel with
  | O => ([], s)
  | S fuel' =>
      let baseDelay := (inject_Z i * averageDelay)%Q in
      let '(delay, s0) :=
        if Qgtb (delayRandomness config) 0
        then getRandomDelay baseDelay (delayRandomness config) s
        else (baseDelay, s) in
      let '(md, s1) := randomMetadata metadata s0 in
      let task :=
        {| tokenIndex := i;
           walletIndex := js_rem i numWallets;
           metadata := md;
           delayMs := delay;
           scheduledTime := (inject_Z startTime + delay)%Q |} in
      let '(rest, s2) :=
        sequentialLoop config fuel' (i + 1) averageDelay numWallets metadata
          startTime s1 in
      (task :: rest, s2)
  end.

(** [averageDelay] is only read inside the sequential loop, which does not
    run when [totalTokens <= 0]; the value [Qdiv] gives a zero divisor
    (where the source has [Infinity] or [NaN]) is therefore never used. *)
Definition generateTasks (config : BotConfig) (totalTokens : Z) (durationMs : Q)
    (numWallets : Z) (metadata : list PreparedToken) (startTime : Z)
    (s : RandomSource) : list TokenTask * RandomSource :=
  let averageDelay := (durationMs / inject_Z totalTokens)%Q in
  match executionMode config with
  | parallel =>
      let '(randomTimes, s1) := drawTimes (Z.to_nat totalTokens) durationMs s in
      let randomTimes := sort_by Qle_bool randomTimes in
      parallelLoop (Z.to_nat totalTokens) 0 numWallets metadata startTime
        randomTimes s1
  | sequential =>
      sequentialLoop config (Z.to_nat totalTokens) 0 averageDelay numWallets
        metadata startTime s
  end.

(** [[...tasks].sort((a, b) => a.scheduledTime - b.scheduledTime)] *)
Definition sortByScheduledTime (tasks : list TokenTask) : list TokenTask :=
  sort_by (fun a b => Qle_bool (scheduledTime a) (scheduledTime b)) tasks.

(** [!state.startTime]: the field is missing, or it is the number 0. *)
Definition startTime_unset (state : Storage.BotState) : bool :=
  match Storage.startTime state with
  | None => true
  | Some t => t =? 0
  end.

(** [state.startTime] read as a number after the block that sets it. *)
Definition startTime_of (state : Storage.BotState) : Z :=
  default 0 (Storage.startTime state).

(** [deriveWallets(config.mnemonic, config.numWallets + 1).slice(1).length] *)
Definition wallets_length (config : BotConfig) : Z :=
  Z.max 0 (Z.max 0 (numWallets config + 1) - 1).

(** How [runScheduler] goes, up to the point where it hands the tasks to
    [executeTask]: it throws; it waits for the state lock; it returns at
    "All tokens have already been created!"; or it dispatches [order]
    ([tasks] all at once in parallel mode, the tasks sorted by time one
    after the other in sequential mode). *)
Inductive SchedulerRun : Type :=
| Rejected (e : JsError) (w : Storage.World)
| AwaitingLock (w : Storage.World)
| AllCreated (state : Storage.BotState) (w : Storage.World)
| Dispatched (state : Storage.BotState) (tasks order : list TokenTask)
    (w : Storage.World) (s : RandomSource).

(** The part of [runScheduler] from "Generate tasks" on, with the state
    as it is after the start time was set. *)
Definition scheduleRemaining (config : BotConfig) (metadata : list PreparedToken)
    (s : RandomSource) (state : Storage.BotState) (w : Storage.World)
    : SchedulerRun :=
  let durationMs := (durationHours config * 60 * 60 * 1000)%Q in
  let remainingTokens := totalTokensToCreate config - Storage.tokensCreated state in
  if remainingTokens =? 0 then AllCreated state w
  else
    let '(tasks, s') :=
      generateTasks config remainingTokens durationMs (wallets_length config)
        metadata (startTime_of state) s in
    let sortedTasks := sortByScheduledTime tasks in
    let order :=
      match executionMode config with
      | parallel => tasks
      | sequential => sortedTasks
      end in
    Dispatched state tasks order w s'.

(** [state.startTime = Date.now()] *)
Definition setStartTime (now : Z) (state : Storage.BotState) : Storage.BotState :=
  {| Storage.tokensCreated := Storage.tokensCreated state;
     Storage.startTime := Some now;
     Storage.lastCreatedAt := Storage.lastCreatedAt state;
     Storage.createdTokens := Storage.createdTokens state |}.

(** [metadataFile] is what [loadMetadata] finds ([None]: no file), [now]
    is the reading of [Date.now()], [caller] names this call at the state
    lock. The text of the second error has its quotation marks left out. *)
Definition runScheduler (config : BotConfig)
    (metadataFile : option (list PreparedToken)) (now : Z) (caller : nat)
    (s : RandomSource) (w : Storage.World) : SchedulerRun :=
  match metadataFile with
  | None => Rejected (Error "Metadata file not found") w
  | Some metadata =>
      if (Z.of_nat (List.length metadata) =? 0)%Z
      then Rejected (Error "No metadata available. Run npm run prepare-metadata to prepare tokens.") w
      else
        match Storage.loadState w with
        | Thrown e => Rejected e w
        | Returned state =>
            if startTime_unset state
            then
              let state := setStartTime now state in
              match Storage.saveState caller state [] w with
              | Storage.Finished _ w' _ => scheduleRemaining config metadata s state w'
              | Storage.Parked w' => AwaitingLock w'
              end
            else scheduleRemaining config metadata s state w
        end
  end.

(** The world a process starts in: the state file as the last run left
    it, a fresh [stateLock], nothing done yet. *)
Definition processStart (file : option Storage.FileContent) : Storage.World :=
  {| Storage.stateFile := file;
     Storage.stateLock := Storage.StateLockManager.create;
     Storage.log := [] |}.

End Scheduler.

(** The generator of the earlier revision of scheduler.ts, whose parallel
    mode adds up jittered delays and then shuffles the task array. *)
Module CumulativeScheduler.

Fixpoint parallelLoop (config : BotConfig) (fuel : nat) (i : Z)
    (cumulativeTime averageDelay : Q) (numWallets : Z)
    (metadata : list PreparedToken) (startTime : Z) (s : RandomSource)
    : list TokenTask * RandomSource :=
  match fuel with
  | O => ([], s)
  | S fuel' =>
      let '(delay, s0) := getRandomDelay averageDelay (delayRandomness config) s in
      let cumulativeTime := (cumulativeTime + delay)%Q in
      let '(md, s1) := randomMetadata metadata s0 in
      let task :=
        {| tokenIndex := i;
           walletIndex := js_rem i numWallets;
           metadata := md;
           delayMs := cumulativeTime;
           scheduledTime := (inject_Z startTime + cumulativeTime)%Q |} in
      let '(rest, s2) :=
        parallelLoop config fuel' (i + 1) cumulativeTime averageDelay numWallets
          metadata startTime s1 in
      (task :: rest, s2)
  end.

(** [[tasks[i], tasks[j]] = [tasks[j]!, tasks[i]!]]. A fair random source
    keeps [j] between 0 and [i]; the array is left alone for an index
    outside it. *)
Definition swap {A} (i j : nat) (l : list A) : list A :=
  match l !! i, l !! j with
  | Some ti, Some tj => <[j := ti]> (<[i := tj]> l)
  | _, _ => l
  end.

(** [for (let i = tasks.length - 1; i > 0; i--)] *)
Fixpoint shuffleLoop {A} (i : nat) (tasks : list A) (s : RandomSource)
    : list A * RandomSource :=
  match i with
  | O => (tasks, s)
  | S i' =>
      let '(r, s1) := Math_random s in
      let j := Z.to_nat (Qfloor (r * inject_Z (Z.of_nat (S i') + 1))) in
      shuffleLoop i' (swap (S i') j tasks) s1
  end.

Fixpoint sequentialLoop (fuel : nat) (i : Z) (averageDelay : Q) (numWallets : Z)
    (metadata : list PreparedToken) (startTime : Z) (s : RandomSource)
    : list TokenTask * RandomSource :=
  match fuel with
  | O => ([], s)
  | S fuel' =>
      let delay := (inject_Z i * averageDelay)%Q in
      let '(md, s1) := randomMetadata metadata s in
      let task :=
        {| tokenIndex := i;
           walletIndex := js_rem i numWallets;
           metadata := md;
           delayMs := delay;
           scheduledTime := (inject_Z startTime + delay)%Q |} in
      let '(rest, s2) :=
        sequentialLoop fuel' (i + 1) averageDelay numWallets metadata startTime s1 in
      (task :: rest, s2)
  end.

Definition generateTasks (config : BotConfig) (totalTokens : Z) (durationMs : Q)
    (numWallets : Z) (metadata : list PreparedToken) (startTime : Z)
    (s : RandomSource) : list TokenTask * RandomSource :=
  let averageDelay := (durationMs / inject_Z totalTokens)%Q in
  match executionMode config with
  | parallel =>
      let '(tasks, s1) :=
        parallelLoop config (Z.to_nat totalTokens) 0 0 averageDelay numWallets
          metadata startTime s in
      shuffleLoop (Nat.pred (List.length tasks)) tasks s1
  | sequential =>
      sequentialLoop (Z.to_nat totalTokens) 0 averageDelay numWallets metadata
        startTime s
  end.

End CumulativeScheduler.

(** ** Vocabulary of the properties *)

(** The invariant of the progress record. *)
Definition consistent (s : Storage.BotState) : Prop :=
  Z.of_nat (List.length (Storage.createdTokens s)) = Storage.tokensCreated s.

(** A world after some more events and nothing else. *)
Definition extend (evs : list Storage.Event) (w : Storage.World) : Storage.World :=
  {| Storage.stateFile := Storage.stateFile w;
     Storage.stateLock := Storage.stateLock w;
     Storage.log := Storage.log w ++ evs |}.

(** The state lock after its holder, suspended while [arrivals] queued up,
    has called [release]: the first waiter is resolved and leaves the
    queue, and the flag drops only when nobody waits. *)
Definition handedOver (before : Storage.StateLockManager.t) (arrivals : list nat)
    (woken : option nat) (after : Storage.StateLockManager.t) : Prop :=
  let waiting := Storage.StateLockManager.queue before ++ arrivals in
  woken = head waiting
  /\ Storage.StateLockManager.queue after = tail waiting
  /\ Storage.StateLockManager.locked after
     = match waiting with [] => false | _ :: _ => true end.

(** What [n] consecutive attempts of [withRetry] leave in the log when the
    first of them has number [attempt]: every call of the operation, and
    between two calls a pause of [retryDelay] times the number of the call
    that failed. Nothing follows the last call. *)
Fixpoint attempts (taskName : string) (retryDelay : Z) (n : nat) (attempt : Z)
    : list Storage.Event :=
  match n with
  | O => []
  | S n' =>
      match n' with
      | O => [Storage.Invoke taskName attempt]
      | S _ =>
          Storage.Invoke taskName attempt
          :: Storage.Sleep (retryDelay * attempt)
          :: attempts taskName retryDelay n' (attempt + 1)
      end
  end.

Definition isInvoke (e : Storage.Event) : bool :=
  match e with Storage.Invoke _ _ => true | _ => false end.

Definition isWriteState (e : Storage.Event) : bool :=
  match e with Storage.WriteState _ => true | _ => false end.

(** The values of the loop variable in [n] rounds of a loop that starts
    at [i]. *)
Fixpoint countFrom (n : nat) (i : Z) : list Z :=
  match n with
  | O => []
  | S n' => i :: countFrom n' (i + 1)
  end.

(** A task whose wallet is its sequence index modulo the pool size and
    whose scheduled time is the anchor plus its offset. *)
Definition roundRobin (numWallets startTime : Z) (t : TokenTask) : Prop :=
  walletIndex t = js_rem (tokenIndex t) numWallets
  /\ scheduledTime t = (inject_Z startTime + delayMs t)%Q.

(** A task whose job was read from [pool] at the index that some draw
    of the random source [s] gave. *)
Definition jobDrawn (pool : list PreparedToken) (s : RandomSource)
    (t : TokenTask) : Prop :=
  exists s', draws s' = draws s /\ metadata t = fst (randomMetadata pool s').

(** What is assumed of the rounding of an exact result to a double: it
    keeps the order and leaves [0] as it is. *)
Definition rounding (fl : Q -> Q) : Prop :=
  (forall x y : Q, (x <= y)%Q -> (fl x <= fl y)%Q) /\ (fl 0 == 0)%Q.

(** An offset inside the window [[0, durationMs)]. *)
Definition inWindow (durationMs : Q) (t : Q) : Prop :=
  (0 <= t)%Q /\ (t < durationMs)%Q.

(** How a call of [executeTokenCreation] that got past [createToken] and
    loaded the state ends: the record [state'] is on disk, and after the
    events [before] the log has the write of that record and then [k]
    attempts of the sale, none when nothing is to be sold. *)
Definition persistedThenSold (config : BotConfig) (md : PreparedToken)
    (state' : Storage.BotState) (before : list Storage.Event)
    (c : Completion unit) (w' : Storage.World) : Prop :=
  exists k : nat,
    Storage.stateFile w' = Some (Storage.Json state')
    /\ Storage.log w'
       = before ++ [Storage.WriteState state']
         ++ attempts ("Sell tokens for " ++ symbol md) (retryDelayMs config) k 1
    /\ (sellPercentage config <= 0 -> k = 0%nat /\ c = Returned tt).

(** ** Inputs of the worked examples *)

Definition moon : PreparedToken :=
  {| name := "Moon"; symbol := "MOON"; tokenURI := "ipfs://moon";
     description := "to the moon"; imageUri := "ipfs://moon.png";
     twitter := None; telegram := None; website := None |}.

Definition wallet1 : TokenCreator.WalletInstance :=
  {| TokenCreator.address := "0xA1"; TokenCreator.index := 1 |}.

(** Five tokens over one hour on two wallets, everything sold, three
    attempts five seconds apart. *)
Definition fiveTokens (mode : ExecutionMode) : BotConfig :=
  {| numWallets := 2; totalTokensToCreate := 5; durationHours := 1%Q;
     executionMode := mode; delayRandomness := (1 # 2)%Q; sellPercentage := 100;
     maxRetries := 3; retryDelayMs := 5000 |}.

(** A chain on which creation succeeds and every sale reverts. *)
Definition sellReverts : TokenCreator.Chain :=
  {| TokenCreator.createToken := fun _ _ => Returned ("0xT0"%string, 1000);
     TokenCreator.sellTokens := fun _ _ _ _ => Thrown (Error "Token sell reverted") |}.

(** An operation that fails twice and then succeeds. *)
Definition thirdTimeLucky (n : Z) : Completion string :=
  if n <? 3 then Thrown (Error "rpc down") else Returned "0xhash"%string.

(** A random source that always draws [r]. *)
Definition constantSource (r : Q) : RandomSource :=
  {| draws := fun _ => r; cursor := 0 |}.

(** The record of a run that was interrupted after three of its jobs. *)
Definition threeDone : Storage.BotState :=
  let job := fun (addr : string) (at_ : Z) =>
    {| Storage.tokenAddress := addr; Storage.metadata := moon;
       Storage.createdAt := at_; Storage.walletIndex := 1 |} in
  {| Storage.tokensCreated := 3;
     Storage.startTime := Some 900;
     Storage.lastCreatedAt := Some 3000;
     Storage.createdTokens :=
       [job "0xT0"%string 1000; job "0xT1"%string 2000; job "0xT2"%string 3000] |}.

(** ** More of the services *)

(** *** services/storage.ts: the metadata file *)

Module MetadataStore.

(** What [JSON.parse] makes of [METADATA_FILE]: an array of tokens (the old
    format), an object with [tokens] and [total_count] (the new format), an
    object without [tokens], or nothing because the text does not parse. *)
Inductive FileContent : Type :=
| TokenArray (tokens : list PreparedToken)
| TokensObject (tokens : list PreparedToken) (total_count : Z)
| OtherObject
| Unparsable.

(** [saveMetadata]: what the file holds afterwards. *)
Definition saveMetadata (tokens : list PreparedToken) : option FileContent :=
  Some (TokensObject tokens (Z.of_nat (List.length tokens))).

(** [loadMetadata]. For an object without [tokens] the read of
    [tokens.length] in the log line throws. *)
Definition loadMetadata (file : option FileContent) : Completion (list PreparedToken) :=
  match file with
  | None => Thrown (Error "Metadata file not found")
  | Some Unparsable => Thrown (Error "Unexpected token in JSON")
  | Some (TokenArray tokens) => Returned tokens
  | Some (TokensObject tokens _) => Returned tokens
  | Some OtherObject =>
      Thrown (Error "Cannot read properties of undefined (reading 'length')")
  end.

End MetadataStore.

(** *** services/storage.ts: callers of [updateState] in one turn *)

Module UpdateQueue.
Import Storage.

Definition Updater : Type := BotState -> Completion BotState.

(** The updater with which a queued caller called [updateState]. *)
Fixpoint updaterOf (caller : nat) (waiting : list (nat * Updater)) : option Updater :=
  match waiting with
  | [] => None
  | (c, u) :: rest => if Nat.eqb c caller then Some u else updaterOf caller rest
  end.

(** The event loop after a [release]: the caller whose promise [release]
    resolved goes on with the body of its [updateState], and so on until
    [release] finds the queue empty. Nobody new arrives. *)
Fixpoint serve (fuel : nat) (waiting : list (nat * Updater)) (woken : option nat)
    (w : World) : list (nat * Completion unit) * World :=
  match fuel, woken with
  | S fuel', Some c =>
      match updaterOf c waiting with
      | Some u =>
          match updateState_resumed u [] w with
          | Finished r w' next =>
              let '(rs, w'') := serve fuel' waiting next w' in
              ((c, r) :: rs, w'')
          | Parked w' => ([], w')
          end
      | None => ([], w)
      end
  | _, _ => ([], w)
  end.

(** Several tasks finish at nearly the same time: [first] calls
    [updateState] and is suspended at [await updater(state)]; the [others]
    call it meanwhile, in the order of the list; then the event loop runs
    until nothing is left. The result lists who ran, in the order they
    ran, and how each call ended. *)
Definition updateTogether (first : nat * Updater) (others : list (nat * Updater))
    (w : World) : list (nat * Completion unit) * World :=
  match updateState (fst first) (snd first) (List.map fst others) w with
  | Finished r w' next =>
      let '(rs, w'') := serve (List.length others) others next w' in
      ((fst first, r) :: rs, w'')
  | Parked w' => ([], w')
  end.

End UpdateQueue.

(** *** services/wallet.ts and the task execution of services/scheduler.ts *)

Module Executor.
Import TokenCreator.

(** [deriveWallets]: [Array.from({ length: count }, (_, i) =>
    deriveWallet(mnemonic, i))]. The address of the account at an index is
    the work of the key derivation, an input here. *)
Definition deriveWallets (addressOf : Z -> string) (count : Z) : list WalletInstance :=
  List.map (fun i => {| address := addressOf i; index := i |})
    (countFrom (Z.to_nat count) 0).

(** [deriveWallets(config.mnemonic, config.numWallets + 1).slice(1)] *)
Definition workerWallets (config : BotConfig) (addressOf : Z -> string)
    : list WalletInstance :=
  drop 1 (deriveWallets addressOf (numWallets config + 1)).

(** The lock table as [executeTask] uses it: the key is the wallet index of
    a task, which may be [NaN]; a [Map] keeps an entry for [NaN] like for
    any other key. *)
Record LockTable : Type := { byIndex : WalletLockManager.t; atNaN : bool }.

Definition freshLocks : LockTable :=
  {| byIndex := WalletLockManager.create; atNaN := false |}.

Definition tryAcquire (key : option Z) (t : LockTable) : bool * LockTable :=
  match key with
  | Some i =>
      let '(ok, m) := WalletLockManager.tryAcquire i (byIndex t) in
      (ok, {| byIndex := m; atNaN := atNaN t |})
  | None =>
      if atNaN t then (false, t) else (true, {| byIndex := byIndex t; atNaN := true |})
  end.

Definition release (key : option Z) (t : LockTable) : LockTable :=
  match key with
  | Some i => {| byIndex := WalletLockManager.release i (byIndex t); atNaN := atNaN t |}
  | None => {| byIndex := byIndex t; atNaN := false |}
  end.

Definition isLocked (key : option Z) (t : LockTable) : bool :=
  match key with
  | Some i => WalletLockManager.isLocked i (byIndex t)
  | None => atNaN t
  end.

(** What one task meets: the chain, the reading of [Date.now()] when
    [executeTask] starts, and the two readings inside the state update. *)
Record TaskEnv : Type := {
  chain : Chain;
  startedAt : Q;
  updatedAt1 : Z;
  updatedAt2 : Z
}.

(** [TIMING.WALLET_LOCK_POLL_INTERVAL] *)
Definition WALLET_LOCK_POLL_INTERVAL : Z := 2000.

(** [Math.max(0, task.scheduledTime - now)] *)
Definition waitTime (task : TokenTask) (now : Q) : Q :=
  if Qgtb (scheduledTime task - now) 0 then (scheduledTime task - now)%Q else 0%Q.

(** Where a call of [executeTask] stands: its [tryAcquire] failed and it
    will try again after the poll interval; it has settled; or it waits
    inside [executeTokenCreation] for the state lock, its wallet lock
    still held. *)
Inductive TaskRun : Type :=
| Polling (locks : LockTable) (w : Storage.World)
| Settled (c : Completion unit) (locks : LockTable) (w : Storage.World)
| Blocked (tokenAddress : string) (tokensReceived : Z) (locks : LockTable) (w : Storage.World).

(** The [try { ... } finally { lockManager.release(task.walletIndex) }]
    block. The log lines read [task.metadata.symbol] and then
    [wallet.address]; either read throws a [TypeError] on [undefined]. *)
Definition runLocked (config : BotConfig) (env : TaskEnv) (caller : nat)
    (arrivals : list nat) (task : TokenTask) (wallet : option WalletInstance)
    (locks : LockTable) (w : Storage.World) : TaskRun :=
  match metadata task with
  | None =>
      Settled (Thrown (Error "Cannot read properties of undefined (reading 'symbol')"))
        (release (walletIndex task) locks) w
  | Some md =>
      match wallet with
      | None =>
          Settled (Thrown (Error "Cannot read properties of undefined (reading 'address')"))
            (release (walletIndex task) locks) w
      | Some wl =>
          match executeTokenCreation config (chain env) caller arrivals
                  (updatedAt1 env) (updatedAt2 env) wl md w with
          | Ended c w' => Settled c (release (walletIndex task) locks) w'
          | Waiting tokenAddress tokensReceived w' =>
              Blocked tokenAddress tokensReceived locks w'
          end
      end
  end.

(** One round of [while (!lockManager.tryAcquire(task.walletIndex))] and,
    when the lock was acquired, the block that follows. *)
Definition acquireAndRun (config : BotConfig) (env : TaskEnv) (caller : nat)
    (arrivals : list nat) (task : TokenTask) (wallet : option WalletInstance)
    (locks : LockTable) (w : Storage.World) : TaskRun :=
  match tryAcquire (walletIndex task) locks with
  | (false, locks') => Polling locks' w
  | (true, locks') => runLocked config env caller arrivals task wallet locks' w
  end.

(** [executeTask]: the time it sleeps until the scheduled time, and what
    happens then. *)
Definition executeTask (config : BotConfig) (env : TaskEnv) (caller : nat)
    (arrivals : list nat) (task : TokenTask) (wallet : option WalletInstance)
    (locks : LockTable) (w : Storage.World) : Q * TaskRun :=
  (waitTime task (startedAt env),
   acquireAndRun config env caller arrivals task wallet locks w).

(** A task blocked at the state lock goes on once it is handed that lock. *)
Definition executeTask_resumed (config : BotConfig) (env : TaskEnv)
    (arrivals : list nat) (task : TokenTask) (wl : WalletInstance) (md : PreparedToken)
    (tokenAddress : string) (tokensReceived : Z) (locks : LockTable) (w : Storage.World)
    : TaskRun :=
  match executeTokenCreation_resumed config (chain env) arrivals
          (updatedAt1 env) (updatedAt2 env) wl md tokenAddress tokensReceived w with
  | Ended c w' => Settled c (release (walletIndex task) locks) w'
  | Waiting a n w' => Blocked a n locks w'
  end.

(** [wallets[task.walletIndex]!] *)
Definition walletOf (wallets : list WalletInstance) (task : TokenTask)
    : option WalletInstance :=
  match walletIndex task with
  | Some i => at_index wallets i
  | None => None
  end.

(** The sequential branch of [runScheduler]: [for (const task of
    sortedTasks) { try { await executeTask(...) } catch { ... } }]. A task
    that polls or is blocked would keep the loop waiting for ever, since no
    other task runs: the loop is then [Stalled]. Otherwise it lists how
    each task ended, in the order of dispatch. *)
Inductive SequentialRun : Type :=
| Stalled (locks : LockTable) (w : Storage.World)
| Completed (outcomes : list (Z * Completion unit)) (locks : LockTable) (w : Storage.World).

Fixpoint runSequential (config : BotConfig) (env : Z -> TaskEnv)
    (wallets : list WalletInstance) (sortedTasks : list TokenTask)
    (locks : LockTable) (w : Storage.World) : SequentialRun :=
  match sortedTasks with
  | [] => Completed [] locks w
  | task :: rest =>
      match snd (executeTask config (env (tokenIndex task))
                   (Z.to_nat (tokenIndex task)) [] task (walletOf wallets task)
                   locks w) with
      | Settled c locks' w' =>
          match runSequential config env wallets rest locks' w' with
          | Completed outcomes locks'' w'' =>
              Completed ((tokenIndex task, c) :: outcomes) locks'' w''
          | Stalled locks'' w'' => Stalled locks'' w''
          end
      | Polling locks' w' => Stalled locks' w'
      | Blocked _ _ locks' w' => Stalled locks' w'
      end
  end.

(** [runScheduler] in sequential mode, from the start of the process to the
    end of the dispatch loop; [None] when it ends before the loop. *)
Definition runSchedulerSequential (config : BotConfig) (addressOf : Z -> string)
    (metadataFile : option (list PreparedToken)) (now : Z) (caller : nat)
    (s : RandomSource) (env : Z -> TaskEnv) (file : option Storage.FileContent)
    : option SequentialRun :=
  match executionMode config,
        Scheduler.runScheduler config metadataFile now caller s
          (Scheduler.processStart file) with
  | sequential, Scheduler.Dispatched _ _ order w _ =>
      Some (runSequential config env (workerWallets config addressOf) order
              freshLocks w)
  | _, _ => None
  end.

(** The parallel branch wraps every task in [.catch(...)], whose handler
    logs the error and returns. *)
Definition catchAndSkip (c : Completion unit) : Completion unit :=
  match c with
  | Thrown _ => Returned tt
  | Returned v => Returned v
  end.

Inductive Settlement : Type := fulfilled | rejected.

(** [Promise.allSettled] of promises that end as [cs]. *)
Definition allSettled (cs : list (Completion unit)) : list Settlement :=
  List.map (fun c => if returned c then fulfilled else rejected) cs.

Definition isFulfilled (r : Settlement) : bool :=
  match r with fulfilled => true | rejected => false end.

(** The figures of "EXECUTION SUMMARY" when the tasks ended as [outcomes]:
    total, successful, failed. *)
Definition executionSummary (outcomes : list (Completion unit)) : nat * nat * nat :=
  let results := allSettled (List.map catchAndSkip outcomes) in
  (List.length results,
   List.length (List.filter isFulfilled results),
   List.length (List.filter (fun r => negb (isFulfilled r)) results)).

End Executor.

(** *** services/contracts.ts: the two transactions of a job *)

Module Contracts.
Import TokenCreator.

(** [TX_DEFAULTS] and [TIMING] of config/constants.ts *)
Definition SLIPPAGE_BPS : Z := 100.
Definition DEADLINE_OFFSET : Z := 300.
Definition RPC_SYNC_DELAY : Z := 2000.
Definition BALANCE_RETRY_DELAY : Z := 2000.
Definition BALANCE_MAX_RETRIES : Z := 3.

(** [parseEther("10")] *)
Definition deployFee : Z := 10 * 10 ^ 18.

(** What the code asks of the node and of the salt API, in order. *)
Inductive Action : Type :=
| ReadExpectedTokens (initialBuyAmount : Z)
| RequestSalt (creator metadata_uri name symbol : string)
| SendCreate (name symbol tokenURI : string) (amountOut : Z) (salt : string) (value : Z)
| AwaitReceipt (hash : string)
| Pause (ms : Z)
| ReadBalance (token owner : string)
| ReadGraduated (token : string)
| ReadQuote (token : string) (amount : Z)
| SendApprove (token : string) (amount : Z)
| SendSell (amountIn amountOutMin : Z) (token to : string) (deadline : Z).

(** The answers, inputs of the model. [balanceOf n] answers the [n]-th read
    of the balance; a receipt answers [true] for the status "reverted". *)
Record Node : Type := {
  getInitialBuyAmountOut : Z -> Completion Z;
  getSaltAndAddress : string -> PreparedToken -> Completion (string * string);
  writeCreate : Completion string;
  receiptReverted : string -> Completion bool;
  balanceOf : Z -> Completion Z;
  isGraduated : string -> Completion bool;
  getAmountOut : string -> Z -> Completion (string * Z);
  writeApprove : Completion string;
  writeSell : Completion string;
  dateNow : Z
}.

(** An [async] function here: it adds the actions it takes to those taken
    so far and returns or throws. *)
Definition Async (A : Type) : Type := list Action -> Completion A * list Action.

Definition ret {A} (a : A) : Async A := fun acts => (Returned a, acts).

Definition throw {A} (e : JsError) : Async A := fun acts => (Thrown e, acts).

Definition bind {A B} (m : Async A) (k : A -> Async B) : Async B :=
  fun acts =>
    match m acts with
    | (Returned a, acts') => k a acts'
    | (Thrown e, acts') => (Thrown e, acts')
    end.

(** [await] of a call whose answer is [answer]. *)
Definition await {A} (act : Action) (answer : Completion A) : Async A :=
  fun acts => (answer, acts ++ [act]).

Definition run {A} (m : Async A) : Completion A * list Action := m [].

(** [(x * BigInt(10000 - SLIPPAGE_BPS)) / BigInt(10000)] *)
Definition withSlippage (x : Z) : Z := Z.quot (x * (10000 - SLIPPAGE_BPS)) 10000.

(** The loop "Get token balance with retry" of [createToken]; the variable
    [tokensReceived] starts at [0n]. *)
Fixpoint readBalance (node : Node) (token owner : string) (fuel : nat) (attempt : Z)
    : Async Z :=
  match fuel with
  | O => ret 0
  | S fuel' =>
      if attempt <=? BALANCE_MAX_RETRIES then
        fun acts =>
          let acts1 := acts ++ [ReadBalance token owner] in
          match balanceOf node attempt with
          | Returned tokensReceived => (Returned tokensReceived, acts1)
          | Thrown error =>
              if attempt =? BALANCE_MAX_RETRIES then (Thrown error, acts1)
              else readBalance node token owner fuel' (attempt + 1)
                     (acts1 ++ [Pause BALANCE_RETRY_DELAY])
          end
      else ret 0
  end.

Definition createToken (node : Node) (wallet : WalletInstance)
    (metadata : PreparedToken) (initialBuyAmount : Z)
    : Async (string * Z * string) :=
  bind (await (ReadExpectedTokens initialBuyAmount)
          (getInitialBuyAmountOut node initialBuyAmount)) (fun expectedTokens =>
  let minTokens := withSlippage expectedTokens in
  let totalValue := deployFee + initialBuyAmount in
  bind (await (RequestSalt (address wallet) (tokenURI metadata) (name metadata)
                 (symbol metadata))
          (getSaltAndAddress node (address wallet) metadata))
       (fun '(salt, tokenAddress) =>
  bind (await (SendCreate (name metadata) (symbol metadata) (tokenURI metadata)
                 minTokens salt totalValue)
          (writeCreate node)) (fun hash =>
  bind (await (AwaitReceipt hash) (receiptReverted node hash)) (fun reverted =>
  if reverted : bool then throw (Error ("Token creation reverted: " ++ hash))
  else
  bind (await (Pause RPC_SYNC_DELAY) (Returned tt)) (fun _ =>
  bind (readBalance node tokenAddress (address wallet)
          (Z.to_nat BALANCE_MAX_RETRIES) 1) (fun tokensReceived =>
  ret (tokenAddress, tokensReceived, hash))))))).

Definition sellTokens (node : Node) (wallet : WalletInstance) (tokenAddress : string)
    (amount : Z) : Async string :=
  bind (await (ReadGraduated tokenAddress) (isGraduated node tokenAddress))
       (fun graduated =>
  if graduated : bool
  then throw (Error "Token has graduated - use DEX router instead")
  else
  bind (await (ReadQuote tokenAddress amount) (getAmountOut node tokenAddress amount))
       (fun '(router, expectedMon) =>
  let minMon := withSlippage expectedMon in
  let deadline := dateNow node / 1000 + DEADLINE_OFFSET in
  bind (await (SendApprove tokenAddress amount) (writeApprove node)) (fun approveHash =>
  bind (await (AwaitReceipt approveHash) (receiptReverted node approveHash)) (fun _ =>
  bind (await (SendSell amount minMon tokenAddress (address wallet) deadline)
          (writeSell node)) (fun hash =>
  bind (await (AwaitReceipt hash) (receiptReverted node hash)) (fun reverted =>
  if reverted : bool then throw (Error ("Token sell reverted: " ++ hash))
  else ret hash)))))).

Definition isSend (a : Action) : bool :=
  match a with
  | SendCreate _ _ _ _ _ _ | SendApprove _ _ | SendSell _ _ _ _ _ => true
  | _ => false
  end.

Definition isReadBalance (a : Action) : bool :=
  match a with ReadBalance _ _ => true | _ => false end.

End Contracts.

(** *** services/metadata.ts: the preparation of the job pool *)

Module MetadataService.

(** [TokenListItem['token_info']], the fields that are read; a [null] link
    is [None]. *)
Record TokenInfo : Type := {
  info_name : string;
  info_symbol : string;
  image_uri : string;
  info_description : string;
  info_twitter : option string;
  info_telegram : option string;
  info_website : option string
}.

(** [interface MetadataUploadRequest] *)
Record MetadataUploadRequest : Type := {
  req_name : string;
  req_symbol : string;
  req_description : string;
  req_image_uri : string;
  req_twitter : option string;
  req_telegram : option string;
  req_website : option string
}.

Inductive MetadataMode : Type := upload | reuse.

(** The answers of the two HTTP services: the token list of a page, the URI
    under which an image was uploaded again, and the URI of uploaded
    metadata. *)
Record Api : Type := {
  fetchTokenList : Z -> Z -> Completion (list TokenInfo);
  uploadImage : string -> Completion string;
  uploadMetadata : MetadataUploadRequest -> Completion string
}.

(** [value || undefined] on a link: [null] and the empty string both give
    [undefined]. *)
Definition orUndefined (value : option string) : option string :=
  match value with
  | Some EmptyString => None
  | Some link => Some link
  | None => None
  end.

Definition processTokenToMetadataWithUpload (api : Api) (tokenInfo : TokenInfo)
    : Completion PreparedToken :=
  match uploadImage api (image_uri tokenInfo) with
  | Thrown e => Thrown e
  | Returned newImageUri =>
      let uploadRequest :=
        {| req_name := info_name tokenInfo;
           req_symbol := info_symbol tokenInfo;
           req_description := info_description tokenInfo;
           req_image_uri := newImageUri;
           req_twitter := orUndefined (info_twitter tokenInfo);
           req_telegram := orUndefined (info_telegram tokenInfo);
           req_website := orUndefined (info_website tokenInfo) |} in
      match uploadMetadata api uploadRequest with
      | Thrown e => Thrown e
      | Returned metadata_uri =>
          Returned
            {| name := info_name tokenInfo;
               symbol := info_symbol tokenInfo;
               tokenURI := metadata_uri;
               description := info_description tokenInfo;
               imageUri := newImageUri;
               twitter := orUndefined (info_twitter tokenInfo);
               telegram := orUndefined (info_telegram tokenInfo);
               website := orUndefined (info_website tokenInfo) |}
      end
  end.

Definition processTokenToMetadataWithReuse (tokenInfo : TokenInfo)
    : Completion PreparedToken :=
  Returned
    {| name := info_name tokenInfo;
       symbol := info_symbol tokenInfo;
       tokenURI := image_uri tokenInfo;
       description := info_description tokenInfo;
       imageUri := image_uri tokenInfo;
       twitter := orUndefined (info_twitter tokenInfo);
       telegram := orUndefined (info_telegram tokenInfo);
       website := orUndefined (info_website tokenInfo) |}.

(** The [for (const token of tokenList.tokens)] loop of
    [fetchAndPrepareTokens]: the tokens prepared so far and the pauses
    taken so far are carried along. *)
Fixpoint prepareLoop (mode : MetadataMode) (api : Api) (tokens : list TokenInfo)
    (preparedTokens : list PreparedToken) (pauses : list Z)
    : list PreparedToken * list Z :=
  match tokens with
  | [] => (preparedTokens, pauses)
  | token :: rest =>
      match (match mode with
             | upload => processTokenToMetadataWithUpload api token
             | reuse => processTokenToMetadataWithReuse token
             end) with
      | Returned preparedToken =>
          prepareLoop mode api rest (preparedTokens ++ [preparedToken])
            (pauses ++ [500])
      | Thrown _ => prepareLoop mode api rest preparedTokens pauses
      end
  end.

(** [fetchAndPrepareTokens]: the result and the [delay] pauses taken. *)
Definition fetchAndPrepareTokens (mode : MetadataMode) (api : Api)
    (startPage limit : Z) : Completion (list PreparedToken) * list Z :=
  match fetchTokenList api startPage limit with
  | Thrown error => (Thrown error, [])
  | Returned tokens =>
      let '(preparedTokens, pauses) := prepareLoop mode api tokens [] [] in
      (Returned preparedTokens, pauses)
  end.

(** scripts/prepare-metadata.ts: what [main] leaves in the metadata file,
    which it does not touch when the preparation failed. *)
Definition prepareMetadata (mode : MetadataMode) (api : Api) (startPage limit : Z)
    (file : option MetadataStore.FileContent) : option MetadataStore.FileContent :=
  match fst (fetchAndPrepareTokens mode api startPage limit) with
  | Returned tokens => MetadataStore.saveMetadata tokens
  | Thrown _ => file
  end.

End MetadataService.

(** ** Vocabulary of the further properties *)

(** A state lock in which nobody waits while the lock is free. *)
Definition settled (l : Storage.StateLockManager.t) : Prop :=
  Storage.StateLockManager.locked l = false -> Storage.StateLockManager.queue l = [].

(** The lock after [k] calls of [release]. *)
Definition released (k : nat) (l : Storage.StateLockManager.t)
    : Storage.StateLockManager.t :=
  Nat.iter k (fun l' => snd (Storage.StateLockManager.release l')) l.

(** The updaters applied one after the other to a record, each to what
    the one before left; an updater that throws leaves the record as it
    was. The result lists how each ended and gives the last record. *)
Fixpoint applyAll (updaters : list (nat * UpdateQueue.Updater)) (st : Storage.BotState)
    : list (nat * Completion unit) * Storage.BotState :=
  match updaters with
  | [] => ([], st)
  | (c, u) :: rest =>
      match u st with
      | Returned st' =>
          let '(rs, final) := applyAll rest st' in ((c, Returned tt) :: rs, final)
      | Thrown e =>
          let '(rs, final) := applyAll rest st in ((c, Thrown e) :: rs, final)
      end
  end.

(** The lock a [release] leaves when [waiting] callers were queued, and the
    caller it resolves. *)
Definition passedOn (waiting : list nat) : Storage.StateLockManager.t :=
  {| Storage.StateLockManager.locked := match waiting with [] => false | _ :: _ => true end;
     Storage.StateLockManager.queue := tail waiting |}.

(** What the loop of [fetchAndPrepareTokens] adds for one token: the
    prepared token, or nothing when its processing threw. *)
Definition processed (mode : MetadataService.MetadataMode) (api : MetadataService.Api)
    (token : MetadataService.TokenInfo) : list PreparedToken :=
  match (match mode with
         | MetadataService.upload =>
             MetadataService.processTokenToMetadataWithUpload api token
         | MetadataService.reuse =>
             MetadataService.processTokenToMetadataWithReuse token
         end) with
  | Returned preparedToken => [preparedToken]
  | Thrown _ => []
  end.

(** Task [a] is scheduled no later than task [b]. *)
Definition byTime (a b : TokenTask) : Prop := (scheduledTime a <= scheduledTime b)%Q.


(** The record after a task ran on the record [st]: the job appended when
    the task has a job and a wallet and [createToken] returned, [st]
    itself otherwise. *)
Definition recorded (env : Z -> Executor.TaskEnv)
    (wallets : list TokenCreator.WalletInstance) (st : Storage.BotState)
    (task : TokenTask) : Storage.BotState :=
  match metadata task, Executor.walletOf wallets task with
  | Some md, Some wl =>
      match TokenCreator.createToken (Executor.chain (env (tokenIndex task))) wl md with
      | Returned (tokenAddress, _) =>
          match TokenCreator.recordCreation tokenAddress md wl
                  (Executor.updatedAt1 (env (tokenIndex task)))
                  (Executor.updatedAt2 (env (tokenIndex task))) st with
          | Returned st' => st'
          | Thrown _ => st
          end
      | Thrown _ => st
      end
  | _, _ => st
  end.

(** Whether the creation of the task's token succeeds. *)
Definition creates (env : Z -> Executor.TaskEnv)
    (wallets : list TokenCreator.WalletInstance) (task : TokenTask) : bool :=
  match metadata task, Executor.walletOf wallets task with
  | Some md, Some wl =>
      returned (TokenCreator.createToken (Executor.chain (env (tokenIndex task))) wl md)
  | _, _ => false
  end.

(** No entry of the lock table is held. *)
Definition allFree (locks : Executor.LockTable) : Prop :=
  forall key, Executor.isLocked key locks = false.

(** ** Inputs of the further examples *)

(** An entry of the token list whose twitter link is the empty string. *)
Definition listedToken : MetadataService.TokenInfo :=
  {| MetadataService.info_name := "Moon";
     MetadataService.info_symbol := "MOON";
     MetadataService.image_uri := "https://img/moon.png";
     MetadataService.info_description := "to the moon";
     MetadataService.info_twitter := Some EmptyString;
     MetadataService.info_telegram := None;
     MetadataService.info_website := None |}.

(** Services that list that one entry and accept every upload. *)
Definition listingApi : MetadataService.Api :=
  {| MetadataService.fetchTokenList := fun _ _ => Returned [listedToken];
     MetadataService.uploadImage := fun _ => Returned "ipfs://moon.png"%string;
     MetadataService.uploadMetadata := fun _ => Returned "ipfs://moon"%string |}.

(** Every task meets the chain [sellReverts] and starts at time 0. *)
Definition steadyEnv (i : Z) : Executor.TaskEnv :=
  {| Executor.chain := sellReverts; Executor.startedAt := 0%Q;
     Executor.updatedAt1 := 1000 + i; Executor.updatedAt2 := 1000 + i |}.

Definition firstTask : TokenTask :=
  {| tokenIndex := 0; walletIndex := Some 0; metadata := Some moon;
     delayMs := 0%Q; scheduledTime := 0%Q |}.

(** A node whose first balance read fails and on which all else works. *)
Definition slowNode : Contracts.Node :=
  {| Contracts.getInitialBuyAmountOut := fun _ => Returned 1000;
     Contracts.getSaltAndAddress := fun _ _ => Returned ("0xsalt"%string, "0xT0"%string);
     Contracts.writeCreate := Returned "0xcreate"%string;
     Contracts.receiptReverted := fun _ => Returned false;
     Contracts.balanceOf :=
       fun n => if n <? 2 then Thrown (Error "rpc lagging") else Returned 990;
     Contracts.isGraduated := fun _ => Returned false;
     Contracts.getAmountOut := fun _ _ => Returned ("0xrouter"%string, 200);
     Contracts.writeApprove := Returned "0xapprove"%string;
     Contracts.writeSell := Returned "0xsell"%string;
     Contracts.dateNow := 1700000000123 |}.

(** The configuration [fiveTokens] with no retry at all. *)
Definition noBudget : BotConfig :=
  {| numWallets := 2; totalTokensToCreate := 5; durationHours := 1%Q;
     executionMode := sequential; delayRandomness := (1 # 2)%Q; sellPercentage := 100;
     maxRetries := 0; retryDelayMs := 5000 |}.

(** * Properties *)

(** ** The wallet lock table *)

Section WalletLock.
Import WalletLockManager.

Lemma isLocked_release (i j : Z) (m : t) :
  isLocked j (release i m) = if decide (j = i) then false else isLocked j m.
Proof.
  unfold isLocked, release; simpl.
  destruct (decide (j = i)) as [->|Hne].
  - now rewrite lookup_insert_eq.
  - now rewrite lookup_insert_ne by congruence.
Qed.

Lemma tryAcquire_free (i : Z) (m : t) :
  isLocked i m = false ->
  tryAcquire i m = (true, {| locks := <[i := true]> (locks m) |}).
Proof. unfold isLocked, tryAcquire. now intros ->. Qed.

Lemma tryAcquire_busy (i : Z) (m : t) :
  isLocked i m = true -> tryAcquire i m = (false, m).
Proof. unfold isLocked, tryAcquire. now intros ->. Qed.

Lemma isLocked_tryAcquire (i j : Z) (m : t) :
  isLocked j (snd (tryAcquire i m)) = if decide (j = i) then true else isLocked j m.
Proof.
  destruct (isLocked i m) eqn:Hi.
  - rewrite (tryAcquire_busy _ _ Hi); simpl.
    destruct (decide (j = i)) as [->|]; auto.
  - rewrite (tryAcquire_free _ _ Hi); unfold isLocked; simpl.
    destruct (decide (j = i)) as [->|Hne].
    + now rewrite lookup_insert_eq.
    + now rewrite lookup_insert_ne by congruence.
Qed.

(** C9. For every lock table and wallet index [i]: [tryAcquire i] answers
    true exactly when [i] was not busy; it then marks [i] busy and changes
    no other index, and when it answers false the table is the one it was
    given. [release i] marks [i] not busy, changes no other index, never
    fails, gives the same table when done twice, and is invisible when [i]
    was already free (the very same table when [i] had a false entry). A
    [tryAcquire i] right after [release i] answers true. *)
Theorem walletLock_contract (m : t) (i : Z) :
  fst (tryAcquire i m) = negb (isLocked i m)
  /\ (fst (tryAcquire i m) = true ->
        isLocked i (snd (tryAcquire i m)) = true
        /\ forall j, j <> i -> isLocked j (snd (tryAcquire i m)) = isLocked j m)
  /\ (fst (tryAcquire i m) = false -> snd (tryAcquire i m) = m)
  /\ isLocked i (release i m) = false
  /\ (forall j, j <> i -> isLocked j (release i m) = isLocked j m)
  /\ release i (release i m) = release i m
  /\ (isLocked i m = false -> forall j, isLocked j (release i m) = isLocked j m)
  /\ (locks m !! i = Some false -> release i m = m)
  /\ tryAcquire i (release i m)
     = (true, {| locks := <[i := true]> (locks m) |}).
Proof.
  repeat split.
  - destruct (isLocked i m) eqn:Hi.
    + now rewrite (tryAcquire_busy _ _ Hi).
    + now rewrite (tryAcquire_free _ _ Hi).
  - rewrite isLocked_tryAcquire. now rewrite decide_True.
  - intros j Hj. rewrite isLocked_tryAcquire. now rewrite decide_False.
  - destruct (isLocked i m) eqn:Hi.
    + now rewrite (tryAcquire_busy _ _ Hi).
    + rewrite (tryAcquire_free _ _ Hi). discriminate.
  - rewrite isLocked_release. now rewrite decide_True.
  - intros j Hj. rewrite isLocked_release. now rewrite decide_False.
  - unfold release; simpl. now rewrite insert_insert_eq.
  - intros Hi j. rewrite isLocked_release.
    destruct (decide (j = i)) as [->|]; auto.
  - intros Hi. destruct m as [l]; unfold release; simpl in *.
    f_equal. now apply insert_id.
  - rewrite tryAcquire_free by (rewrite isLocked_release; now rewrite decide_True).
    unfold release; simpl. now rewrite insert_insert_eq.
Qed.

(** Wallet 3 is taken, a second attempt is refused, and after the release
    it can be taken again. *)
Lemma walletLock_contract_witness :
  let busy := snd (tryAcquire 3 create) in
  isLocked 3 busy = true
  /\ tryAcquire 3 busy = (false, busy)
  /\ fst (tryAcquire 3 (release 3 busy)) = true.
Proof.
  intros busy.
  destruct (walletLock_contract create 3) as (_ & Hacq & _).
  destruct (walletLock_contract busy 3) as (Hfst & _ & Hsame & _ & _ & _ & _ & _ & Hagain).
  split; [apply Hacq; reflexivity|]. split.
  - rewrite (surjective_pairing (tryAcquire 3 busy)).
    rewrite Hsame by reflexivity. reflexivity.
  - now rewrite Hagain.
Defined.

End WalletLock.

(** ** The durable state store *)

Section DurableStore.
Import Storage.

Lemma arrive_locked (callers : list nat) (l : StateLockManager.t) :
  StateLockManager.locked l = true ->
  StateLockManager.arrive callers l
  = {| StateLockManager.locked := true;
       StateLockManager.queue := StateLockManager.queue l ++ callers |}.
Proof.
  revert l. induction callers as [|c cs IH]; intros [b q] Hl; simpl in *; subst.
  - now rewrite app_nil_r.
  - unfold StateLockManager.arrive in *; simpl.
    rewrite IH by reflexivity. simpl. now rewrite <- app_assoc.
Qed.

Lemma release_handedOver (l : StateLockManager.t) (arrivals : list nat) :
  StateLockManager.locked l = true ->
  handedOver l arrivals
    (fst (StateLockManager.release (StateLockManager.arrive arrivals l)))
    (snd (StateLockManager.release (StateLockManager.arrive arrivals l))).
Proof.
  intros Hl. rewrite (arrive_locked _ _ Hl).
  unfold handedOver, StateLockManager.release; simpl.
  destruct (StateLockManager.queue l ++ arrivals); simpl; auto.
Qed.

(** The holder's part of a locked call, spelled out. *)
Lemma withLock_granted_eq {A} (fn : World -> Completion A * World)
    (arrivals : list nat) (w : World) :
  withLock_granted fn arrivals w
  = Finished (fst (fn w))
      (with_lock (snd (StateLockManager.release
                         (StateLockManager.arrive arrivals (stateLock (snd (fn w))))))
         (snd (fn w)))
      (fst (StateLockManager.release
              (StateLockManager.arrive arrivals (stateLock (snd (fn w)))))).
Proof.
  unfold withLock_granted. destruct (fn w) as [c w1]; simpl.
  now destruct (StateLockManager.release _).
Qed.

Lemma withLock_free {A} (caller : nat) (fn : World -> Completion A * World)
    (arrivals : list nat) (w : World) :
  StateLockManager.locked (stateLock w) = false ->
  withLock caller fn arrivals w
  = withLock_granted fn arrivals
      (with_lock {| StateLockManager.locked := true;
                    StateLockManager.queue := StateLockManager.queue (stateLock w) |} w).
Proof. intros Hl. unfold withLock, StateLockManager.acquire. now rewrite Hl. Qed.

Lemma withLock_held {A} (caller : nat) (fn : World -> Completion A * World)
    (arrivals : list nat) (w : World) :
  StateLockManager.locked (stateLock w) = true ->
  withLock caller fn arrivals w
  = Parked (with_lock {| StateLockManager.locked := true;
                         StateLockManager.queue :=
                           StateLockManager.queue (stateLock w) ++ [caller] |} w).
Proof. intros Hl. unfold withLock, StateLockManager.acquire. now rewrite Hl. Qed.

Lemma updateState_body_throws (updater : BotState -> Completion BotState)
    (w : World) (state : BotState) (e : JsError) :
  loadState w = Returned state -> updater state = Thrown e ->
  updateState_body updater w = (Thrown e, w).
Proof. intros Hload Hup. unfold updateState_body. now rewrite Hload, Hup. Qed.

Lemma updateState_body_commits (updater : BotState -> Completion BotState)
    (w : World) (state state' : BotState) :
  loadState w = Returned state -> updater state = Returned state' ->
  updateState_body updater w = (Returned tt, writeState state' w).
Proof. intros Hload Hup. unfold updateState_body. now rewrite Hload, Hup. Qed.

(** C3. When the mutator handed to [updateState] throws [e] on the state
    that was loaded, the call writes nothing. Entered with the lock free,
    it ends with [e] thrown, the state file and the log as they were, and
    the lock released (handed to the first waiter, or dropped). Entered
    with the lock held, it only joins the queue; once it is handed the
    lock the same holds, whatever the file contains by then. *)
Theorem updateState_mutator_throws (updater : BotState -> Completion BotState)
    (caller : nat) (arrivals : list nat) (w : World) (state : BotState)
    (e : JsError) :
  loadState w = Returned state ->
  updater state = Thrown e ->
  (StateLockManager.locked (stateLock w) = false ->
     exists w' woken,
       updateState caller updater arrivals w = Finished (Thrown e) w' woken
       /\ stateFile w' = stateFile w
       /\ log w' = log w
       /\ handedOver (stateLock w) arrivals woken (stateLock w'))
  /\ (StateLockManager.locked (stateLock w) = true ->
     (exists w', updateState caller updater arrivals w = Parked w'
        /\ stateFile w' = stateFile w /\ log w' = log w)
     /\ exists w' woken,
       updateState_resumed updater arrivals w = Finished (Thrown e) w' woken
       /\ stateFile w' = stateFile w
       /\ log w' = log w
       /\ handedOver (stateLock w) arrivals woken (stateLock w')).
Proof.
  intros Hload Hup.
  pose proof (updateState_body_throws updater) as Hbody.
  split; intros Hl.
  - unfold updateState. rewrite (withLock_free _ _ _ _ Hl), withLock_granted_eq.
    rewrite (Hbody _ state e) by assumption. simpl.
    eexists _, _. split; [reflexivity|]. repeat split; try reflexivity;
      apply (release_handedOver
               {| StateLockManager.locked := true;
                  StateLockManager.queue := StateLockManager.queue (stateLock w) |}
               arrivals eq_refl).
  - split.
    + unfold updateState. rewrite (withLock_held _ _ _ _ Hl).
      eexists. split; [reflexivity|]. now split.
    + unfold updateState_resumed. rewrite withLock_granted_eq.
      rewrite (Hbody _ state e) by assumption. simpl.
      eexists _, _. split; [reflexivity|]. repeat split; try reflexivity;
        apply (release_handedOver (stateLock w) arrivals Hl).
Qed.

(** The mutator that always throws, on a first run with the lock free. *)
Lemma updateState_mutator_throws_witness :
  let w := {| stateFile := None; stateLock := StateLockManager.create; log := [] |} in
  let updater := fun _ : BotState => @Thrown BotState (Error "disk quota") in
  loadState w = Returned emptyState
  /\ updater emptyState = Thrown (Error "disk quota")
  /\ exists w' woken,
       updateState 7 updater [] w = Finished (Thrown (Error "disk quota")) w' woken
       /\ stateFile w' = None
       /\ log w' = []
       /\ handedOver StateLockManager.create [] woken (stateLock w').
Proof.
  intros w updater.
  split; [reflexivity|]. split; [reflexivity|].
  exact (proj1 (updateState_mutator_throws updater 7 [] w emptyState
                  (Error "disk quota") eq_refl eq_refl) eq_refl).
Defined.

Lemma consistent_recordCreation (tokenAddress : string) (md : PreparedToken)
    (wallet : TokenCreator.WalletInstance) (now1 now2 : Z)
    (state state' : BotState) :
  TokenCreator.recordCreation tokenAddress md wallet now1 now2 state = Returned state' ->
  tokensCreated state' = tokensCreated state + 1
  /\ createdTokens state'
     = createdTokens state ++
       [ {| tokenAddress := tokenAddress; metadata := md; createdAt := now2;
            walletIndex := TokenCreator.index wallet |} ]
  /\ startTime state' = startTime state
  /\ (consistent state -> consistent state').
Proof.
  unfold TokenCreator.recordCreation. intros [= <-]. simpl.
  repeat split. unfold consistent; simpl. rewrite length_app; simpl. lia.
Qed.

(** C4. The record that [loadState] returns when there is no state file
    has as many completed-job entries as its count says. When the file
    holds a record with that property, the update of the job-completion
    path commits a record with one more in the count and exactly one more
    entry at the end, which has the property again, and that record is
    what a later [loadState] returns; this holds for a call that found the
    lock free and for one that was handed the lock after waiting. *)
Theorem completion_update_preserves_invariant
    (tokenAddress : string) (md : PreparedToken)
    (wallet : TokenCreator.WalletInstance) (now1 now2 : Z)
    (caller : nat) (arrivals : list nat) (w : World) (state : BotState) :
  loadState w = Returned state ->
  consistent state ->
  let updater := TokenCreator.recordCreation tokenAddress md wallet now1 now2 in
  let entry := {| tokenAddress := tokenAddress; metadata := md; createdAt := now2;
                  walletIndex := TokenCreator.index wallet |} in
  (forall w0, stateFile w0 = None ->
     loadState w0 = Returned emptyState /\ consistent emptyState)
  /\ exists state',
      updater state = Returned state'
      /\ tokensCreated state' = tokensCreated state + 1
      /\ createdTokens state' = createdTokens state ++ [entry]
      /\ consistent state'
      /\ (StateLockManager.locked (stateLock w) = false ->
           exists w' woken,
             updateState caller updater arrivals w = Finished (Returned tt) w' woken
             /\ loadState w' = Returned state')
      /\ (StateLockManager.locked (stateLock w) = true ->
           exists w' woken,
             updateState_resumed updater arrivals w = Finished (Returned tt) w' woken
             /\ loadState w' = Returned state').
Proof.
  intros Hload Hinv updater entry. split.
  - intros w0 H0. unfold loadState. rewrite H0. split; reflexivity.
  - destruct (updater state) as [state'|] eqn:Hup; [|discriminate].
    destruct (consistent_recordCreation _ _ _ _ _ _ _ Hup) as (Hn & Hl & _ & Hc).
    exists state'. repeat split; auto.
    + intros Hfree. unfold updateState.
      rewrite (withLock_free _ _ _ _ Hfree), withLock_granted_eq.
      rewrite (updateState_body_commits updater _ state state') by assumption.
      eexists _, _. split; reflexivity.
    + intros Hheld. unfold updateState_resumed. rewrite withLock_granted_eq.
      rewrite (updateState_body_commits updater _ state state') by assumption.
      eexists _, _. split; reflexivity.
Qed.

(** The second job of a run completes. *)
Lemma completion_update_preserves_invariant_witness :
  let md := moon in
  let wallet := wallet1 in
  let first := {| tokenAddress := "0xT0"; metadata := md; createdAt := 1000;
                  walletIndex := 1 |} in
  let state := {| tokensCreated := 1; startTime := Some 900;
                  lastCreatedAt := Some 1000; createdTokens := [first] |} in
  let w := {| stateFile := Some (Json state); stateLock := StateLockManager.create;
              log := [] |} in
  exists state',
    TokenCreator.recordCreation "0xT1" md wallet 2000 2001 state = Returned state'
    /\ tokensCreated state' = 2
    /\ List.length (createdTokens state') = 2%nat.
Proof.
  intros md wallet first state w.
  destruct (proj2 (completion_update_preserves_invariant "0xT1" md wallet 2000 2001
                     0 [] w state eq_refl eq_refl))
    as (state' & Hup & Hn & Hl & _).
  exists state'. split; [exact Hup|]. split; [exact Hn|].
  rewrite Hl. reflexivity.
Defined.

End DurableStore.

(** ** The retry wrapper *)

Section Retry.
Import Storage TokenCreator.

Lemma extend_nil (w : World) : extend [] w = w.
Proof. destruct w; unfold extend; simpl. now rewrite app_nil_r. Qed.

Lemma emit_extend (e : Event) (evs : list Event) (w : World) :
  emit e (extend evs w) = extend (evs ++ [e]) w.
Proof. unfold emit, extend; simpl. now rewrite app_assoc. Qed.

Lemma extend_extend (evs evs' : list Event) (w : World) :
  extend evs' (extend evs w) = extend (evs ++ evs') w.
Proof. unfold extend; simpl. now rewrite app_assoc. Qed.

Lemma emit_as_extend (e : Event) (w : World) : emit e w = extend [e] w.
Proof. reflexivity. Qed.

Lemma attempts_step (taskName : string) (retryDelay : Z) (n : nat) (attempt : Z) :
  attempts taskName retryDelay (S (S n)) attempt
  = Invoke taskName attempt :: Sleep (retryDelay * attempt)
    :: attempts taskName retryDelay (S n) (attempt + 1).
Proof. reflexivity. Qed.

Lemma count_invokes (taskName : string) (retryDelay : Z) (n : nat) (attempt : Z) :
  List.length (List.filter isInvoke (attempts taskName retryDelay n attempt)) = n.
Proof.
  revert attempt. induction n as [|n IH]; intros attempt; [reflexivity|].
  destruct n as [|n]; [reflexivity|].
  rewrite attempts_step. cbn [List.filter isInvoke Datatypes.length].
  now rewrite IH.
Qed.

Lemma no_write_in_attempts (taskName : string) (retryDelay : Z) (n : nat) (attempt : Z) :
  List.filter isWriteState (attempts taskName retryDelay n attempt) = [].
Proof.
  revert attempt. induction n as [|n IH]; intros attempt; [reflexivity|].
  destruct n as [|n]; [reflexivity|].
  rewrite attempts_step. cbn [List.filter isWriteState]. apply IH.
Qed.

Section Loop.
Context {T : Type} (fn : Z -> Completion T) (taskName : string)
        (maxRetries retryDelay : Z).

(** The operation fails [n] times from [attempt] on and then succeeds. *)
Lemma withRetry_loop_succeeds (v : T) (n : nat) :
  forall (fuel : nat) (attempt : Z) (w : World),
    (n < fuel)%nat ->
    attempt + Z.of_nat n <= maxRetries ->
    (forall j, attempt <= j < attempt + Z.of_nat n -> returned (fn j) = false) ->
    fn (attempt + Z.of_nat n) = Returned v ->
    withRetry_loop fn taskName maxRetries retryDelay fuel attempt w
    = (Returned v, extend (attempts taskName retryDelay (S n) attempt) w).
Proof.
  induction n as [|n IH]; intros fuel attempt w Hfuel Hmax Hfail Hok;
    (destruct fuel as [|fuel]; [lia|]); simpl withRetry_loop.
  - replace (attempt + Z.of_nat 0) with attempt in * by lia.
    destruct (Z.leb_spec attempt maxRetries); [|lia].
    now rewrite Hok.
  - destruct (Z.leb_spec attempt maxRetries); [|lia].
    destruct (fn attempt) as [v'|e] eqn:Hf.
    + specialize (Hfail attempt ltac:(lia)). rewrite Hf in Hfail. discriminate.
    + destruct (Z.ltb_spec attempt maxRetries); [|lia].
      rewrite (IH fuel (attempt + 1)).
      * rewrite !emit_as_extend, !extend_extend. now rewrite attempts_step.
      * lia.
      * lia.
      * intros j Hj. apply Hfail. lia.
      * rewrite <- Hok. f_equal. lia.
Qed.

(** The operation fails on every attempt that is left. *)
Lemma withRetry_loop_exhausts (e : JsError) (n : nat) :
  forall (fuel : nat) (attempt : Z) (w : World),
    (n < fuel)%nat ->
    attempt + Z.of_nat n = maxRetries ->
    (forall j, attempt <= j < maxRetries -> returned (fn j) = false) ->
    fn maxRetries = Thrown e ->
    withRetry_loop fn taskName maxRetries retryDelay fuel attempt w
    = (Thrown (Error (taskName ++ " failed after " ++ Z_to_string maxRetries
                      ++ " attempts: " ++ message e)),
       extend (attempts taskName retryDelay (S n) attempt) w).
Proof.
  induction n as [|n IH]; intros fuel attempt w Hfuel Hmax Hfail Hlast;
    (destruct fuel as [|fuel]; [lia|]); simpl withRetry_loop.
  - replace attempt with maxRetries in * by lia.
    destruct (Z.leb_spec maxRetries maxRetries); [|lia].
    rewrite Hlast.
    destruct (Z.ltb_spec maxRetries maxRetries); [lia|]. reflexivity.
  - destruct (Z.leb_spec attempt maxRetries); [|lia].
    destruct (fn attempt) as [v'|e'] eqn:Hf.
    + specialize (Hfail attempt ltac:(lia)). rewrite Hf in Hfail. discriminate.
    + destruct (Z.ltb_spec attempt maxRetries); [|lia].
      rewrite (IH fuel (attempt + 1)).
      * rewrite !emit_as_extend, !extend_extend. now rewrite attempts_step.
      * lia.
      * lia.
      * intros j Hj. apply Hfail. lia.
      * assumption.
Qed.

(** Whatever the operation does, the loop makes between one and
    [maxRetries - attempt + 1] calls and touches nothing but the log. *)
Lemma withRetry_loop_bounded :
  forall (fuel : nat) (attempt : Z) (w : World),
    attempt <= maxRetries ->
    maxRetries - attempt < Z.of_nat fuel ->
    exists n : nat,
      attempt + Z.of_nat n <= maxRetries
      /\ snd (withRetry_loop fn taskName maxRetries retryDelay fuel attempt w)
         = extend (attempts taskName retryDelay (S n) attempt) w.
Proof.
  induction fuel as [|fuel IH]; intros attempt w Hle Hfuel; [lia|].
  simpl withRetry_loop.
  destruct (Z.leb_spec attempt maxRetries); [|lia].
  destruct (fn attempt) as [v|e].
  - exists 0%nat. split; [lia|reflexivity].
  - destruct (Z.ltb_spec attempt maxRetries).
    + destruct (IH (attempt + 1) (emit (Sleep (retryDelay * attempt))
                                    (emit (Invoke taskName attempt) w)))
        as (n & Hn & Hw); [lia|lia|].
      exists (S n). split; [lia|].
      rewrite Hw, !emit_as_extend, !extend_extend. now rewrite attempts_step.
    + exists 0%nat. split; [lia|reflexivity].
Qed.

End Loop.

(** C6. For [maxRetries >= 1], [withRetry] calls the operation [k] times
    for some [k] between 1 and [maxRetries], and leaves in the log exactly
    those calls with a pause of [retryDelay * j] after the failed call
    number [j] and nothing after the last call. If the first success is at
    call [k], the value of that call is returned. If all [maxRetries] calls
    fail, the error thrown carries the task name, [maxRetries] and the
    message of the last error. *)
Theorem withRetry_contract {T : Type} (fn : Z -> Completion T) (taskName : string)
    (maxRetries retryDelay : Z) (w : World) :
  1 <= maxRetries ->
  (exists k : nat,
     (1 <= k)%nat /\ Z.of_nat k <= maxRetries
     /\ snd (withRetry fn taskName maxRetries retryDelay w)
        = extend (attempts taskName retryDelay k 1) w
     /\ List.length (List.filter isInvoke (attempts taskName retryDelay k 1)) = k)
  /\ (forall (k : nat) (v : T),
        (1 <= k)%nat -> Z.of_nat k <= maxRetries ->
        (forall j, 1 <= j < Z.of_nat k -> returned (fn j) = false) ->
        fn (Z.of_nat k) = Returned v ->
        withRetry fn taskName maxRetries retryDelay w
        = (Returned v, extend (attempts taskName retryDelay k 1) w))
  /\ (forall e : JsError,
        (forall j, 1 <= j < maxRetries -> returned (fn j) = false) ->
        fn maxRetries = Thrown e ->
        withRetry fn taskName maxRetries retryDelay w
        = (Thrown (Error (taskName ++ " failed after " ++ Z_to_string maxRetries
                          ++ " attempts: " ++ message e)),
           extend (attempts taskName retryDelay (Z.to_nat maxRetries) 1) w)).
Proof.
  intros Hmax. unfold withRetry. repeat split.
  - destruct (withRetry_loop_bounded fn taskName maxRetries retryDelay
                (Z.to_nat maxRetries) 1 w) as (n & Hn & Hw); [lia|lia|].
    exists (S n). repeat split; [lia|lia|exact Hw|apply count_invokes].
  - intros k v Hk Hkmax Hfail Hok.
    destruct k as [|n]; [lia|].
    apply withRetry_loop_succeeds.
    + lia.
    + lia.
    + intros j Hj. apply Hfail. lia.
    + rewrite <- Hok. f_equal. lia.
  - intros e Hfail Hlast.
    destruct (Z.to_nat maxRetries) as [|n] eqn:Hn; [lia|].
    rewrite <- Hn at 1.
    apply withRetry_loop_exhausts; try assumption; lia.
Qed.

(** Two failures, then success, with three attempts allowed: the value is
    returned after pauses of one and two base delays. *)
Lemma withRetry_contract_witness :
  withRetry thirdTimeLucky "Sell tokens for MOON" 3 5000 (Scheduler.processStart None)
  = (Returned "0xhash"%string,
     extend [Invoke "Sell tokens for MOON" 1; Sleep 5000;
             Invoke "Sell tokens for MOON" 2; Sleep 10000;
             Invoke "Sell tokens for MOON" 3] (Scheduler.processStart None)).
Proof.
  apply (proj1 (proj2 (withRetry_contract thirdTimeLucky "Sell tokens for MOON"
                         3 5000 (Scheduler.processStart None) ltac:(lia)))
           3%nat "0xhash"%string).
  - lia.
  - lia.
  - intros j Hj. unfold thirdTimeLucky.
    destruct (Z.ltb_spec j 3); [reflexivity|lia].
  - reflexivity.
Defined.

(** An operation that always fails, with three attempts allowed: three
    calls, two pauses, and the last message kept. *)
Example withRetry_always_failing :
  withRetry (fun _ => @Thrown string (Error "Token sell reverted"))
    "Sell tokens for MOON" 3 5000 (Scheduler.processStart None)
  = (Thrown (Error "Sell tokens for MOON failed after 3 attempts: Token sell reverted"),
     extend [Invoke "Sell tokens for MOON" 1; Sleep 5000;
             Invoke "Sell tokens for MOON" 2; Sleep 10000;
             Invoke "Sell tokens for MOON" 3] (Scheduler.processStart None)).
Proof. reflexivity. Qed.

(** With no attempt allowed the operation is never called. *)
Example withRetry_no_attempt (w : World) :
  withRetry thirdTimeLucky "Sell tokens for MOON" 0 5000 w
  = (Thrown (Error "Sell tokens for MOON failed after 0 attempts"), w).
Proof. reflexivity. Qed.

End Retry.

(** ** The job workflow *)

Section Workflow.
Import Storage TokenCreator.

Lemma withRetry_trace {T : Type} (fn : Z -> Completion T) (taskName : string)
    (maxRetries retryDelay : Z) (w : World) :
  exists n : nat,
    snd (withRetry fn taskName maxRetries retryDelay w)
    = extend (attempts taskName retryDelay n 1) w.
Proof.
  destruct (Z_lt_le_dec maxRetries 1) as [Hlt|Hge].
  - exists 0%nat. unfold withRetry.
    replace (Z.to_nat maxRetries) with 0%nat by lia.
    simpl. now rewrite extend_nil.
  - destruct (withRetry_loop_bounded fn taskName maxRetries retryDelay
                (Z.to_nat maxRetries) 1 w) as (n & _ & Hn); [lia|lia|].
    now exists (S n).
Qed.

Lemma sellStep_trace (config : BotConfig) (chain : Chain) (wallet : WalletInstance)
    (md : PreparedToken) (tokenAddress : string) (tokensReceived : Z) (w : World) :
  exists n : nat,
    snd (sellStep config chain wallet md tokenAddress tokensReceived w)
    = extend (attempts ("Sell tokens for " ++ symbol md) (retryDelayMs config) n 1) w
    /\ (sellPercentage config <= 0 ->
        n = 0%nat
        /\ fst (sellStep config chain wallet md tokenAddress tokensReceived w)
           = Returned tt).
Proof.
  unfold sellStep. destruct (Z.ltb_spec 0 (sellPercentage config)) as [Hpos|Hle].
  - destruct (withRetry_trace
                (sellTokens chain wallet tokenAddress
                   (Z.quot (tokensReceived * sellPercentage config) 100))
                ("Sell tokens for " ++ symbol md)
                (maxRetries config) (retryDelayMs config) w) as (n & Hn).
    exists n. split; [|lia].
    destruct (withRetry _ _ _ _ w) as [[v|e] w']; exact Hn.
  - exists 0%nat. simpl. rewrite extend_nil. auto.
Qed.

Lemma afterUpdate_commit (config : BotConfig) (chain : Chain) (wallet : WalletInstance)
    (md : PreparedToken) (tokenAddress : string) (tokensReceived : Z)
    (w : World) (woken : option nat) :
  afterUpdate config chain wallet md tokenAddress tokensReceived
    (Finished (Returned tt) w woken)
  = Ended (fst (sellStep config chain wallet md tokenAddress tokensReceived w))
          (snd (sellStep config chain wallet md tokenAddress tokensReceived w)).
Proof. unfold afterUpdate. now destruct (sellStep _ _ _ _ _ _ w). Qed.

(** In such a run the only new write is the one of the record, and every
    call of the sale comes after it. *)
Lemma persistedThenSold_one_write (config : BotConfig) (md : PreparedToken)
    (state' : BotState) (before : list Event) (c : Completion unit) (w' : World) :
  persistedThenSold config md state' before c w' ->
  List.filter isWriteState (log w')
  = List.filter isWriteState before ++ [WriteState state'].
Proof.
  intros (k & _ & Hlog & _). rewrite Hlog, !List.filter_app.
  now rewrite no_write_in_attempts.
Qed.

Lemma afterUpdate_granted (config : BotConfig) (chain : Chain) (wallet : WalletInstance)
    (md : PreparedToken) (tokenAddress : string) (tokensReceived : Z)
    (arrivals : list nat) (now1 now2 : Z) (w : World) (state : BotState) :
  loadState w = Returned state ->
  exists c w' state',
    recordCreation tokenAddress md wallet now1 now2 state = Returned state'
    /\ afterUpdate config chain wallet md tokenAddress tokensReceived
         (withLock_granted
            (updateState_body (recordCreation tokenAddress md wallet now1 now2))
            arrivals w)
       = Ended c w'
    /\ persistedThenSold config md state' (log w) c w'.
Proof.
  intros Hload.
  set (updater := recordCreation tokenAddress md wallet now1 now2).
  destruct (updater state) as [state'|] eqn:Hup; [|discriminate].
  rewrite withLock_granted_eq.
  rewrite (updateState_body_commits updater w state state' Hload Hup).
  cbn [fst snd]. rewrite afterUpdate_commit.
  match goal with
  | |- context [sellStep _ _ _ _ _ _ ?w1] =>
      destruct (sellStep_trace config chain wallet md tokenAddress tokensReceived w1)
        as (k & Hk & Hzero)
  end.
  eexists _, _, state'. split; [reflexivity|]. split; [reflexivity|].
  exists k. rewrite Hk. cbn. rewrite <- !app_assoc.
  split; [reflexivity|]. split; [reflexivity|]. exact Hzero.
Qed.

Lemma afterUpdate_unreadable (config : BotConfig) (chain : Chain) (wallet : WalletInstance)
    (md : PreparedToken) (tokenAddress : string) (tokensReceived : Z)
    (arrivals : list nat) (now1 now2 : Z) (w : World) (e : JsError) :
  loadState w = Thrown e ->
  exists w',
    afterUpdate config chain wallet md tokenAddress tokensReceived
      (withLock_granted
         (updateState_body (recordCreation tokenAddress md wallet now1 now2))
         arrivals w)
    = Ended (Thrown e) w'
    /\ stateFile w' = stateFile w /\ log w' = log w.
Proof.
  intros Hload. rewrite withLock_granted_eq.
  unfold updateState_body. rewrite Hload. cbn [fst snd].
  eexists. split; [reflexivity|]. now split.
Qed.

(** C1, as the code has it. The progress record is written right after
    [createToken] has returned and before the sale is attempted.
    - When [createToken] throws, the call ends with that error and nothing
      is written.
    - When it returns and the state lock is held, the call waits; nothing
      is written and no sale is attempted yet.
    - When it returns, the lock is free and the state file loads, the call
      always ends; the log then shows the creation, the write of the record
      with the new job, and only after it the attempts of the sale (none
      when the sell percentage is not positive); the state file holds the
      new record whether the sale succeeded or not.
    - When the state file does not load, the call ends with that error,
      nothing is written and no sale is attempted.
    - A call that waited goes on in the same way once it is handed the
      lock: first the write, then the sale; and when the state file does
      not load by then, it ends with that error, nothing is written and
      no sale is attempted. *)
Theorem executeTokenCreation_persists_after_create
    (config : BotConfig) (chain : Chain) (caller : nat) (arrivals : list nat)
    (now1 now2 : Z) (wallet : WalletInstance) (md : PreparedToken) (w : World) :
  let created := CreateToken (index wallet) (symbol md) in
  (forall e, createToken chain wallet md = Thrown e ->
     executeTokenCreation config chain caller arrivals now1 now2 wallet md w
     = Ended (Thrown e) (extend [created] w))
  /\ (forall tokenAddress tokensReceived,
        createToken chain wallet md = Returned (tokenAddress, tokensReceived) ->
        StateLockManager.locked (stateLock w) = true ->
        exists w',
          executeTokenCreation config chain caller arrivals now1 now2 wallet md w
          = Waiting tokenAddress tokensReceived w'
          /\ stateFile w' = stateFile w /\ log w' = log w ++ [created])
  /\ (forall tokenAddress tokensReceived state,
        createToken chain wallet md = Returned (tokenAddress, tokensReceived) ->
        StateLockManager.locked (stateLock w) = false ->
        loadState w = Returned state ->
        exists c w' state',
          recordCreation tokenAddress md wallet now1 now2 state = Returned state'
          /\ executeTokenCreation config chain caller arrivals now1 now2 wallet md w
             = Ended c w'
          /\ persistedThenSold config md state' (log w ++ [created]) c w')
  /\ (forall tokenAddress tokensReceived e,
        createToken chain wallet md = Returned (tokenAddress, tokensReceived) ->
        StateLockManager.locked (stateLock w) = false ->
        loadState w = Thrown e ->
        exists w',
          executeTokenCreation config chain caller arrivals now1 now2 wallet md w
          = Ended (Thrown e) w'
          /\ stateFile w' = stateFile w /\ log w' = log w ++ [created])
  /\ (forall tokenAddress tokensReceived state,
        StateLockManager.locked (stateLock w) = true ->
        loadState w = Returned state ->
        exists c w' state',
          recordCreation tokenAddress md wallet now1 now2 state = Returned state'
          /\ executeTokenCreation_resumed config chain arrivals now1 now2 wallet md
               tokenAddress tokensReceived w
             = Ended c w'
          /\ persistedThenSold config md state' (log w) c w')
  /\ (forall tokenAddress tokensReceived e,
        StateLockManager.locked (stateLock w) = true ->
        loadState w = Thrown e ->
        exists w',
          executeTokenCreation_resumed config chain arrivals now1 now2 wallet md
            tokenAddress tokensReceived w
          = Ended (Thrown e) w'
          /\ stateFile w' = stateFile w /\ log w' = log w).
Proof.
  intros created.
  split; [|split; [|split; [|split; [|split]]]].
  - intros e He. unfold executeTokenCreation. now rewrite He.
  - intros tokenAddress tokensReceived Hcreate Hheld.
    unfold executeTokenCreation. rewrite Hcreate. unfold updateState.
    rewrite withLock_held by exact Hheld.
    eexists. split; [reflexivity|]. now split.
  - intros tokenAddress tokensReceived state Hcreate Hfree Hload.
    unfold executeTokenCreation. rewrite Hcreate. unfold updateState.
    rewrite withLock_free by exact Hfree.
    apply afterUpdate_granted. exact Hload.
  - intros tokenAddress tokensReceived e Hcreate Hfree Hload.
    unfold executeTokenCreation. rewrite Hcreate. unfold updateState.
    rewrite withLock_free by exact Hfree.
    apply afterUpdate_unreadable. exact Hload.
  - intros tokenAddress tokensReceived state Hheld Hload.
    unfold executeTokenCreation_resumed, updateState_resumed.
    apply afterUpdate_granted. exact Hload.
  - intros tokenAddress tokensReceived e Hheld Hload.
    unfold executeTokenCreation_resumed, updateState_resumed.
    apply afterUpdate_unreadable. exact Hload.
Qed.

(** A first job on a chain where every sale reverts: the record with the
    job is on disk and the write precedes the three attempts. *)
Lemma executeTokenCreation_persists_after_create_witness :
  exists c w' state',
    executeTokenCreation (fiveTokens sequential) sellReverts 0 [] 2000 2001 wallet1 moon
      (Scheduler.processStart None)
    = Ended c w'
    /\ tokensCreated state' = 1
    /\ persistedThenSold (fiveTokens sequential) moon state' [CreateToken 1 "MOON"] c w'.
Proof.
  destruct (executeTokenCreation_persists_after_create (fiveTokens sequential)
              sellReverts 0 [] 2000 2001 wallet1 moon (Scheduler.processStart None))
    as (_ & _ & Hgo & _).
  destruct (Hgo "0xT0"%string 1000 emptyState eq_refl eq_refl eq_refl)
    as (c & w' & state' & Hup & Hrun & Hlog).
  exists c, w', state'. split; [exact Hrun|]. split; [|exact Hlog].
  injection Hup as <-. reflexivity.
Defined.

(** The claim as it was written fails: the sale reverts on each of its
    three attempts, the call ends with the retry error, and the progress
    record with the new job is on disk all the same, written before the
    first attempt of the sale. *)
Lemma update_waits_for_sale_counterexample :
  executeTokenCreation (fiveTokens sequential) sellReverts 0 [] 2000 2001 wallet1 moon
    (Scheduler.processStart None)
  = let record :=
      {| tokensCreated := 1; startTime := None; lastCreatedAt := Some 2000;
         createdTokens := [ {| tokenAddress := "0xT0"; metadata := moon;
                               createdAt := 2001; walletIndex := 1 |} ] |} in
    Ended
      (Thrown (Error "Sell tokens for MOON failed after 3 attempts: Token sell reverted"))
      {| stateFile := Some (Json record);
         stateLock := StateLockManager.create;
         log := [CreateToken 1 "MOON"; WriteState record;
                 Invoke "Sell tokens for MOON" 1; Sleep 5000;
                 Invoke "Sell tokens for MOON" 2; Sleep 10000;
                 Invoke "Sell tokens for MOON" 3] |}.
Proof. reflexivity. Qed.

End Workflow.

(** ** The task generator *)

Section Sorting.
Context {A : Type} (leb : A -> A -> bool).

Lemma insert_by_perm (x : A) (l : list A) : Permutation (insert_by leb x l) (x :: l).
Proof.
  induction l as [|y l IH]; simpl; [reflexivity|].
  destruct (leb x y); [reflexivity|].
  rewrite IH. apply perm_swap.
Qed.

Lemma sort_by_perm (l : list A) : Permutation (sort_by leb l) l.
Proof.
  induction l as [|x l IH]; simpl; [reflexivity|].
  rewrite insert_by_perm. now rewrite IH.
Qed.

Lemma sort_by_length (l : list A) : List.length (sort_by leb l) = List.length l.
Proof. apply Permutation_length, sort_by_perm. Qed.

Lemma sort_by_Forall (P : A -> Prop) (l : list A) :
  Forall P l -> Forall P (sort_by leb l).
Proof. intros H. eapply Permutation_Forall; [symmetry; apply sort_by_perm|exact H]. Qed.

Context (le : A -> A -> Prop).
Hypothesis leb_le : forall x y, leb x y = true -> le x y.
Hypothesis leb_total : forall x y, leb x y = false -> le y x.

Lemma insert_by_sorted (x : A) (l : list A) :
  Sorted le l -> Sorted le (insert_by leb x l).
Proof.
  induction l as [|y l IH]; intros Hs; simpl.
  - repeat constructor.
  - destruct (leb x y) eqn:Hxy.
    + constructor; [exact Hs|]. constructor. now apply leb_le.
    + inversion Hs as [|? ? Hs' Hhd]; subst.
      constructor; [now apply IH|].
      destruct l as [|z l]; simpl.
      * constructor. now apply leb_total.
      * destruct (leb x z); constructor.
        -- now apply leb_total.
        -- now inversion Hhd.
Qed.

Lemma sort_by_sorted (l : list A) : Sorted le (sort_by leb l).
Proof.
  induction l as [|x l IH]; simpl; [constructor|]. now apply insert_by_sorted.
Qed.

End Sorting.

Lemma Qle_bool_false (x y : Q) : Qle_bool x y = false -> (y <= x)%Q.
Proof.
  intros H. destruct (Qlt_le_dec y x) as [Hlt|Hle].
  - now apply Qlt_le_weak.
  - apply Qle_bool_iff in Hle. congruence.
Qed.

Lemma countFrom_length (n : nat) (i : Z) : List.length (countFrom n i) = n.
Proof. revert i. induction n; intros i; simpl; auto. Qed.

Lemma countFrom_range (n : nat) (i k : Z) :
  In k (countFrom n i) -> i <= k < i + Z.of_nat n.
Proof.
  revert i. induction n as [|n IH]; intros i; simpl; [tauto|].
  intros [<-|Hin]; [lia|]. apply IH in Hin. lia.
Qed.

Lemma js_rem_round_robin (i numWallets : Z) :
  0 <= i -> 1 <= numWallets ->
  js_rem i numWallets = Some (i mod numWallets)
  /\ 0 <= i mod numWallets < numWallets.
Proof.
  intros Hi Hn. unfold js_rem.
  destruct (Z.eqb_spec numWallets 0); [lia|].
  rewrite Z.rem_mod_nonneg by lia. split; [reflexivity|].
  apply Z.mod_pos_bound. lia.
Qed.

Section Generator.
Import Scheduler.

Lemma drawTimes_spec (durationMs : Q) (n : nat) :
  forall s : RandomSource,
    fst (drawTimes n durationMs s)
    = List.map (fun k => (draws s (cursor s + k) * durationMs)%Q) (seq 0 n)
    /\ snd (drawTimes n durationMs s)
       = {| draws := draws s; cursor := (cursor s + n)%nat |}.
Proof.
  induction n as [|n IH]; intros s; simpl.
  - rewrite Nat.add_0_r. now destruct s.
  - destruct (IH {| draws := draws s; cursor := S (cursor s) |}) as [Hf Hs].
    destruct (drawTimes n durationMs _) as [rest s2]; simpl in *. subst.
    split.
    + rewrite Nat.add_0_r. f_equal.
      rewrite <- seq_shift, List.map_map.
      apply List.map_ext. intros k. now rewrite Nat.add_succ_r.
    + f_equal. lia.
Qed.

Lemma drawTimes_inWindow (durationMs : Q) (n : nat) (s : RandomSource) :
  fair s -> (0 < durationMs)%Q ->
  Forall (inWindow durationMs) (fst (drawTimes n durationMs s)).
Proof.
  intros Hfair Hd. rewrite (proj1 (drawTimes_spec durationMs n s)).
  apply List.Forall_forall. intros t Hin. apply List.in_map_iff in Hin.
  destruct Hin as (k & <- & _). destruct (Hfair (cursor s + k)%nat) as [H0 H1].
  unfold inWindow. split; nra.
Qed.

Lemma timeAt_countFrom (pre l : list Q) :
  List.map (timeAt (pre ++ l)) (countFrom (List.length l) (Z.of_nat (List.length pre))) = l.
Proof.
  revert pre. induction l as [|x l IH]; intros pre; simpl; [reflexivity|].
  f_equal.
  - unfold timeAt, at_index.
    destruct (Z.ltb_spec (Z.of_nat (List.length pre)) 0); [lia|].
    rewrite Nat2Z.id. rewrite list_lookup_middle; reflexivity.
  - specialize (IH (pre ++ [x])). rewrite <- app_assoc in IH. simpl in IH.
    rewrite length_app in IH. simpl in IH.
    replace (Z.of_nat (List.length pre) + 1) with (Z.of_nat (List.length pre + 1)) by lia.
    exact IH.
Qed.


Lemma randomMetadata_draws (md : list PreparedToken) (s : RandomSource) :
  draws (snd (randomMetadata md s)) = draws s.
Proof. reflexivity. Qed.

Lemma randomMetadata_empty (s : RandomSource) : fst (randomMetadata [] s) = None.
Proof.
  unfold randomMetadata, at_index; cbn [Math_random fst].
  destruct (_ <? 0); [reflexivity|]. apply lookup_nil.
Qed.

(** A draw in [[0, 1)] picks an element of a pool that is not empty. *)
Lemma randomMetadata_in_pool (md : list PreparedToken) (s : RandomSource) :
  fair s -> md <> [] ->
  exists m, fst (randomMetadata md s) = Some m /\ In m md.
Proof.
  intros Hfair Hmd. unfold randomMetadata; cbn [Math_random fst].
  destruct (Hfair (cursor s)) as [H0 H1].
  set (r := draws s (cursor s)) in *.
  set (len := Z.of_nat (List.length md)).
  assert (Hlen : 0 < len) by (destruct md; [congruence|subst len; simpl; lia]).
  assert (Hq : (inject_Z 0 < inject_Z len)%Q) by (rewrite <- Zlt_Qlt; exact Hlen).
  change (inject_Z 0) with 0%Q in Hq.
  assert (Hlo : 0 <= Qfloor (r * inject_Z len)).
  { change 0 with (Qfloor 0). apply Qfloor_resp_le. nra. }
  assert (Hhi : Qfloor (r * inject_Z len) < len).
  { rewrite Zlt_Qlt. eapply Qle_lt_trans; [apply Qfloor_le|]. nra. }
  unfold at_index. destruct (Z.ltb_spec (Qfloor (r * inject_Z len)) 0); [lia|].
  destruct (md !! Z.to_nat (Qfloor (r * inject_Z len))) as [m|] eqn:Hm.
  - exists m. split; [reflexivity|].
    apply list_elem_of_In, list_elem_of_lookup. eauto.
  - apply lookup_ge_None in Hm. subst len. lia.
Qed.

Lemma jobDrawn_weaken (md : list PreparedToken) (s s1 : RandomSource) (t : TokenTask) :
  draws s1 = draws s -> jobDrawn md s1 t -> jobDrawn md s t.
Proof. intros Hs (s' & Hd & Hm). exists s'. split; [congruence|exact Hm]. Qed.

Lemma parallelLoop_jobs (numWallets : Z) (md : list PreparedToken) (startTime : Z)
    (randomTimes : list Q) (fuel : nat) :
  forall (i : Z) (s : RandomSource),
    Forall (jobDrawn md s)
      (fst (parallelLoop fuel i numWallets md startTime randomTimes s)).
Proof.
  induction fuel as [|fuel IH]; intros i s; cbn [parallelLoop].
  - constructor.
  - pose proof (randomMetadata_draws md s) as Hs1.
    destruct (randomMetadata md s) as [m s1] eqn:Hrm. cbn [snd] in Hs1.
    specialize (IH (i + 1) s1).
    destruct (parallelLoop fuel (i + 1) numWallets md startTime randomTimes s1)
      as [rest s2]. cbn [fst] in *.
    constructor.
    + exists s. split; [reflexivity|]. now rewrite Hrm.
    + eapply Forall_impl; [exact IH|]. intros t. now apply jobDrawn_weaken.
Qed.

Lemma sequentialLoop_jobs (config : BotConfig) (averageDelay : Q) (numWallets : Z)
    (md : list PreparedToken) (startTime : Z) (fuel : nat) :
  forall (i : Z) (s : RandomSource),
    Forall (jobDrawn md s)
      (fst (sequentialLoop config fuel i averageDelay numWallets md startTime s)).
Proof.
  induction fuel as [|fuel IH]; intros i s; cbn [sequentialLoop].
  - constructor.
  - assert (Hs0 : draws (snd (if Qgtb (delayRandomness config) 0
                              then getRandomDelay (inject_Z i * averageDelay)
                                     (delayRandomness config) s
                              else ((inject_Z i * averageDelay)%Q, s))) = draws s)
      by (destruct (Qgtb _ _); reflexivity).
    destruct (if Qgtb (delayRandomness config) 0
              then getRandomDelay (inject_Z i * averageDelay) (delayRandomness config) s
              else ((inject_Z i * averageDelay)%Q, s)) as [delay s0].
    cbn [snd] in Hs0.
    pose proof (randomMetadata_draws md s0) as Hs1.
    destruct (randomMetadata md s0) as [m s1] eqn:Hrm. cbn [snd] in Hs1.
    specialize (IH (i + 1) s1).
    destruct (sequentialLoop config fuel (i + 1) averageDelay numWallets md startTime s1)
      as [rest s2]. cbn [fst] in *.
    constructor.
    + exists s0. split; [exact Hs0|]. now rewrite Hrm.
    + eapply Forall_impl; [exact IH|]. intros t. apply jobDrawn_weaken. congruence.
Qed.

Lemma generateTasks_jobs (config : BotConfig) (totalTokens : Z) (durationMs : Q)
    (numWallets : Z) (md : list PreparedToken) (startTime : Z) (s : RandomSource) :
  Forall (jobDrawn md s)
    (fst (generateTasks config totalTokens durationMs numWallets md startTime s)).
Proof.
  unfold generateTasks. destruct (executionMode config).
  - apply sequentialLoop_jobs.
  - pose proof (proj2 (drawTimes_spec durationMs (Z.to_nat totalTokens) s)) as Hs1.
    destruct (drawTimes (Z.to_nat totalTokens) durationMs s) as [randomTimes s1].
    cbn [snd] in Hs1.
    eapply Forall_impl; [apply parallelLoop_jobs|].
    intros t. apply jobDrawn_weaken. now rewrite Hs1.
Qed.

Lemma jobDrawn_empty (s : RandomSource) (t : TokenTask) :
  jobDrawn [] s t -> metadata t = None.
Proof. intros (s' & _ & ->). apply randomMetadata_empty. Qed.

Lemma jobDrawn_in_pool (md : list PreparedToken) (s : RandomSource) (t : TokenTask) :
  fair s -> md <> [] -> jobDrawn md s t ->
  exists m, metadata t = Some m /\ In m md.
Proof.
  intros Hfair Hmd (s' & Hd & ->). apply randomMetadata_in_pool; [|exact Hmd].
  intros n. rewrite Hd. apply Hfair.
Qed.

Lemma parallelLoop_spec (numWallets : Z) (md : list PreparedToken) (startTime : Z)
    (randomTimes : list Q) (fuel : nat) :
  forall (i : Z) (s : RandomSource),
    let tasks := fst (parallelLoop fuel i numWallets md startTime randomTimes s) in
    List.map tokenIndex tasks = countFrom fuel i
    /\ List.map delayMs tasks = List.map (timeAt randomTimes) (countFrom fuel i)
    /\ Forall (roundRobin numWallets startTime) tasks.
Proof.
  induction fuel as [|fuel IH]; intros i s; cbn [parallelLoop].
  - repeat split; constructor.
  - destruct (randomMetadata md s) as [m s1].
    specialize (IH (i + 1) s1).
    destruct (parallelLoop fuel (i + 1) numWallets md startTime randomTimes s1)
      as [rest s2]. cbn [fst countFrom List.map tokenIndex delayMs] in *.
    destruct IH as (Hi & Hd & Hr).
    split; [now rewrite Hi|]. split; [now rewrite Hd|].
    constructor; [|exact Hr]. now split.
Qed.

Lemma sequentialLoop_spec (config : BotConfig) (averageDelay : Q) (numWallets : Z)
    (md : list PreparedToken) (startTime : Z) (fuel : nat) :
  forall (i : Z) (s : RandomSource),
    let tasks :=
      fst (sequentialLoop config fuel i averageDelay numWallets md startTime s) in
    List.map tokenIndex tasks = countFrom fuel i
    /\ Forall (roundRobin numWallets startTime) tasks.
Proof.
  induction fuel as [|fuel IH]; intros i s; cbn [sequentialLoop].
  - repeat split; constructor.
  - destruct (if Qgtb (delayRandomness config) 0
              then getRandomDelay (inject_Z i * averageDelay) (delayRandomness config) s
              else ((inject_Z i * averageDelay)%Q, s)) as [delay s0].
    destruct (randomMetadata md s0) as [m s1].
    specialize (IH (i + 1) s1).
    destruct (sequentialLoop config fuel (i + 1) averageDelay numWallets md startTime s1)
      as [rest s2]. cbn [fst countFrom List.map tokenIndex] in *.
    destruct IH as (Hi & Hr).
    split; [now rewrite Hi|].
    constructor; [|exact Hr]. now split.
Qed.

(** In both modes the generator returns one task per round of its loop,
    numbered from 0 in the order of the list, each with the round-robin
    wallet and a scheduled time of anchor plus offset. *)
Lemma generateTasks_spec (config : BotConfig) (totalTokens : Z) (durationMs : Q)
    (numWallets : Z) (md : list PreparedToken) (startTime : Z) (s : RandomSource) :
  let tasks :=
    fst (generateTasks config totalTokens durationMs numWallets md startTime s) in
  List.map tokenIndex tasks = countFrom (Z.to_nat totalTokens) 0
  /\ List.length tasks = Z.to_nat totalTokens
  /\ Forall (roundRobin numWallets startTime) tasks.
Proof.
  unfold generateTasks.
  assert (Hlen : forall tasks : list TokenTask,
             List.map tokenIndex tasks = countFrom (Z.to_nat totalTokens) 0 ->
             List.length tasks = Z.to_nat totalTokens).
  { intros tasks H. rewrite <- (length_map tokenIndex), H. apply countFrom_length. }
  destruct (executionMode config).
  - destruct (sequentialLoop_spec config (durationMs / inject_Z totalTokens)
                numWallets md startTime (Z.to_nat totalTokens) 0 s) as (Hi & Hr).
    auto.
  - destruct (drawTimes (Z.to_nat totalTokens) durationMs s) as [randomTimes s1].
    destruct (parallelLoop_spec numWallets md startTime
                (sort_by Qle_bool randomTimes) (Z.to_nat totalTokens) 0 s1)
      as (Hi & _ & Hr).
    auto.
Qed.

End Generator.

Section GeneratorClaims.
Import Scheduler.

(** With a pool of at least one wallet, every task has the wallet that its
    sequence index selects round-robin. *)
Lemma generateTasks_wallets (config : BotConfig) (totalTokens : Z)
    (durationMs : Q) (numWallets : Z) (md : list PreparedToken) (startTime : Z)
    (s : RandomSource) :
  1 <= numWallets ->
  Forall (fun t =>
            walletIndex t = Some (tokenIndex t mod numWallets)
            /\ 0 <= tokenIndex t mod numWallets < numWallets)
    (fst (generateTasks config totalTokens durationMs numWallets md startTime s)).
Proof.
  intros Hw.
  destruct (generateTasks_spec config totalTokens durationMs numWallets md startTime s)
    as (Hidx & _ & Hrr).
  apply List.Forall_forall. intros t Hin.
  assert (Hrange : 0 <= tokenIndex t).
  { apply (List.in_map tokenIndex) in Hin. rewrite Hidx in Hin.
    apply countFrom_range in Hin. lia. }
  pose proof (proj1 (List.Forall_forall _ _) Hrr t Hin) as [Hwi _].
  destruct (js_rem_round_robin (tokenIndex t) numWallets Hrange Hw) as [Hrem Hbound].
  split; [congruence|exact Hbound].
Qed.

(** C8. For [totalTokens >= 1] and [numWallets >= 1], whatever the job
    pool and in both modes, the generator returns exactly [totalTokens]
    tasks; they carry the sequence indices 0, 1, 2, ... in the order of the
    list, and the wallet index of each is its sequence index modulo
    [numWallets], a number from 0 up to [numWallets - 1]. *)
Theorem generateTasks_round_robin (config : BotConfig) (totalTokens : Z)
    (durationMs : Q) (numWallets : Z) (md : list PreparedToken) (startTime : Z)
    (s : RandomSource) :
  1 <= totalTokens -> 1 <= numWallets ->
  let tasks :=
    fst (generateTasks config totalTokens durationMs numWallets md startTime s) in
  Z.of_nat (List.length tasks) = totalTokens
  /\ List.map tokenIndex tasks = countFrom (Z.to_nat totalTokens) 0
  /\ Forall (fun t =>
               walletIndex t = Some (tokenIndex t mod numWallets)
               /\ 0 <= tokenIndex t mod numWallets < numWallets) tasks.
Proof.
  intros Hn Hw tasks.
  destruct (generateTasks_spec config totalTokens durationMs numWallets md startTime s)
    as (Hidx & Hlen & Hrr).
  fold tasks in Hidx, Hlen, Hrr.
  split; [lia|]. split; [exact Hidx|].
  now apply generateTasks_wallets.
Qed.

(** Seven tasks on three wallets. *)
Lemma generateTasks_round_robin_witness :
  List.map walletIndex
    (fst (generateTasks (fiveTokens parallel) 7 3600000 3 [moon] 900
            (constantSource (1 # 3))))
  = [Some 0; Some 1; Some 2; Some 0; Some 1; Some 2; Some 0].
Proof.
  pose proof (generateTasks_round_robin (fiveTokens parallel) 7 3600000 3 [moon] 900
                (constantSource (1 # 3)) ltac:(lia) ltac:(lia)) as (_ & Hidx & Hw).
  set (tasks := fst (generateTasks (fiveTokens parallel) 7 3600000 3 [moon] 900
                       (constantSource (1 # 3)))) in *.
  assert (Hmap : List.map walletIndex tasks
                 = List.map (fun i => Some (i mod 3)) (List.map tokenIndex tasks)).
  { rewrite List.map_map. apply List.map_ext_in. intros t Hin.
    exact (proj1 (proj1 (List.Forall_forall _ _) Hw t Hin)). }
  rewrite Hmap, Hidx. reflexivity.
Defined.

(** C7, for the generator that draws each offset with
    [Math.random() * durationMs]. In parallel mode, with a positive duration
    and draws in [[0, 1)], the exact product of the draw and the duration,
    which is the offset of a task here, lies in [[0, durationMs)], and the
    exact sum of the start time and the offset lies in
    [[startTime, startTime + durationMs]]. The source rounds the product
    and the sum to doubles, and an end of a window can be reached by that
    rounding: under every rounding that keeps the order and leaves [0] and
    the duration as they are, the rounded offset lies in
    [[0, durationMs]], and the sum of the start time and the rounded
    offset, rounded, lies between the rounded start time and the rounded
    end of the window. The offsets of the tasks, in the order of the list,
    are the first [totalTokens] draws scaled by the duration and sorted in
    ascending order. *)
Theorem parallel_offsets_inWindow (config : BotConfig) (totalTokens : Z)
    (durationMs : Q) (numWallets : Z) (md : list PreparedToken) (startTime : Z)
    (s : RandomSource) :
  executionMode config = parallel ->
  (0 < durationMs)%Q ->
  fair s ->
  let tasks :=
    fst (generateTasks config totalTokens durationMs numWallets md startTime s) in
  let drawn :=
    List.map (fun k => (draws s (cursor s + k) * durationMs)%Q)
      (seq 0 (Z.to_nat totalTokens)) in
  Forall (fun t =>
            inWindow durationMs (delayMs t)
            /\ scheduledTime t = (inject_Z startTime + delayMs t)%Q
            /\ (inject_Z startTime <= scheduledTime t)%Q
            /\ (scheduledTime t <= inject_Z startTime + durationMs)%Q) tasks
  /\ (forall fl : Q -> Q,
        rounding fl -> (fl durationMs == durationMs)%Q ->
        Forall (fun t =>
                  (0 <= fl (delayMs t))%Q
                  /\ (fl (delayMs t) <= durationMs)%Q
                  /\ (fl (inject_Z startTime)
                      <= fl (inject_Z startTime + fl (delayMs t)))%Q
                  /\ (fl (inject_Z startTime + fl (delayMs t))
                      <= fl (inject_Z startTime + durationMs))%Q) tasks)
  /\ List.map delayMs tasks = sort_by Qle_bool drawn
  /\ Permutation (List.map delayMs tasks) drawn
  /\ Sorted Qle (List.map delayMs tasks).
Proof.
  intros Hmode Hd Hfair tasks drawn.
  assert (Hdelays : List.map delayMs tasks = sort_by Qle_bool drawn).
  { subst tasks drawn. unfold generateTasks. rewrite Hmode.
    rewrite <- (proj1 (drawTimes_spec durationMs (Z.to_nat totalTokens) s)).
    pose proof (drawTimes_spec durationMs (Z.to_nat totalTokens) s) as [Hf _].
    destruct (drawTimes (Z.to_nat totalTokens) durationMs s) as [randomTimes s1].
    cbn [fst] in *.
    destruct (parallelLoop_spec numWallets md startTime
                (sort_by Qle_bool randomTimes) (Z.to_nat totalTokens) 0 s1)
      as (_ & Hdl & _).
    rewrite Hdl.
    replace (Z.to_nat totalTokens)
      with (List.length (sort_by Qle_bool randomTimes)).
    - apply (timeAt_countFrom [] (sort_by Qle_bool randomTimes)).
    - rewrite sort_by_length, Hf, length_map. apply length_seq. }
  assert (Hwin : Forall (inWindow durationMs) (List.map delayMs tasks)).
  { rewrite Hdelays. apply sort_by_Forall. subst drawn.
    rewrite <- (proj1 (drawTimes_spec durationMs (Z.to_nat totalTokens) s)).
    now apply drawTimes_inWindow. }
  destruct (generateTasks_spec config totalTokens durationMs numWallets md startTime s)
    as (_ & _ & Hrr).
  fold tasks in Hrr.
  split; [|split; [|split; [exact Hdelays|split]]].
  - apply List.Forall_forall. intros t Hin.
    pose proof (proj1 (List.Forall_forall _ _) Hrr t Hin) as [_ Hsched].
    pose proof (proj1 (List.Forall_forall _ _) Hwin (delayMs t)
                  (List.in_map delayMs _ _ Hin)) as [H0 H1].
    split; [now split|]. split; [exact Hsched|].
    rewrite Hsched. split; lra.
  - intros fl [Hmono Hzero] Hfix.
    apply List.Forall_forall. intros t Hin.
    pose proof (proj1 (List.Forall_forall _ _) Hwin (delayMs t)
                  (List.in_map delayMs _ _ Hin)) as [H0 H1].
    pose proof (Hmono _ _ H0) as Hlo.
    pose proof (Hmono _ _ (Qlt_le_weak _ _ H1)) as Hhi.
    split; [lra|]. split; [lra|]. split; apply Hmono; lra.
  - rewrite Hdelays. apply sort_by_perm.
  - rewrite Hdelays.
    apply (sort_by_sorted Qle_bool Qle).
    + intros x y. apply Qle_bool_iff.
    + apply Qle_bool_false.
Qed.

Lemma fair_constantSource (r : Q) :
  (0 <= r)%Q -> (r < 1)%Q -> fair (constantSource r).
Proof. intros H0 H1 n. now split. Qed.

Lemma rounding_floor : rounding (fun x => inject_Z (Qfloor x)).
Proof.
  split.
  - intros x y Hxy. rewrite <- Zle_Qle. now apply Qfloor_resp_le.
  - reflexivity.
Qed.

(** Three offsets over an hour, each draw one third; the rounding of the
    second part is the one to whole milliseconds. *)
Lemma parallel_offsets_inWindow_witness :
  Forall (fun t => inWindow 3600000 (delayMs t)
                   /\ (scheduledTime t <= inject_Z 900 + 3600000)%Q
                   /\ (inject_Z (Qfloor (inject_Z 900
                                         + inject_Z (Qfloor (delayMs t))))
                       <= inject_Z (Qfloor (inject_Z 900 + 3600000)))%Q)
    (fst (generateTasks (fiveTokens parallel) 3 3600000 2 [moon] 900
            (constantSource (1 # 3)))).
Proof.
  assert (Hfair : fair (constantSource (1 # 3))).
  { apply fair_constantSource; [discriminate|reflexivity]. }
  pose proof (parallel_offsets_inWindow (fiveTokens parallel) 3 3600000 2 [moon] 900
                (constantSource (1 # 3)) eq_refl eq_refl Hfair) as (Hall & Hfl & _).
  specialize (Hfl (fun x => inject_Z (Qfloor x)) rounding_floor eq_refl).
  apply List.Forall_forall. intros t Hin.
  pose proof (proj1 (List.Forall_forall _ _) Hall t Hin) as (Hw & _ & _ & Hup).
  pose proof (proj1 (List.Forall_forall _ _) Hfl t Hin) as (_ & _ & _ & Hup').
  split; [exact Hw|]. split; [exact Hup|exact Hup'].
Defined.

(** The claim fails for the generator that adds up jittered delays: with
    two tasks over an hour, a jitter of one half and every draw at nine
    tenths, the offsets are 2 520 000 ms and 5 040 000 ms, and the second
    lies beyond the hour (3 600 000 ms). *)
Lemma cumulative_offsets_counterexample :
  let tasks :=
    fst (CumulativeScheduler.generateTasks (fiveTokens parallel) 2 3600000 2 [moon]
           900 (constantSource (9 # 10))) in
  fair (constantSource (9 # 10))
  /\ List.map delayMs tasks = [inject_Z 2520000; inject_Z 5040000]
  /\ List.map scheduledTime tasks = [inject_Z 2520900; inject_Z 5040900]
  /\ ~ Forall (fun t => inWindow 3600000 (delayMs t)) tasks.
Proof.
  split; [apply fair_constantSource; [discriminate|reflexivity]|].
  split; [vm_compute; reflexivity|]. split; [vm_compute; reflexivity|].
  intros H. apply List.Forall_forall with (x :=
    {| tokenIndex := 1; walletIndex := Some 1; metadata := Some moon;
       delayMs := inject_Z 5040000; scheduledTime := inject_Z 5040900 |}) in H.
  - destruct H as [_ H]. vm_compute in H. discriminate.
  - vm_compute. right. left. reflexivity.
Qed.







End GeneratorClaims.

(** ** The scheduler *)

Section SchedulerClaims.
Import Scheduler.

Lemma generateTasks_nothing (config : BotConfig) (totalTokens : Z) (durationMs : Q)
    (numWallets : Z) (md : list PreparedToken) (startTime : Z) (s : RandomSource) :
  totalTokens <= 0 ->
  generateTasks config totalTokens durationMs numWallets md startTime s = ([], s).
Proof.
  intros Hn. unfold generateTasks.
  replace (Z.to_nat totalTokens) with 0%nat by lia.
  now destruct (executionMode config).
Qed.

(** The state and the world with which the scheduler goes on after the
    block that sets the start time, on a process start. *)
Lemma runScheduler_start (config : BotConfig) (file : option Storage.FileContent)
    (md : list PreparedToken) (now : Z) (caller : nat) (s : RandomSource)
    (state : Storage.BotState) :
  md <> [] ->
  Storage.loadState (processStart file) = Returned state ->
  runScheduler config (Some md) now caller s (processStart file)
  = if startTime_unset state
    then scheduleRemaining config md s (setStartTime now state)
           {| Storage.stateFile := Some (Storage.Json (setStartTime now state));
              Storage.stateLock := Storage.StateLockManager.create;
              Storage.log := [Storage.WriteState (setStartTime now state)] |}
    else scheduleRemaining config md s state (processStart file).
Proof.
  intros Hmd Hload. unfold runScheduler.
  destruct (Z.eqb_spec (Z.of_nat (List.length md)) 0) as [H0|_].
  - destruct md; [congruence|simpl in H0; lia].
  - rewrite Hload. now destruct (startTime_unset state).
Qed.

Lemma scheduleRemaining_dispatch (config : BotConfig) (md : list PreparedToken)
    (s : RandomSource) (state : Storage.BotState) (w : Storage.World) :
  totalTokensToCreate config - Storage.tokensCreated state <> 0 ->
  exists tasks order s',
    scheduleRemaining config md s state w = Dispatched state tasks order w s'
    /\ (tasks, s')
       = generateTasks config (totalTokensToCreate config - Storage.tokensCreated state)
           (durationHours config * 60 * 60 * 1000)%Q (wallets_length config) md
           (startTime_of state) s
    /\ Permutation order tasks.
Proof.
  intros Hrem. unfold scheduleRemaining.
  destruct (Z.eqb_spec (totalTokensToCreate config - Storage.tokensCreated state) 0); [lia|].
  destruct (generateTasks _ _ _ _ _ _ s) as [tasks s'].
  eexists _, _, _. split; [reflexivity|]. split; [reflexivity|].
  destruct (executionMode config); [apply sort_by_perm|reflexivity].
Qed.

(** C2, as the code has it. The generator has no failure path: for every
    input it returns a list of [Z.to_nat totalTokens] tasks, the empty list
    when [totalTokens < 1]; with a pool size of 0 the wallet index of a task
    is [NaN], and with an empty job pool its job is [undefined]; with a
    pool size of at least 1 the wallet index is the round-robin one, and
    with a job pool that is not empty and draws in [[0, 1)] every task has
    a job from the pool. The checks are made by the callers: the
    configuration is rejected when the pool size or the total is below 1,
    and [runScheduler] throws before it generates anything when the job
    pool is empty. *)
Theorem generateTasks_never_fails (config : BotConfig) (totalTokens : Z)
    (durationMs : Q) (poolSize : Z) (md : list PreparedToken) (startTime : Z)
    (s : RandomSource) :
  let tasks :=
    fst (generateTasks config totalTokens durationMs poolSize md startTime s) in
  List.length tasks = Z.to_nat totalTokens
  /\ (totalTokens < 1 -> tasks = [])
  /\ (poolSize = 0 -> Forall (fun t => walletIndex t = None) tasks)
  /\ (1 <= poolSize ->
        Forall (fun t => walletIndex t = Some (tokenIndex t mod poolSize)
                         /\ 0 <= tokenIndex t mod poolSize < poolSize) tasks)
  /\ (md = [] -> Forall (fun t => metadata t = None) tasks)
  /\ (fair s -> md <> [] ->
        Forall (fun t => exists m, metadata t = Some m /\ In m md) tasks)
  /\ (forall (now : Z) (caller : nat) (w : Storage.World),
        runScheduler config (Some []) now caller s w
        = Rejected (Error "No metadata available. Run npm run prepare-metadata to prepare tokens.") w)
  /\ (numWallets config < 1 ->
        validateValues config = Thrown (Error "NUM_WALLETS must be at least 1"))
  /\ (1 <= numWallets config -> totalTokensToCreate config < 1 ->
        validateValues config
        = Thrown (Error "TOTAL_TOKENS_TO_CREATE must be at least 1")).
Proof.
  intros tasks.
  destruct (generateTasks_spec config totalTokens durationMs poolSize md startTime s)
    as (Hidx & Hlen & Hrr).
  fold tasks in Hidx, Hlen, Hrr.
  split; [exact Hlen|]. split.
  { intros Hn. subst tasks. rewrite generateTasks_nothing by lia. reflexivity. }
  split.
  { intros ->. eapply Forall_impl; [exact Hrr|]. intros t [Hw _]. exact Hw. }
  split; [now apply generateTasks_wallets|].
  pose proof (generateTasks_jobs config totalTokens durationMs poolSize md startTime s)
    as Hjobs.
  fold tasks in Hjobs.
  split.
  { intros ->. eapply Forall_impl; [exact Hjobs|]. intros t. apply jobDrawn_empty. }
  split.
  { intros Hfair Hmd. eapply Forall_impl; [exact Hjobs|].
    intros t. now apply jobDrawn_in_pool. }
  split; [reflexivity|]. split.
  - intros Hw. unfold validateValues.
    destruct (Z.ltb_spec (numWallets config) 1); [reflexivity|lia].
  - intros Hw Ht. unfold validateValues.
    destruct (Z.ltb_spec (numWallets config) 1); [lia|].
    destruct (Z.ltb_spec (totalTokensToCreate config) 1); [reflexivity|lia].
Qed.

(** Asked for no task, the generator returns the empty list; an empty job
    pool stops the scheduler before it generates anything. *)
Lemma generateTasks_never_fails_witness :
  fst (generateTasks (fiveTokens sequential) 0 3600000 2 [moon] 900
         (constantSource (1 # 3))) = []
  /\ runScheduler (fiveTokens sequential) (Some []) 5000 0 (constantSource (1 # 3))
       (processStart None)
     = Rejected (Error "No metadata available. Run npm run prepare-metadata to prepare tokens.")
         (processStart None).
Proof.
  destruct (generateTasks_never_fails (fiveTokens sequential) 0 3600000 2 [moon] 900
              (constantSource (1 # 3))) as (_ & Hnone & _ & _ & _ & _ & Hrej & _).
  split; [apply Hnone; lia|apply Hrej].
Defined.

(** The claim as it was written fails: asked for no task, for two tasks on
    a pool of no wallet, or for two tasks from an empty job pool, the
    generator returns a list and no error. *)
Lemma generateTasks_invalid_input_counterexample :
  generateTasks (fiveTokens sequential) 0 3600000 2 [moon] 900 (constantSource (1 # 3))
  = ([], constantSource (1 # 3))
  /\ List.map (fun t => (tokenIndex t, walletIndex t))
       (fst (generateTasks (fiveTokens sequential) 2 3600000 0 [moon] 900
               (constantSource (1 # 3))))
     = [(0, None); (1, None)]
  /\ List.map (fun t => (tokenIndex t, metadata t))
       (fst (generateTasks (fiveTokens sequential) 2 3600000 2 [] 900
               (constantSource (1 # 3))))
     = [(0, None); (1, None)].
Proof. repeat split; vm_compute; reflexivity. Qed.

(** C10. For [totalTokens <= 0], whatever the pool size and the job pool,
    the generator returns the empty list. So a process that starts on a
    record whose count exceeds the configured total does not stop at the
    test for "all created" (which asks for a difference of exactly 0), and
    then dispatches no task. *)
Theorem nonpositive_count_dispatches_nothing (config : BotConfig) (totalTokens : Z)
    (durationMs : Q) (numWallets : Z) (md : list PreparedToken) (startTime : Z)
    (s : RandomSource) :
  totalTokens <= 0 ->
  generateTasks config totalTokens durationMs numWallets md startTime s = ([], s)
  /\ (forall (file : option Storage.FileContent) (now : Z) (caller : nat)
             (state : Storage.BotState),
        md <> [] ->
        Storage.loadState (processStart file) = Returned state ->
        totalTokensToCreate config < Storage.tokensCreated state ->
        exists state' w,
          runScheduler config (Some md) now caller s (processStart file)
          = Dispatched state' [] [] w s).
Proof.
  intros Hn. split; [now apply generateTasks_nothing|].
  intros file now caller state Hmd Hload Hover.
  rewrite (runScheduler_start config file md now caller s state Hmd Hload).
  assert (Hgo : forall st w,
             Storage.tokensCreated st = Storage.tokensCreated state ->
             scheduleRemaining config md s st w = Dispatched st [] [] w s).
  { intros st w Hst. unfold scheduleRemaining. rewrite Hst.
    destruct (Z.eqb_spec (totalTokensToCreate config - Storage.tokensCreated state) 0); [lia|].
    rewrite generateTasks_nothing by lia.
    now destruct (executionMode config). }
  destruct (startTime_unset state); eexists _, _; apply Hgo; reflexivity.
Qed.

(** A record with three jobs done and a configuration that asks for two. *)
Lemma nonpositive_count_dispatches_nothing_witness :
  let config :=
    {| numWallets := 2; totalTokensToCreate := 2; durationHours := 1%Q;
       executionMode := parallel; delayRandomness := (1 # 2)%Q;
       sellPercentage := 100; maxRetries := 3; retryDelayMs := 5000 |} in
  runScheduler config (Some [moon]) 5000 0 (constantSource (1 # 3))
    (processStart (Some (Storage.Json threeDone)))
  = Dispatched threeDone [] [] (processStart (Some (Storage.Json threeDone)))
      (constantSource (1 # 3)).
Proof.
  intros config.
  destruct (proj2 (nonpositive_count_dispatches_nothing config (-1) 3600000 2 [moon]
                     900 (constantSource (1 # 3)) ltac:(lia))
              (Some (Storage.Json threeDone)) 5000 0%nat threeDone
              ltac:(discriminate) eq_refl ltac:(simpl; lia))
    as (state' & w & Hrun).
  rewrite Hrun. vm_compute in Hrun. injection Hrun as <- <-. reflexivity.
Defined.

(** C5. On a process start with a job pool that is not empty and a state
    file that loads, the scheduler takes [remaining] as the configured total
    minus the count of the record. The anchor is the start time of the
    record when the record has one (the test of the code takes a start time
    of 0 for a missing one); the record is then left as it is and nothing is
    written. Otherwise the anchor is the current time, and the record with
    that start time is saved. With [remaining = 0] the scheduler returns at
    once and dispatches nothing. Otherwise it generates [remaining] tasks
    (none for a negative [remaining]), each scheduled at the anchor plus its
    offset, and dispatches exactly those. *)
Theorem runScheduler_resumes (config : BotConfig) (file : option Storage.FileContent)
    (md : list PreparedToken) (now : Z) (caller : nat) (s : RandomSource)
    (state : Storage.BotState) :
  md <> [] ->
  Storage.loadState (processStart file) = Returned state ->
  let remaining := totalTokensToCreate config - Storage.tokensCreated state in
  let anchor := if startTime_unset state then now else startTime_of state in
  let state' := if startTime_unset state then setStartTime now state else state in
  let w' :=
    if startTime_unset state
    then {| Storage.stateFile := Some (Storage.Json state');
            Storage.stateLock := Storage.StateLockManager.create;
            Storage.log := [Storage.WriteState state'] |}
    else processStart file in
  Storage.startTime state' = Some anchor
  /\ Storage.tokensCreated state' = Storage.tokensCreated state
  /\ Storage.createdTokens state' = Storage.createdTokens state
  /\ (forall t, Storage.startTime state = Some t -> t <> 0 ->
        anchor = t /\ state' = state /\ w' = processStart file)
  /\ (Storage.startTime state = None -> anchor = now)
  /\ (remaining = 0 ->
        runScheduler config (Some md) now caller s (processStart file)
        = AllCreated state' w')
  /\ (remaining <> 0 ->
        exists tasks order s',
          runScheduler config (Some md) now caller s (processStart file)
          = Dispatched state' tasks order w' s'
          /\ (tasks, s')
             = generateTasks config remaining
                 (durationHours config * 60 * 60 * 1000)%Q (wallets_length config)
                 md anchor s
          /\ List.length tasks = Z.to_nat remaining
          /\ (0 <= remaining -> Z.of_nat (List.length tasks) = remaining)
          /\ Permutation order tasks
          /\ Forall (fun t => scheduledTime t = (inject_Z anchor + delayMs t)%Q) tasks).
Proof.
  intros Hmd Hload remaining anchor state' w'.
  assert (Hrun : runScheduler config (Some md) now caller s (processStart file)
                 = scheduleRemaining config md s state' w').
  { rewrite (runScheduler_start config file md now caller s state Hmd Hload).
    subst state' w'. now destruct (startTime_unset state). }
  assert (Hcount : Storage.tokensCreated state' = Storage.tokensCreated state).
  { subst state'. now destruct (startTime_unset state). }
  assert (Hanchor : Storage.startTime state' = Some anchor
                    /\ startTime_of state' = anchor).
  { subst state' anchor. unfold startTime_unset, startTime_of.
    destruct (Storage.startTime state) as [t|] eqn:Ht; simpl.
    - destruct (Z.eqb_spec t 0); simpl; [auto|]. rewrite Ht. auto.
    - auto. }
  split; [apply Hanchor|]. split; [exact Hcount|]. split.
  { subst state'. now destruct (startTime_unset state). }
  split.
  { intros t Ht Hnz. subst anchor state' w'. unfold startTime_unset, startTime_of.
    rewrite Ht. destruct (Z.eqb_spec t 0); [contradiction|]. auto. }
  split.
  { intros Ht. subst anchor. unfold startTime_unset. now rewrite Ht. }
  split.
  - intros Hzero. rewrite Hrun. unfold scheduleRemaining. rewrite Hcount.
    fold remaining. now rewrite Hzero.
  - intros Hrem. rewrite Hrun.
    destruct (scheduleRemaining_dispatch config md s state' w')
      as (tasks & order & s' & Hd & Hgen & Hperm).
    { rewrite Hcount. exact Hrem. }
    rewrite Hcount in Hgen. fold remaining in Hgen.
    rewrite (proj2 Hanchor) in Hgen.
    exists tasks, order, s'. split; [exact Hd|]. split; [exact Hgen|].
    destruct (generateTasks_spec config remaining
                (durationHours config * 60 * 60 * 1000)%Q (wallets_length config)
                md anchor s) as (_ & Hlen & Hrr).
    rewrite <- Hgen in Hlen, Hrr. cbn [fst] in Hlen, Hrr.
    split; [exact Hlen|]. split; [lia|]. split; [exact Hperm|].
    eapply Forall_impl; [exact Hrr|]. intros t [_ Hs]. exact Hs.
Qed.

(** Five tokens configured and three done: two tasks are generated and
    dispatched, anchored at the start time of the record, and the state
    file is not touched. *)
Lemma runScheduler_resumes_witness :
  exists tasks order s',
    runScheduler (fiveTokens parallel) (Some [moon]) 5000 0 (constantSource (1 # 3))
      (processStart (Some (Storage.Json threeDone)))
    = Dispatched threeDone tasks order (processStart (Some (Storage.Json threeDone))) s'
    /\ List.length tasks = 2%nat
    /\ Permutation order tasks
    /\ Forall (fun t => scheduledTime t = (inject_Z 900 + delayMs t)%Q) tasks.
Proof.
  destruct (runScheduler_resumes (fiveTokens parallel) (Some (Storage.Json threeDone))
              [moon] 5000 0 (constantSource (1 # 3)) threeDone
              ltac:(discriminate) eq_refl)
    as (_ & _ & _ & _ & _ & _ & Hgo).
  destruct (Hgo ltac:(discriminate)) as (tasks & order & s' & Hrun & _ & Hlen & _ & Hp & Ha).
  exists tasks, order, s'. repeat split; assumption.
Defined.

(** A first run: no state file, the start time is set and saved, and all
    five tasks are generated. *)
Example runScheduler_first_run :
  match runScheduler (fiveTokens sequential) (Some [moon]) 5000 0
          (constantSource (1 # 3)) (processStart None) with
  | Dispatched state tasks order w _ =>
      Storage.startTime state = Some 5000
      /\ Storage.stateFile w = Some (Storage.Json (setStartTime 5000 Storage.emptyState))
      /\ List.map tokenIndex tasks = [0; 1; 2; 3; 4]
      /\ List.map walletIndex tasks = [Some 0; Some 1; Some 0; Some 1; Some 0]
  | _ => False
  end.
Proof. vm_compute. repeat split. Qed.

(** A record whose start time is the number 0 is given a new start time. *)
Example runScheduler_zero_start_time :
  match runScheduler (fiveTokens sequential) (Some [moon]) 5000 0
          (constantSource (1 # 3))
          (processStart (Some (Storage.Json (setStartTime 0 Storage.emptyState)))) with
  | Dispatched state _ _ _ _ => Storage.startTime state = Some 5000
  | _ => False
  end.
Proof. vm_compute. reflexivity. Qed.

End SchedulerClaims.

(** * Further properties *)

(** ** The state lock *)

Section StateLock.
Import Storage.StateLockManager.

Lemma released_cons (c : nat) (q : list nat) (k : nat) :
  released (S k) {| locked := true; queue := c :: q |}
  = released k {| locked := true; queue := q |}.
Proof.
  unfold released. rewrite Nat.iter_succ_r. reflexivity.
Qed.

(** X1. In a lock where nobody waits while it is free, [acquire] grants
    the lock exactly when it is free and leaves it held, so that a second
    [acquire] before a [release] has to wait; [acquire] and [release] keep
    the lock in such a state, and an [acquire] followed by a [release] gives
    the free lock back. *)
Theorem stateLock_one_holder (l : t) (c1 c2 : nat) :
  settled l ->
  (fst (acquire c1 l) = Granted <-> locked l = false)
  /\ locked (snd (acquire c1 l)) = true
  /\ fst (acquire c2 (snd (acquire c1 l))) = Pending
  /\ settled (snd (acquire c1 l))
  /\ settled (snd (release l))
  /\ (locked l = false -> release (snd (acquire c1 l)) = (None, l)).
Proof.
  intros Hs. destruct l as [b q]. unfold settled, acquire, release in *; simpl in *.
  destruct b; simpl.
  - repeat split; try discriminate.
    + destruct q; simpl; intros; [reflexivity|discriminate].
  - rewrite (Hs eq_refl). simpl. repeat split; auto; discriminate.
Qed.

Lemma stateLock_one_holder_witness :
  fst (acquire 1 create) = Granted
  /\ fst (acquire 2 (snd (acquire 1 create))) = Pending
  /\ release (snd (acquire 1 create)) = (None, create).
Proof.
  destruct (stateLock_one_holder create 1 2) as (Hg & _ & Hp & _ & _ & Hr).
  - intros _. reflexivity.
  - split; [apply Hg; reflexivity|]. split; [exact Hp|]. apply Hr. reflexivity.
Defined.

(** X2. Waiters are served first in, first out: when callers queue up at a
    held lock that had no waiters, the [k]-th [release] that follows
    resolves the [k]-th of them, the lock stays held in between, and the
    [release] after the last of them frees the lock. *)
Theorem stateLock_fifo (l : t) (callers : list nat) :
  locked l = true ->
  queue l = [] ->
  let l1 := arrive callers l in
  (forall k c, callers !! k = Some c ->
     fst (release (released k l1)) = Some c
     /\ locked (released k l1) = true)
  /\ release (released (List.length callers) l1) = (None, create).
Proof.
  intros Hl Hq l1.
  assert (Hl1 : l1 = {| locked := true; queue := callers |}).
  { subst l1. rewrite (arrive_locked _ _ Hl), Hq. reflexivity. }
  rewrite Hl1. clear. induction callers as [|c0 q IH].
  - split; [intros k c Hk; now rewrite lookup_nil in Hk | reflexivity].
  - destruct IH as [IHk IHend]. split.
    + intros [|k] c Hk.
      * simpl in Hk. injection Hk as <-. split; reflexivity.
      * rewrite released_cons. apply IHk. exact Hk.
    + cbn [List.length]. rewrite released_cons. exact IHend.
Qed.

Lemma stateLock_fifo_witness :
  let l1 := arrive [7; 3; 9]%nat (snd (acquire 1 create)) in
  fst (release l1) = Some 7%nat
  /\ fst (release (released 1 l1)) = Some 3%nat
  /\ fst (release (released 2 l1)) = Some 9%nat
  /\ release (released 3 l1) = (None, create).
Proof.
  intros l1.
  destruct (stateLock_fifo (snd (acquire 1 create)) [7; 3; 9]%nat eq_refl eq_refl)
    as [Hk Hend].
  split; [exact (proj1 (Hk 0%nat 7%nat eq_refl))|].
  split; [exact (proj1 (Hk 1%nat 3%nat eq_refl))|].
  split; [exact (proj1 (Hk 2%nat 9%nat eq_refl))|exact Hend].
Defined.

End StateLock.

(** ** Saving and loading *)

Section SaveLoad.
Import Storage.

(** X3. [resetState] returns before anything is written: it is not
    [async] and does not await the [saveState] it calls. When it returns
    the state file and the log are as they were, so that a [loadState]
    right after it still gives the old record; the lock is held, by this
    call when it was free and by its earlier holder otherwise, in which
    case the call has joined the end of the queue. The record is reset
    only when the pending call goes on while it holds the lock: it then
    writes the empty record once, whatever the file holds by then, and
    hands the lock over. An awaited [saveState] of the empty record on a
    free lock is the two steps in one. *)
Theorem resetState_returns_before_write (caller : nat) (arrivals : list nat)
    (w : World) :
  let w0 := snd (resetState caller w) in
  stateFile w0 = stateFile w
  /\ log w0 = log w
  /\ loadState w0 = loadState w
  /\ StateLockManager.locked (stateLock w0) = true
  /\ (StateLockManager.locked (stateLock w) = false ->
      fst (resetState caller w) = StateLockManager.Granted
      /\ StateLockManager.queue (stateLock w0) = StateLockManager.queue (stateLock w)
      /\ saveState caller emptyState arrivals w = resetState_resumed arrivals w0)
  /\ (StateLockManager.locked (stateLock w) = true ->
      fst (resetState caller w) = StateLockManager.Pending
      /\ StateLockManager.queue (stateLock w0)
         = StateLockManager.queue (stateLock w) ++ [caller])
  /\ (forall w1 : World,
        StateLockManager.locked (stateLock w1) = true ->
        exists w' woken,
          resetState_resumed arrivals w1 = Finished (Returned tt) w' woken
          /\ loadState w' = Returned emptyState
          /\ log w' = log w1 ++ [WriteState emptyState]
          /\ handedOver (stateLock w1) arrivals woken (stateLock w')).
Proof.
  cbv zeta. unfold resetState, StateLockManager.acquire.
  destruct (StateLockManager.locked (stateLock w)) eqn:Hl; cbn [negb fst snd].
  - repeat split; try reflexivity; try discriminate.
    intros w1 Hl1. unfold resetState_resumed. rewrite withLock_granted_eq.
    eexists _, _. split; [reflexivity|]. cbn [saveState_body fst snd].
    split; [reflexivity|]. split; [reflexivity|].
    apply (release_handedOver (stateLock w1) arrivals Hl1).
  - repeat split; try reflexivity; try discriminate.
    + unfold saveState. rewrite (withLock_free _ _ _ _ Hl). reflexivity.
    + intros w1 Hl1. unfold resetState_resumed. rewrite withLock_granted_eq.
      eexists _, _. split; [reflexivity|]. cbn [saveState_body fst snd].
      split; [reflexivity|]. split; [reflexivity|].
      apply (release_handedOver (stateLock w1) arrivals Hl1).
Qed.

(** After [resetState] on the record of three jobs the file still holds
    that record; the pending call then leaves the empty one. *)
Lemma resetState_returns_before_write_witness :
  loadState (snd (resetState 0 (Scheduler.processStart (Some (Json threeDone)))))
  = Returned threeDone
  /\ exists w' woken,
       resetState_resumed []
         (snd (resetState 0 (Scheduler.processStart (Some (Json threeDone)))))
       = Finished (Returned tt) w' woken
       /\ loadState w' = Returned emptyState.
Proof.
  destruct (resetState_returns_before_write 0 []
              (Scheduler.processStart (Some (Json threeDone))))
    as (_ & _ & Hload & Hheld & _ & _ & Hlater).
  split; [exact Hload|].
  destruct (Hlater _ Hheld) as (w' & woken & Hrun & Hempty & _).
  exists w', woken. split; [exact Hrun|exact Hempty].
Defined.

(** X4. A state file that does not parse is never replaced behind the
    operator's back: [loadState] throws, [updateState] ends with that
    error and leaves the file and the log as they were, and [runScheduler]
    is rejected with that error before it writes or dispatches anything. *)
Theorem malformed_state_is_kept (raw : string) (caller : nat) (arrivals : list nat)
    (updater : BotState -> Completion BotState) (w : World)
    (config : BotConfig) (md : list PreparedToken) (now : Z) (s : RandomSource) :
  stateFile w = Some (Malformed raw) ->
  exists e,
    loadState w = Thrown e
    /\ (StateLockManager.locked (stateLock w) = false ->
        exists w' woken,
          updateState caller updater arrivals w = Finished (Thrown e) w' woken
          /\ stateFile w' = stateFile w /\ log w' = log w)
    /\ (md <> [] ->
        Scheduler.runScheduler config (Some md) now caller s w = Scheduler.Rejected e w).
Proof.
  intros Hfile. exists (Error "Unexpected token in JSON").
  assert (Hload : loadState w = Thrown (Error "Unexpected token in JSON")).
  { unfold loadState. now rewrite Hfile. }
  split; [exact Hload|]. split.
  - intros Hfree. unfold updateState.
    rewrite (withLock_free _ _ _ _ Hfree), withLock_granted_eq.
    unfold updateState_body at 1 2 3. 
    assert (Hl' : forall l, loadState (with_lock l w) = Thrown (Error "Unexpected token in JSON"))
      by (intros l; exact Hload).
    rewrite Hl'. cbn [fst snd].
    eexists _, _. split; [reflexivity|]. now split.
  - intros Hmd. unfold Scheduler.runScheduler.
    destruct (Z.eqb_spec (Z.of_nat (List.length md)) 0) as [H0|_].
    + destruct md; [congruence|simpl in H0; lia].
    + now rewrite Hload.
Qed.

Lemma malformed_state_is_kept_witness :
  Scheduler.runScheduler (fiveTokens sequential) (Some [moon]) 5000 0
    (constantSource (1 # 3)) (Scheduler.processStart (Some (Malformed "{")))
  = Scheduler.Rejected (Error "Unexpected token in JSON")
      (Scheduler.processStart (Some (Malformed "{"))).
Proof.
  destruct (malformed_state_is_kept "{" 0 [] (fun st => Returned st)
              (Scheduler.processStart (Some (Malformed "{")))
              (fiveTokens sequential) [moon] 5000 (constantSource (1 # 3)) eq_refl)
    as (e & Hload & _ & Hrun).
  injection Hload as <-. apply Hrun. discriminate.
Defined.

End SaveLoad.

(** ** Updates that meet at the state lock *)

Section UpdatesTogether.
Import Storage UpdateQueue.

Lemma updaterOf_middle (c : nat) (u : Updater) (before after : list (nat * Updater)) :
  ~ In c (List.map fst before) ->
  updaterOf c (before ++ (c, u) :: after) = Some u.
Proof.
  induction before as [|[c' u'] before IH]; intros Hnot; simpl.
  - now rewrite Nat.eqb_refl.
  - destruct (Nat.eqb_spec c' c) as [->|_].
    + exfalso. apply Hnot. now left.
    + apply IH. intros Hin. apply Hnot. now right.
Qed.

Lemma release_passedOn (waiting : list nat) :
  StateLockManager.release
    {| StateLockManager.locked := true; StateLockManager.queue := waiting |}
  = (head waiting, passedOn waiting).
Proof. now destruct waiting. Qed.

(** One queued update, run by the caller that was handed the lock. *)
Lemma updateState_resumed_step (u : Updater) (w : World) (st : BotState)
    (waiting : list nat) :
  loadState w = Returned st ->
  stateLock w
  = {| StateLockManager.locked := true; StateLockManager.queue := waiting |} ->
  exists w',
    updateState_resumed u [] w
    = Finished (match u st with Returned _ => Returned tt | Thrown e => Thrown e end)
        w' (head waiting)
    /\ loadState w' = Returned (match u st with Returned st' => st' | Thrown _ => st end)
    /\ stateLock w' = passedOn waiting.
Proof.
  intros Hload Hlock. unfold updateState_resumed. rewrite withLock_granted_eq.
  unfold updateState_body. rewrite Hload.
  destruct (u st) as [st'|e]; cbn [fst snd];
    unfold writeState, emit; cbn [stateLock StateLockManager.arrive fold_left];
    rewrite Hlock, release_passedOn; cbn [fst snd];
    (eexists; split; [reflexivity|]; split; [|reflexivity]).
  - reflexivity.
  - exact Hload.
Qed.

Lemma serve_spec (others : list (nat * Updater)) :
  List.NoDup (List.map fst others) ->
  forall (rest before : list (nat * Updater)) (fuel : nat) (w : World) (st : BotState),
    others = before ++ rest ->
    (List.length rest <= fuel)%nat ->
    loadState w = Returned st ->
    stateLock w = passedOn (List.map fst rest) ->
    exists w',
      serve fuel others (head (List.map fst rest)) w = (fst (applyAll rest st), w')
      /\ loadState w' = Returned (snd (applyAll rest st))
      /\ stateLock w' = StateLockManager.create.
Proof.
  intros Hnd. induction rest as [|[c u] rest IH];
    intros before fuel w st Hsplit Hfuel Hload Hlock.
  - exists w. destruct fuel; simpl; auto.
  - destruct fuel as [|fuel]; [simpl in Hfuel; lia|].
    cbn [List.map fst head serve].
    assert (Hfind : updaterOf c others = Some u).
    { rewrite Hsplit. apply updaterOf_middle.
      rewrite Hsplit, List.map_app in Hnd. cbn [List.map fst] in Hnd.
      apply List.NoDup_remove_2 in Hnd. intros Hin. apply Hnd.
      apply in_or_app. now left. }
    rewrite Hfind.
    destruct (updateState_resumed_step u w st (List.map fst rest) Hload)
      as (w1 & Hstep & Hload1 & Hlock1).
    { rewrite Hlock. reflexivity. }
    rewrite Hstep.
    destruct (IH (before ++ [(c, u)]) fuel w1
                (match u st with Returned st' => st' | Thrown _ => st end))
      as (w' & Hserve & Hload' & Hlock').
    { rewrite <- app_assoc. exact Hsplit. }
    { simpl in Hfuel. lia. }
    { exact Hload1. }
    { exact Hlock1. }
    rewrite Hserve. exists w'. cbn [applyAll].
    destruct (u st) as [st'|e];
      destruct (applyAll rest _) as [rs final]; cbn [fst snd] in *; auto.
Qed.

Lemma applyAll_counts (updaters : list (nat * Updater)) :
  Forall (fun cu => forall s0, exists s1,
            snd cu s0 = Returned s1 /\ tokensCreated s1 = tokensCreated s0 + 1)
    updaters ->
  forall st,
    tokensCreated (snd (applyAll updaters st))
    = tokensCreated st + Z.of_nat (List.length updaters).
Proof.
  induction 1 as [|[c u] rest Hu _ IH]; intros st; cbn [applyAll].
  - simpl. lia.
  - destruct (Hu st) as (s1 & Hs1 & Hn). cbn [snd] in Hs1. rewrite Hs1.
    specialize (IH s1). destruct (applyAll rest s1) as [rs final].
    cbn [snd List.length] in *. lia.
Qed.

(** X5. No update is lost when several tasks finish together. With the
    lock free, the state file readable and the waiting callers named
    apart, the updates run one at a time in the order in which they were
    called, each on the record that the one before left; an update that
    throws changes nothing and does not keep the others from running. At
    the end the file holds the record after all of them and the lock is
    free with nobody waiting. When every update adds one to the count, the
    count has grown by the number of updates. *)
Theorem updateTogether_serial (first : nat * Updater) (others : list (nat * Updater))
    (w : World) (st : BotState) :
  List.NoDup (List.map fst others) ->
  StateLockManager.locked (stateLock w) = false ->
  StateLockManager.queue (stateLock w) = [] ->
  loadState w = Returned st ->
  (exists w',
    updateTogether first others w = (fst (applyAll (first :: others) st), w')
    /\ loadState w' = Returned (snd (applyAll (first :: others) st))
    /\ stateLock w' = StateLockManager.create)
  /\ (Forall (fun cu => forall s0, exists s1,
                snd cu s0 = Returned s1 /\ tokensCreated s1 = tokensCreated s0 + 1)
        (first :: others) ->
      tokensCreated (snd (applyAll (first :: others) st))
      = tokensCreated st + 1 + Z.of_nat (List.length others)).
Proof.
  intros Hnd Hfree Hq Hload.
  split; [|intros Hinc; rewrite (applyAll_counts _ Hinc st); cbn [List.length]; lia].
  destruct first as [c0 u0].
  unfold updateTogether. cbn [fst snd]. unfold updateState.
  rewrite (withLock_free _ _ _ _ Hfree), withLock_granted_eq.
  unfold updateState_body.
  assert (Hload0 : forall l, loadState (with_lock l w) = Returned st)
    by (intros l; exact Hload).
  rewrite Hload0, Hq.
  assert (Harr : forall file lg,
             StateLockManager.arrive (List.map fst others)
               (stateLock {| stateFile := file;
                             stateLock := {| StateLockManager.locked := true;
                                             StateLockManager.queue := [] |};
                             log := lg |})
             = {| StateLockManager.locked := true;
                  StateLockManager.queue := List.map fst others |}).
  { intros file lg. cbn [stateLock]. now rewrite arrive_locked. }
  cbn [applyAll].
  destruct (u0 st) as [st1|e]; cbn [fst snd]; unfold writeState, emit, with_lock;
    cbn [stateFile log]; rewrite Harr, release_passedOn; cbn [fst snd].
  - match goal with
    | |- context [serve _ others _ ?w1] =>
        destruct (serve_spec others Hnd others [] (List.length others) w1 st1
                    eq_refl (le_n _) eq_refl eq_refl) as (w' & Hs & Hl & Hk)
    end.
    rewrite Hs. exists w'.
    destruct (applyAll others st1) as [rs final]; cbn [fst snd] in *. auto.
  - match goal with
    | |- context [serve _ others _ ?w1] =>
        destruct (serve_spec others Hnd others [] (List.length others) w1 st
                    eq_refl (le_n _) Hload eq_refl) as (w' & Hs & Hl & Hk)
    end.
    rewrite Hs. exists w'.
    destruct (applyAll others st) as [rs final]; cbn [fst snd] in *. auto.
Qed.

(** Three jobs complete together on a first run: the count is three. *)
Lemma updateTogether_serial_witness :
  exists w' final,
    snd (updateTogether
           (1%nat, TokenCreator.recordCreation "0xT1" moon wallet1 10 11)
           [(2%nat, TokenCreator.recordCreation "0xT2" moon wallet1 20 21);
            (3%nat, TokenCreator.recordCreation "0xT3" moon wallet1 30 31)]
           (Scheduler.processStart None)) = w'
    /\ loadState w' = Returned final
    /\ tokensCreated final = 3
    /\ List.length (createdTokens final) = 3%nat.
Proof.
  destruct (updateTogether_serial
              (1%nat, TokenCreator.recordCreation "0xT1" moon wallet1 10 11)
              [(2%nat, TokenCreator.recordCreation "0xT2" moon wallet1 20 21);
               (3%nat, TokenCreator.recordCreation "0xT3" moon wallet1 30 31)]
              (Scheduler.processStart None) emptyState)
    as ((w' & Hrun & Hload & _) & _).
  - repeat constructor; simpl; intuition discriminate.
  - reflexivity.
  - reflexivity.
  - reflexivity.
  - exists w', (snd (applyAll
                       [(1%nat, TokenCreator.recordCreation "0xT1" moon wallet1 10 11);
                        (2%nat, TokenCreator.recordCreation "0xT2" moon wallet1 20 21);
                        (3%nat, TokenCreator.recordCreation "0xT3" moon wallet1 30 31)]
                       emptyState)).
    rewrite Hrun. split; [reflexivity|]. split; [exact Hload|]. split; reflexivity.
Defined.

End UpdatesTogether.

(** ** The job pool: preparation, file, load *)

Section MetadataFile.
Import MetadataStore MetadataService.

Lemma prepareLoop_spec (mode : MetadataMode) (api : Api) (tokens : list TokenInfo) :
  forall (prepared : list PreparedToken) (pauses : list Z),
    prepareLoop mode api tokens prepared pauses
    = (prepared ++ flat_map (processed mode api) tokens,
       pauses ++ List.map (fun _ => 500) (flat_map (processed mode api) tokens)).
Proof.
  induction tokens as [|token rest IH]; intros prepared pauses;
    cbn [prepareLoop flat_map].
  - now rewrite !app_nil_r.
  - unfold processed at 1 3.
    destruct (match mode with
              | upload => processTokenToMetadataWithUpload api token
              | reuse => processTokenToMetadataWithReuse token
              end) as [p|e].
    + rewrite IH, <- !app_assoc. reflexivity.
    + rewrite IH. reflexivity.
Qed.

Lemma processed_length (mode : MetadataMode) (api : Api) (tokens : list TokenInfo) :
  (List.length (flat_map (processed mode api) tokens) <= List.length tokens)%nat
  /\ (mode = reuse ->
      List.length (flat_map (processed mode api) tokens) = List.length tokens).
Proof.
  induction tokens as [|token rest [IHle IHeq]]; cbn [flat_map List.length].
  - split; auto.
  - rewrite length_app. split.
    + unfold processed at 1.
      destruct (match mode with
                | upload => processTokenToMetadataWithUpload api token
                | reuse => processTokenToMetadataWithReuse token
                end); simpl; lia.
    + intros ->. rewrite (IHeq eq_refl). reflexivity.
Qed.

(** X6. When the token list is fetched, [fetchAndPrepareTokens] never
    throws: it returns, in the order of the list, the prepared tokens of
    exactly those entries whose processing did not throw (all of them in
    reuse mode), and it pauses 500 ms once for each of them. The script
    then saves them, and what the bot loads from the file is that list.
    When the fetch throws, the error is thrown on, no pause is taken and
    the file stays as it was. *)
Theorem prepared_pool_is_loaded (mode : MetadataMode) (api : Api) (startPage limit : Z)
    (file : option FileContent) :
  (forall tokens,
     fetchTokenList api startPage limit = Returned tokens ->
     let pool := flat_map (processed mode api) tokens in
     fetchAndPrepareTokens mode api startPage limit
     = (Returned pool, List.map (fun _ => 500) pool)
     /\ loadMetadata (prepareMetadata mode api startPage limit file) = Returned pool
     /\ (List.length pool <= List.length tokens)%nat
     /\ (mode = reuse -> List.length pool = List.length tokens))
  /\ (forall e,
        fetchTokenList api startPage limit = Thrown e ->
        fetchAndPrepareTokens mode api startPage limit = (Thrown e, [])
        /\ prepareMetadata mode api startPage limit file = file).
Proof.
  split.
  - intros tokens Hfetch pool.
    assert (Hrun : fetchAndPrepareTokens mode api startPage limit
                   = (Returned pool, List.map (fun _ => 500) pool)).
    { unfold fetchAndPrepareTokens. rewrite Hfetch, prepareLoop_spec. reflexivity. }
    split; [exact Hrun|]. split.
    + unfold prepareMetadata. rewrite Hrun. reflexivity.
    + apply processed_length.
  - intros e Hfetch.
    assert (Hrun : fetchAndPrepareTokens mode api startPage limit = (Thrown e, [])).
    { unfold fetchAndPrepareTokens. now rewrite Hfetch. }
    split; [exact Hrun|]. unfold prepareMetadata. now rewrite Hrun.
Qed.

(** X7. A prepared token carries the name, the symbol and the description
    of the entry it was made from. A link of the entry that is [null] or
    the empty string is left out, and any other link is kept; no prepared
    token has an empty string as a link. In reuse mode the token URI and
    the image URI are both the image URI of the entry. *)
Theorem prepared_token_fields (mode : MetadataMode) (api : Api) (token : TokenInfo)
    (p : PreparedToken) :
  In p (processed mode api token) ->
  name p = info_name token
  /\ symbol p = info_symbol token
  /\ description p = info_description token
  /\ twitter p = orUndefined (info_twitter token)
  /\ telegram p = orUndefined (info_telegram token)
  /\ website p = orUndefined (info_website token)
  /\ (forall link : option string,
        orUndefined link <> Some EmptyString
        /\ (link <> Some EmptyString -> orUndefined link = link))
  /\ (mode = reuse ->
        tokenURI p = image_uri token /\ imageUri p = image_uri token)
  /\ (mode = upload ->
        uploadImage api (image_uri token) = Returned (imageUri p)).
Proof.
  intros Hin.
  assert (Hlinks : forall link : option string,
             orUndefined link <> Some EmptyString
             /\ (link <> Some EmptyString -> orUndefined link = link)).
  { intros [[|a l]|]; simpl; split; congruence. }
  unfold processed in Hin. destruct mode.
  - unfold processTokenToMetadataWithUpload in Hin.
    destruct (uploadImage api (image_uri token)) as [img|e] eqn:Himg; [|destruct Hin].
    destruct (uploadMetadata api _) as [uri|e]; [|destruct Hin].
    destruct Hin as [<-|[]]. cbn.
    repeat split; try reflexivity; try apply Hlinks; discriminate.
  - destruct Hin as [<-|[]]. cbn.
    repeat split; try reflexivity; try apply Hlinks; discriminate.
Qed.

End MetadataFile.

(** ** Offsets and the order of dispatch *)

Section Offsets.
Import Scheduler.

Lemma sort_by_sorted_id {A} (leb : A -> A -> bool) (le : A -> A -> Prop) :
  (forall x y, le x y -> leb x y = true) ->
  forall l, Sorted le l -> sort_by leb l = l.
Proof.
  intros Hle. induction l as [|x l IH]; intros Hs; [reflexivity|].
  inversion Hs as [|? ? Hs' Hhd]; subst. cbn [sort_by]. rewrite (IH Hs').
  destruct l as [|y l]; [reflexivity|]. cbn [insert_by].
  inversion Hhd; subst. now rewrite Hle.
Qed.

Lemma Sorted_map {A B} (f : A -> B) (R : B -> B -> Prop) (l : list A) :
  Sorted R (List.map f l) -> Sorted (fun a b => R (f a) (f b)) l.
Proof.
  induction l as [|x l IH]; intros Hs; [constructor|].
  inversion Hs as [|? ? Hs' Hhd]; subst. constructor; [now apply IH|].
  destruct l; [constructor|]. inversion Hhd; subst. now constructor.
Qed.

Lemma Sorted_weaken {A} (R R' : A -> A -> Prop) (P : A -> Prop) (l : list A) :
  (forall a b, P a -> P b -> R a b -> R' a b) ->
  Forall P l -> Sorted R l -> Sorted R' l.
Proof.
  intros Himp. induction l as [|x l IH]; intros HP Hs; [constructor|].
  inversion Hs as [|? ? Hs' Hhd]; subst.
  apply Forall_cons_1 in HP as [Hx Hl].
  constructor; [now apply IH|].
  destruct l; [constructor|]. inversion Hhd; subst.
  apply Forall_cons_1 in Hl as [Hy _]. constructor. now apply Himp.
Qed.




Lemma sequentialLoop_plain (config : BotConfig) (averageDelay : Q) (numWallets : Z)
    (md : list PreparedToken) (startTime : Z) (fuel : nat) :
  Qgtb (delayRandomness config) 0 = false ->
  forall (i : Z) (s : RandomSource),
    List.map delayMs
      (fst (sequentialLoop config fuel i averageDelay numWallets md startTime s))
    = List.map (fun k => (inject_Z k * averageDelay)%Q) (countFrom fuel i).
Proof.
  intros Hplain. induction fuel as [|fuel IH]; intros i s; cbn [sequentialLoop].
  - reflexivity.
  - rewrite Hplain.
    destruct (randomMetadata md s) as [m s1].
    specialize (IH (i + 1) s1).
    destruct (sequentialLoop config fuel (i + 1) averageDelay numWallets md startTime s1)
      as [rest s2]. cbn [fst countFrom List.map delayMs] in *. now rewrite IH.
Qed.


Lemma Qgtb_false (a b : Q) : Qgtb a b = false <-> (a <= b)%Q.
Proof.
  unfold Qgtb. rewrite Bool.negb_false_iff. apply Qle_bool_iff.
Qed.


Lemma average_positive (durationMs : Q) (totalTokens : Z) :
  1 <= totalTokens -> (0 <= durationMs)%Q ->
  (0 <= durationMs / inject_Z totalTokens)%Q
  /\ (inject_Z totalTokens * (durationMs / inject_Z totalTokens) == durationMs)%Q.
Proof.
  intros Hn Hd.
  assert (Hq : (0 < inject_Z totalTokens)%Q).
  { change 0%Q with (inject_Z 0). rewrite <- Zlt_Qlt. lia. }
  split.
  - unfold Qdiv. apply Qmult_le_0_compat; [exact Hd|].
    apply Qinv_le_0_compat. now apply Qlt_le_weak.
  - apply Qmult_div_r. intros H0. rewrite H0 in Hq. discriminate.
Qed.



Lemma parallel_delays (config : BotConfig) (totalTokens : Z) (durationMs : Q)
    (numWallets : Z) (md : list PreparedToken) (startTime : Z) (s : RandomSource) :
  executionMode config = parallel ->
  List.map delayMs
    (fst (generateTasks config totalTokens durationMs numWallets md startTime s))
  = sort_by Qle_bool (fst (drawTimes (Z.to_nat totalTokens) durationMs s)).
Proof.
  intros Hmode. unfold generateTasks. rewrite Hmode.
  pose proof (drawTimes_spec durationMs (Z.to_nat totalTokens) s) as [Hf _].
  destruct (drawTimes (Z.to_nat totalTokens) durationMs s) as [randomTimes s1].
  cbn [fst] in *.
  destruct (parallelLoop_spec numWallets md startTime
              (sort_by Qle_bool randomTimes) (Z.to_nat totalTokens) 0 s1)
    as (_ & Hdl & _).
  rewrite Hdl.
  replace (Z.to_nat totalTokens) with (List.length (sort_by Qle_bool randomTimes)).
  - apply (timeAt_countFrom [] (sort_by Qle_bool randomTimes)).
  - rewrite sort_by_length, Hf, length_map. apply length_seq.
Qed.

Lemma countFrom_offsets_sorted (averageDelay : Q) (n : nat) :
  (0 <= averageDelay)%Q ->
  forall i : Z,
    Sorted Qle (List.map (fun k => (inject_Z k * averageDelay)%Q) (countFrom n i)).
Proof.
  intros Havg. induction n as [|n IH]; intros i; cbn [countFrom List.map].
  - constructor.
  - constructor; [apply IH|].
    destruct n; cbn [countFrom List.map]; constructor.
    rewrite inject_Z_plus. change (inject_Z 1) with 1%Q. nra.
Qed.

Lemma byTime_of_delays (numWallets startTime : Z) (tasks : list TokenTask) :
  Forall (roundRobin numWallets startTime) tasks ->
  Sorted Qle (List.map delayMs tasks) ->
  Sorted byTime tasks.
Proof.
  intros Hrr Hs. apply Sorted_map in Hs.
  eapply Sorted_weaken; [|exact Hrr|exact Hs].
  intros a b [_ Ha] [_ Hb] Hle. unfold byTime. rewrite Ha, Hb. lra.
Qed.

(** X10. Sorting the tasks by scheduled time gives the same tasks in an
    order in which no task is scheduled before its predecessor. The tasks
    of the parallel mode are generated in that order already, and so are
    the tasks of the sequential mode without jitter (at least one task, a
    duration that is not negative): for them the sorted list is the
    generated list, and the sequential dispatch follows the sequence
    index. Whatever [runScheduler] dispatches is a rearrangement of the
    generated tasks, in the order of time in sequential mode. *)
Theorem generated_tasks_chronological (config : BotConfig) (totalTokens : Z)
    (durationMs : Q) (numWallets : Z) (md : list PreparedToken) (startTime : Z)
    (s : RandomSource) :
  let tasks :=
    fst (generateTasks config totalTokens durationMs numWallets md startTime s) in
  Permutation (sortByScheduledTime tasks) tasks
  /\ Sorted byTime (sortByScheduledTime tasks)
  /\ (executionMode config = parallel -> sortByScheduledTime tasks = tasks)
  /\ (executionMode config = sequential -> (delayRandomness config <= 0)%Q ->
      1 <= totalTokens -> (0 <= durationMs)%Q ->
      sortByScheduledTime tasks = tasks)
  /\ (forall state w state' generated order w' s',
        scheduleRemaining config md s state w
        = Dispatched state' generated order w' s' ->
        Permutation order generated
        /\ (executionMode config = sequential -> Sorted byTime order)).
Proof.
  intros tasks.
  assert (Hleb : forall a b : TokenTask,
             byTime a b -> Qle_bool (scheduledTime a) (scheduledTime b) = true).
  { intros a b. apply Qle_bool_iff. }
  assert (Hsorted : forall l : list TokenTask, Sorted byTime (sortByScheduledTime l)).
  { intros l. apply (sort_by_sorted _ byTime).
    - intros x y. apply Qle_bool_iff.
    - intros x y. apply Qle_bool_false. }
  destruct (generateTasks_spec config totalTokens durationMs numWallets md startTime s)
    as (_ & _ & Hrr).
  fold tasks in Hrr.
  split; [apply sort_by_perm|]. split; [apply Hsorted|]. split; [|split].
  - intros Hmode. apply (sort_by_sorted_id _ byTime Hleb).
    apply (byTime_of_delays numWallets startTime _ Hrr).
    subst tasks. rewrite (parallel_delays _ _ _ _ _ _ _ Hmode).
    apply (sort_by_sorted Qle_bool Qle).
    + intros x y. apply Qle_bool_iff.
    + apply Qle_bool_false.
  - intros Hmode Hplain Hn Hd. apply (sort_by_sorted_id _ byTime Hleb).
    apply (byTime_of_delays numWallets startTime _ Hrr).
    subst tasks. unfold generateTasks. rewrite Hmode.
    rewrite sequentialLoop_plain by (now apply Qgtb_false).
    apply countFrom_offsets_sorted.
    apply (average_positive durationMs totalTokens Hn Hd).
  - intros state w state' generated order w' s' Hrun.
    unfold scheduleRemaining in Hrun.
    destruct (_ =? 0); [discriminate|].
    destruct (generateTasks config
                (totalTokensToCreate config - Storage.tokensCreated state)
                _ _ md _ s) as [g sg].
    cbv beta iota zeta in Hrun. inversion Hrun; subst.
    destruct (executionMode config); split.
    + apply sort_by_perm.
    + intros _. apply Hsorted.
    + reflexivity.
    + discriminate.
Qed.

End Offsets.

(** ** The generator with cumulative delays *)

Section Cumulative.








End Cumulative.

(** ** The execution of tasks *)

Section Execution.
Import Executor.

Lemma isLocked_after_tryAcquire (key key' : option Z) (locks : LockTable) :
  fst (tryAcquire key locks) = negb (isLocked key locks)
  /\ isLocked key' (snd (tryAcquire key locks))
     = if decide (key' = key) then true else isLocked key' locks.
Proof.
  destruct key as [i|]; cbn [tryAcquire isLocked].
  - destruct (WalletLockManager.tryAcquire i (byIndex locks)) as [ok m] eqn:Hacq.
    cbn [fst snd]. split.
    + replace ok with (fst (WalletLockManager.tryAcquire i (byIndex locks)))
        by (now rewrite Hacq).
      destruct (WalletLockManager.isLocked i (byIndex locks)) eqn:Hi.
      * now rewrite (tryAcquire_busy _ _ Hi).
      * now rewrite (tryAcquire_free _ _ Hi).
    + replace m with (snd (WalletLockManager.tryAcquire i (byIndex locks)))
        by (now rewrite Hacq).
      destruct key' as [j|]; cbn [isLocked byIndex atNaN].
      * rewrite isLocked_tryAcquire.
        destruct (decide (j = i)) as [->|Hne].
        -- now rewrite decide_True.
        -- rewrite decide_False by congruence. reflexivity.
      * rewrite decide_False by discriminate. reflexivity.
  - destruct (atNaN locks) eqn:Hn; cbn [fst snd]; split; try reflexivity.
    + destruct key' as [j|]; cbn [isLocked].
      * rewrite decide_False by discriminate. reflexivity.
      * now rewrite decide_True.
    + destruct key' as [j|]; cbn [isLocked byIndex atNaN].
      * rewrite decide_False by discriminate. reflexivity.
      * now rewrite decide_True.
Qed.

Lemma isLocked_after_release (key key' : option Z) (locks : LockTable) :
  isLocked key' (release key locks)
  = if decide (key' = key) then false else isLocked key' locks.
Proof.
  destruct key as [i|], key' as [j|]; cbn [release isLocked byIndex atNaN].
  - rewrite isLocked_release. destruct (decide (j = i)) as [->|Hne].
    + now rewrite decide_True.
    + rewrite decide_False by congruence. reflexivity.
  - rewrite decide_False by discriminate. reflexivity.
  - rewrite decide_False by discriminate. reflexivity.
  - now rewrite decide_True.
Qed.

(** A table in which an acquired lock was released again answers like the
    table before, except that the lock is now surely free. *)
Lemma release_after_tryAcquire (key key' : option Z) (locks : LockTable) :
  isLocked key locks = false ->
  isLocked key' (release key (snd (tryAcquire key locks))) = isLocked key' locks.
Proof.
  intros Hfree. rewrite isLocked_after_release.
  destruct (decide (key' = key)) as [->|Hne]; [now rewrite Hfree|].
  rewrite (proj2 (isLocked_after_tryAcquire key key' locks)).
  now rewrite decide_False.
Qed.


End Execution.

(** ** The sequential dispatch loop *)

Section SequentialDispatch.
Import Executor.

Lemma executeTokenCreation_free (config : BotConfig) (chain : TokenCreator.Chain)
    (caller : nat) (n1 n2 : Z) (wl : TokenCreator.WalletInstance) (md : PreparedToken)
    (w : Storage.World) (st : Storage.BotState) :
  Storage.stateLock w = Storage.StateLockManager.create ->
  Storage.loadState w = Returned st ->
  exists c w',
    TokenCreator.executeTokenCreation config chain caller [] n1 n2 wl md w
    = TokenCreator.Ended c w'
    /\ Storage.stateLock w' = Storage.StateLockManager.create
    /\ Storage.loadState w'
       = Returned
           match TokenCreator.createToken chain wl md with
           | Returned (a, _) =>
               match TokenCreator.recordCreation a md wl n1 n2 st with
               | Returned st' => st'
               | Thrown _ => st
               end
           | Thrown _ => st
           end
    /\ (returned c = true -> returned (TokenCreator.createToken chain wl md) = true).
Proof.
  intros Hlock Hload. unfold TokenCreator.executeTokenCreation.
  destruct (TokenCreator.createToken chain wl md) as [[a n]|e].
  - unfold Storage.updateState.
    rewrite withLock_free by (cbn; now rewrite Hlock).
    rewrite withLock_granted_eq.
    rewrite (updateState_body_commits _ _ st
               (Storage.Build_BotState (Storage.tokensCreated st + 1)
                  (Storage.startTime st) (Some n1)
                  (Storage.createdTokens st ++
                   [Storage.Build_CreatedToken a md n2 (TokenCreator.index wl)])))
      by (try exact Hload; reflexivity).
    cbn [fst snd]. rewrite afterUpdate_commit.
    destruct (sellStep_trace config chain wl md a n
                (Storage.with_lock
                   (snd (Storage.StateLockManager.release
                           (Storage.StateLockManager.arrive []
                              (Storage.stateLock
                                 (Storage.writeState
                                    (Storage.Build_BotState (Storage.tokensCreated st + 1)
                                       (Storage.startTime st) (Some n1)
                                       (Storage.createdTokens st ++
                                        [Storage.Build_CreatedToken a md n2
                                           (TokenCreator.index wl)]))
                                    (Storage.with_lock
                                       {| Storage.StateLockManager.locked := true;
                                          Storage.StateLockManager.queue :=
                                            Storage.StateLockManager.queue
                                              (Storage.stateLock
                                                 (Storage.emit
                                                    (Storage.CreateToken
                                                       (TokenCreator.index wl) (symbol md))
                                                    w)) |}
                                       (Storage.emit
                                          (Storage.CreateToken
                                             (TokenCreator.index wl) (symbol md)) w)))))))
                   (Storage.writeState
                      (Storage.Build_BotState (Storage.tokensCreated st + 1)
                         (Storage.startTime st) (Some n1)
                         (Storage.createdTokens st ++
                          [Storage.Build_CreatedToken a md n2 (TokenCreator.index wl)]))
                      (Storage.with_lock
                         {| Storage.StateLockManager.locked := true;
                            Storage.StateLockManager.queue :=
                              Storage.StateLockManager.queue
                                (Storage.stateLock
                                   (Storage.emit
                                      (Storage.CreateToken
                                         (TokenCreator.index wl) (symbol md)) w)) |}
                         (Storage.emit
                            (Storage.CreateToken (TokenCreator.index wl) (symbol md)) w)))))
      as (k & Hw' & _).
    eexists _, _. split; [reflexivity|]. rewrite Hw'.
    split; [|split; [reflexivity|reflexivity]].
    cbn. rewrite Hlock. reflexivity.
  - eexists _, _. split; [reflexivity|]. split; [exact Hlock|].
    split; [exact Hload|]. discriminate.
Qed.

Lemma executeTask_free (config : BotConfig) (env : Z -> TaskEnv) (caller : nat)
    (task : TokenTask) (wallets : list TokenCreator.WalletInstance)
    (locks : LockTable) (w : Storage.World) (st : Storage.BotState) :
  allFree locks ->
  Storage.stateLock w = Storage.StateLockManager.create ->
  Storage.loadState w = Returned st ->
  exists c locks' w',
    snd (executeTask config (env (tokenIndex task)) caller [] task
           (walletOf wallets task) locks w)
    = Settled c locks' w'
    /\ allFree locks'
    /\ Storage.stateLock w' = Storage.StateLockManager.create
    /\ Storage.loadState w' = Returned (recorded env wallets st task)
    /\ (returned c = true -> creates env wallets task = true).
Proof.
  intros Hfree Hlock Hload. unfold executeTask, acquireAndRun. cbn [snd].
  pose proof (proj1 (isLocked_after_tryAcquire (walletIndex task) (walletIndex task) locks))
    as Hfst.
  rewrite (Hfree (walletIndex task)) in Hfst.
  assert (Hrel : allFree (release (walletIndex task)
                            (snd (tryAcquire (walletIndex task) locks)))).
  { intros k. rewrite release_after_tryAcquire by apply Hfree. apply Hfree. }
  destruct (tryAcquire (walletIndex task) locks) as [ok locks1]. cbn [fst snd] in *.
  subst ok. unfold runLocked, recorded, creates.
  destruct (metadata task) as [md|].
  - destruct (walletOf wallets task) as [wl|].
    + destruct (executeTokenCreation_free config (chain (env (tokenIndex task))) caller
                  (updatedAt1 (env (tokenIndex task))) (updatedAt2 (env (tokenIndex task)))
                  wl md w st Hlock Hload) as (c & w' & -> & Hl' & Hs' & Hc).
      exists c, (release (walletIndex task) locks1), w'.
      split; [reflexivity|]. split; [exact Hrel|]. split; [exact Hl'|].
      split; [|exact Hc].
      rewrite Hs'. now destruct (TokenCreator.createToken _ wl md) as [[a n]|e].
    + eexists _, _, _. split; [reflexivity|]. repeat split; auto.
  - eexists _, _, _. split; [reflexivity|]. repeat split; auto.
Qed.

Lemma runSequential_spec (config : BotConfig) (env : Z -> TaskEnv)
    (wallets : list TokenCreator.WalletInstance) (tasks : list TokenTask) :
  forall (locks : LockTable) (w : Storage.World) (st : Storage.BotState),
    allFree locks ->
    Storage.stateLock w = Storage.StateLockManager.create ->
    Storage.loadState w = Returned st ->
    exists outcomes locks' w',
      runSequential config env wallets tasks locks w = Completed outcomes locks' w'
      /\ Forall2 (fun t o => fst o = tokenIndex t
                             /\ (returned (snd o) = true -> creates env wallets t = true))
           tasks outcomes
      /\ allFree locks'
      /\ Storage.stateLock w' = Storage.StateLockManager.create
      /\ Storage.loadState w' = Returned (fold_left (recorded env wallets) tasks st).
Proof.
  induction tasks as [|task rest IH]; intros locks w st Hfree Hlock Hload.
  - exists [], locks, w. repeat split; auto.
  - cbn [runSequential fold_left].
    destruct (executeTask_free config env (Z.to_nat (tokenIndex task)) task wallets
                locks w st Hfree Hlock Hload) as (c & locks1 & w1 & -> & Hf1 & Hl1 & Hs1 & Hc).
    destruct (IH locks1 w1 _ Hf1 Hl1 Hs1) as (outs & locks2 & w2 & -> & Hall & Hf2 & Hl2 & Hs2).
    exists ((tokenIndex task, c) :: outs), locks2, w2. repeat split; auto.
Qed.

Lemma recorded_step (env : Z -> TaskEnv) (wallets : list TokenCreator.WalletInstance)
    (st : Storage.BotState) (task : TokenTask) :
  (creates env wallets task = false /\ recorded env wallets st task = st)
  \/ (creates env wallets task = true
      /\ exists md wl a,
           metadata task = Some md /\ walletOf wallets task = Some wl
           /\ Storage.tokensCreated (recorded env wallets st task)
              = Storage.tokensCreated st + 1
           /\ Storage.startTime (recorded env wallets st task) = Storage.startTime st
           /\ Storage.createdTokens (recorded env wallets st task)
              = Storage.createdTokens st ++
                [ {| Storage.tokenAddress := a; Storage.metadata := md;
                     Storage.createdAt := updatedAt2 (env (tokenIndex task));
                     Storage.walletIndex := TokenCreator.index wl |} ]).
Proof.
  unfold creates, recorded.
  destruct (metadata task) as [md|]; [|now left].
  destruct (walletOf wallets task) as [wl|]; [|now left].
  destruct (TokenCreator.createToken _ wl md) as [[a n]|e]; [|now left].
  right. split; [reflexivity|]. exists md, wl, a. repeat split; reflexivity.
Qed.

Lemma recorded_count (env : Z -> TaskEnv) (wallets : list TokenCreator.WalletInstance)
    (tasks : list TokenTask) :
  forall st : Storage.BotState,
    Storage.tokensCreated (fold_left (recorded env wallets) tasks st)
    = Storage.tokensCreated st
      + Z.of_nat (List.length (List.filter (creates env wallets) tasks))
    /\ Storage.startTime (fold_left (recorded env wallets) tasks st) = Storage.startTime st
    /\ (consistent st -> consistent (fold_left (recorded env wallets) tasks st)).
Proof.
  induction tasks as [|task rest IH]; intros st; cbn [fold_left List.filter].
  - cbn. split; [lia|]. split; auto.
  - destruct (IH (recorded env wallets st task)) as (Hn & Ht & Hc).
    destruct (recorded_step env wallets st task)
      as [(Hno & Hsame)|(Hyes & md & wl & a & _ & _ & Hn1 & Ht1 & Hl1)].
    + rewrite Hno. rewrite Hsame in *. auto.
    + rewrite Hyes. cbn [List.length]. rewrite Hn, Hn1, Ht, Ht1.
      split; [lia|]. split; [reflexivity|].
      intros Hcons. apply Hc. unfold consistent in *.
      rewrite Hl1, Hn1, length_app. cbn [List.length]. lia.
Qed.

(** X13. The sequential dispatch loop, entered with every wallet lock and
    the state lock free and a readable state file, never stalls: every
    task settles, in the order given, whether its workflow returned or
    threw, and the loop ends with all locks free again. A task that
    settled without an error did create its token. The record on disk
    at the end is the record at the start with one entry added per task
    whose [createToken] succeeded, whatever became of the sales: the
    counter has grown by the number of those tasks, the start time is
    kept, and a consistent record stays consistent. *)
Theorem sequential_run_completes (config : BotConfig) (env : Z -> TaskEnv)
    (wallets : list TokenCreator.WalletInstance) (tasks : list TokenTask)
    (locks : LockTable) (w : Storage.World) (st : Storage.BotState) :
  allFree locks ->
  Storage.stateLock w = Storage.StateLockManager.create ->
  Storage.loadState w = Returned st ->
  exists outcomes locks' w' st',
    runSequential config env wallets tasks locks w = Completed outcomes locks' w'
    /\ List.map fst outcomes = List.map tokenIndex tasks
    /\ Forall2 (fun t o => returned (snd o) = true -> creates env wallets t = true)
         tasks outcomes
    /\ allFree locks'
    /\ Storage.stateLock w' = Storage.StateLockManager.create
    /\ Storage.loadState w' = Returned st'
    /\ Storage.tokensCreated st'
       = Storage.tokensCreated st
         + Z.of_nat (List.length (List.filter (creates env wallets) tasks))
    /\ Storage.startTime st' = Storage.startTime st
    /\ (consistent st -> consistent st').
Proof.
  intros Hfree Hlock Hload.
  destruct (runSequential_spec config env wallets tasks locks w st Hfree Hlock Hload)
    as (outs & locks' & w' & Hrun & Hall & Hf & Hl & Hs).
  destruct (recorded_count env wallets tasks st) as (Hn & Ht & Hc).
  exists outs, locks', w', (fold_left (recorded env wallets) tasks st).
  repeat split; auto.
  - clear -Hall. induction Hall as [|t o ts os [Hi _] _ IH]; cbn; [reflexivity|].
    now rewrite Hi, IH.
  - clear -Hall. induction Hall as [|t o ts os [_ Hc] _ IH]; constructor; auto.
Qed.

End SequentialDispatch.

(** ** The wallet pool and a whole sequential run *)

Section WholeRun.
Import Executor.

Lemma countFrom_lookup (n : nat) :
  forall (i : Z) (j : nat),
    (j < n)%nat -> countFrom n i !! j = Some (i + Z.of_nat j).
Proof.
  induction n as [|n IH]; intros i j Hj; [lia|].
  destruct j as [|j]; cbn [countFrom].
  - cbn. f_equal. lia.
  - change ((i :: countFrom n (i + 1)) !! S j) with (countFrom n (i + 1) !! j).
    rewrite IH by lia. f_equal. lia.
Qed.

Lemma map_lookup {A B} (f : A -> B) (l : list A) :
  forall j : nat, List.map f l !! j = option_map f (l !! j).
Proof.
  induction l as [|x l IH]; intros j; [now destruct j|].
  destruct j as [|j]; [reflexivity|]. cbn [List.map]. apply IH.
Qed.

Lemma deriveWallets_lookup (addressOf : Z -> string) (count : Z) (j : nat) :
  (Z.of_nat j < count) ->
  deriveWallets addressOf count !! j
  = Some {| TokenCreator.address := addressOf (Z.of_nat j);
            TokenCreator.index := Z.of_nat j |}.
Proof.
  intros Hj. unfold deriveWallets. rewrite map_lookup, countFrom_lookup by lia.
  reflexivity.
Qed.

Lemma workerWallets_length (config : BotConfig) (addressOf : Z -> string) :
  Z.of_nat (List.length (workerWallets config addressOf)) = Scheduler.wallets_length config.
Proof.
  unfold workerWallets, deriveWallets, Scheduler.wallets_length.
  rewrite length_drop, length_map, countFrom_length. lia.
Qed.

Lemma workerWallets_at (config : BotConfig) (addressOf : Z -> string) (k : Z) :
  0 <= k < numWallets config ->
  at_index (workerWallets config addressOf) k
  = Some {| TokenCreator.address := addressOf (k + 1);
            TokenCreator.index := k + 1 |}.
Proof.
  intros Hk. unfold at_index, workerWallets.
  destruct (Z.ltb_spec k 0); [lia|].
  rewrite lookup_drop.
  rewrite deriveWallets_lookup by lia.
  do 2 f_equal; [f_equal|]; lia.
Qed.

(** X14. The pool of worker wallets, [deriveWallets(mnemonic, numWallets +
    1).slice(1)], has [numWallets] wallets (none when [numWallets] is not
    positive); the wallet at position [k] is the account with index [k +
    1], so the account with index 0, the master wallet, is never in the
    pool, and a position outside [0 .. numWallets - 1] reads
    [undefined]. *)
Theorem worker_wallets_skip_master (config : BotConfig) (addressOf : Z -> string) :
  Z.of_nat (List.length (workerWallets config addressOf)) = Z.max 0 (numWallets config)
  /\ (forall k, 0 <= k < numWallets config ->
        at_index (workerWallets config addressOf) k
        = Some {| TokenCreator.address := addressOf (k + 1);
                  TokenCreator.index := k + 1 |})
  /\ (forall k, k < 0 \/ numWallets config <= k ->
        at_index (workerWallets config addressOf) k = None)
  /\ Forall (fun wl => 1 <= TokenCreator.index wl <= numWallets config)
       (workerWallets config addressOf).
Proof.
  split; [|split; [|split]].
  - rewrite workerWallets_length. unfold Scheduler.wallets_length. lia.
  - intros k Hk. now apply workerWallets_at.
  - intros k Hk. unfold at_index. destruct (Z.ltb_spec k 0); [reflexivity|].
    apply lookup_ge_None.
    pose proof (workerWallets_length config addressOf) as Hlen.
    unfold Scheduler.wallets_length in Hlen. lia.
  - apply List.Forall_forall. intros wl Hin.
    apply list_elem_of_In, list_elem_of_lookup in Hin. destruct Hin as [j Hj].
    pose proof (lookup_lt_Some _ _ _ Hj) as Hlt.
    pose proof (workerWallets_length config addressOf) as Hlen.
    unfold Scheduler.wallets_length in Hlen.
    assert (Hat : at_index (workerWallets config addressOf) (Z.of_nat j) = Some wl).
    { unfold at_index. destruct (Z.ltb_spec (Z.of_nat j) 0); [lia|].
      now rewrite Nat2Z.id. }
    rewrite workerWallets_at in Hat by lia. injection Hat as <-. cbn. lia.
Qed.

Lemma allFree_freshLocks : allFree freshLocks.
Proof. intros [i|]; reflexivity. Qed.

Lemma runSchedulerSequential_dispatched (config : BotConfig) (addressOf : Z -> string)
    (metadataFile : option (list PreparedToken)) (now : Z) (caller : nat)
    (s s' : RandomSource) (env : Z -> TaskEnv) (file : option Storage.FileContent)
    (state : Storage.BotState) (tasks order : list TokenTask) (w : Storage.World) :
  executionMode config = sequential ->
  Scheduler.runScheduler config metadataFile now caller s (Scheduler.processStart file)
  = Scheduler.Dispatched state tasks order w s' ->
  runSchedulerSequential config addressOf metadataFile now caller s env file
  = Some (runSequential config env (workerWallets config addressOf) order freshLocks w).
Proof. intros Hmode Hrun. unfold runSchedulerSequential. now rewrite Hmode, Hrun. Qed.

Lemma recorded_entries (env : Z -> TaskEnv) (wallets : list TokenCreator.WalletInstance)
    (P : Storage.CreatedToken -> Prop) (tasks : list TokenTask) :
  Forall (fun t =>
            creates env wallets t = true
            /\ forall md wl, metadata t = Some md -> walletOf wallets t = Some wl ->
                 forall a c,
                   P {| Storage.tokenAddress := a; Storage.metadata := md;
                        Storage.createdAt := c;
                        Storage.walletIndex := TokenCreator.index wl |}) tasks ->
  forall st : Storage.BotState,
    exists new,
      Storage.createdTokens (fold_left (recorded env wallets) tasks st)
      = Storage.createdTokens st ++ new
      /\ List.length new = List.length tasks
      /\ Forall P new
      /\ List.filter (creates env wallets) tasks = tasks.
Proof.
  induction 1 as [|t ts [Hc HP] _ IH]; intros st; cbn [fold_left List.filter].
  - exists []. rewrite app_nil_r. repeat split; auto.
  - destruct (IH (recorded env wallets st t)) as (new & Hnew & Hlen & Hall & Hfil).
    destruct (recorded_step env wallets st t)
      as [(Hno & _)|(_ & md & wl & a & Hmd & Hwl & _ & _ & Hl1)]; [congruence|].
    eexists (_ :: new). rewrite Hnew, Hl1, <- app_assoc. cbn [app List.length].
    split; [reflexivity|]. split; [now rewrite Hlen|]. split.
    + constructor; [|exact Hall]. now apply HP.
    + now rewrite Hc, Hfil.
Qed.

(** X15. A whole sequential run. With at least one wallet configured, a
    metadata file that is not empty, a random source that draws from
    [0, 1) and a readable state file whose counter is below the
    configured total, the scheduler dispatches exactly the tokens that
    are left, one after the other, and never stalls. When every
    [createToken] succeeds, the record on disk at the end has the
    configured total as its counter, whether the sales succeeded or
    not; it is the record at the start with one entry added per task,
    each with a job of the pool and a wallet index between 1 and
    [numWallets] (never the master wallet 0), and all wallet locks are
    free. *)
Theorem sequential_run_reaches_total (config : BotConfig) (addressOf : Z -> string)
    (md : list PreparedToken) (now : Z) (caller : nat) (s : RandomSource)
    (env : Z -> TaskEnv) (file : option Storage.FileContent) (st : Storage.BotState) :
  1 <= numWallets config ->
  executionMode config = sequential ->
  md <> [] ->
  fair s ->
  Storage.loadState (Scheduler.processStart file) = Returned st ->
  Storage.tokensCreated st < totalTokensToCreate config ->
  (forall i wl m, returned (TokenCreator.createToken (chain (env i)) wl m) = true) ->
  exists outcomes locks w' st' new,
    runSchedulerSequential config addressOf (Some md) now caller s env file
    = Some (Completed outcomes locks w')
    /\ List.length outcomes
       = Z.to_nat (totalTokensToCreate config - Storage.tokensCreated st)
    /\ allFree locks
    /\ Storage.loadState w' = Returned st'
    /\ Storage.tokensCreated st' = totalTokensToCreate config
    /\ Storage.createdTokens st' = Storage.createdTokens st ++ new
    /\ List.length new
       = Z.to_nat (totalTokensToCreate config - Storage.tokensCreated st)
    /\ Forall (fun e => 1 <= Storage.walletIndex e <= numWallets config
                        /\ In (Storage.metadata e) md) new.
Proof.
  intros Hnw Hmode Hmd Hfair Hload Hless Hok.
  assert (Hwl : Scheduler.wallets_length config = numWallets config).
  { unfold Scheduler.wallets_length. lia. }
  assert (Hdisp : exists state0 tasks order w0 s',
             Scheduler.runScheduler config (Some md) now caller s
               (Scheduler.processStart file)
             = Scheduler.Dispatched state0 tasks order w0 s'
             /\ Storage.tokensCreated state0 = Storage.tokensCreated st
             /\ Storage.createdTokens state0 = Storage.createdTokens st
             /\ Storage.stateLock w0 = Storage.StateLockManager.create
             /\ Storage.loadState w0 = Returned state0
             /\ tasks
                = fst (Scheduler.generateTasks config
                         (totalTokensToCreate config - Storage.tokensCreated st)
                         (durationHours config * 60 * 60 * 1000)%Q
                         (numWallets config) md (Scheduler.startTime_of state0) s)
             /\ Permutation order tasks).
  { rewrite (runScheduler_start config file md now caller s st Hmd Hload).
    destruct (Scheduler.startTime_unset st).
    - destruct (scheduleRemaining_dispatch config md s (Scheduler.setStartTime now st)
                  {| Storage.stateFile :=
                       Some (Storage.Json (Scheduler.setStartTime now st));
                     Storage.stateLock := Storage.StateLockManager.create;
                     Storage.log := [Storage.WriteState (Scheduler.setStartTime now st)] |})
        as (tasks & order & s' & Heq & Hgen & Hperm); [cbn; lia|].
      eexists (Scheduler.setStartTime now st), tasks, order, _, s'.
      split; [exact Heq|]. repeat split; auto.
      rewrite Hwl in Hgen. cbn [Scheduler.setStartTime Storage.tokensCreated] in Hgen.
      now rewrite <- Hgen.
    - destruct (scheduleRemaining_dispatch config md s st (Scheduler.processStart file))
        as (tasks & order & s' & Heq & Hgen & Hperm); [lia|].
      eexists st, tasks, order, _, s'.
      split; [exact Heq|]. repeat split; auto.
      rewrite Hwl in Hgen. now rewrite <- Hgen. }
  destruct Hdisp as (state0 & tasks & order & w0 & s' & Hrun & Hn0 & Hl0 & Hlock0
                     & Hload0 & Htasks & Hperm).
  rewrite (runSchedulerSequential_dispatched config addressOf (Some md) now caller s s'
             env file state0 tasks order w0 Hmode Hrun).
  pose proof (generateTasks_jobs config
                (totalTokensToCreate config - Storage.tokensCreated st)
                (durationHours config * 60 * 60 * 1000)%Q (numWallets config) md
                (Scheduler.startTime_of state0) s) as Hjobs.
  pose proof (generateTasks_wallets config
                (totalTokensToCreate config - Storage.tokensCreated st)
                (durationHours config * 60 * 60 * 1000)%Q (numWallets config) md
                (Scheduler.startTime_of state0) s Hnw) as Hwallets.
  destruct (generateTasks_spec config
                (totalTokensToCreate config - Storage.tokensCreated st)
                (durationHours config * 60 * 60 * 1000)%Q (numWallets config) md
                (Scheduler.startTime_of state0) s) as (_ & Hlen & _).
  rewrite <- Htasks in Hjobs, Hwallets, Hlen.
  assert (Hready : Forall (fun t =>
            creates env (workerWallets config addressOf) t = true
            /\ forall m wl, metadata t = Some m ->
                 walletOf (workerWallets config addressOf) t = Some wl ->
                 forall a c,
                   (fun e => 1 <= Storage.walletIndex e <= numWallets config
                             /\ In (Storage.metadata e) md)
                     {| Storage.tokenAddress := a; Storage.metadata := m;
                        Storage.createdAt := c;
                        Storage.walletIndex := TokenCreator.index wl |}) order).
  { eapply Permutation_Forall; [symmetry; exact Hperm|].
    apply List.Forall_forall. intros t Hin.
    pose proof (proj1 (List.Forall_forall _ _) Hjobs t Hin) as Hjob.
    pose proof (proj1 (List.Forall_forall _ _) Hwallets t Hin) as [Hidx Hrange].
    destruct (jobDrawn_in_pool md s t Hfair Hmd Hjob) as (m & Hm & Hinm).
    assert (Hw : walletOf (workerWallets config addressOf) t
                 = Some {| TokenCreator.address :=
                             addressOf (tokenIndex t mod numWallets config + 1);
                           TokenCreator.index :=
                             tokenIndex t mod numWallets config + 1 |}).
    { unfold walletOf. rewrite Hidx. now apply workerWallets_at. }
    split.
    - unfold creates. rewrite Hm, Hw. apply Hok.
    - intros m' wl Hm' Hwl' a c. cbn.
      rewrite Hm in Hm'. injection Hm' as <-.
      rewrite Hw in Hwl'. injection Hwl' as <-. cbn. split; [lia|exact Hinm]. }
  destruct (runSequential_spec config env (workerWallets config addressOf) order
              freshLocks w0 state0 allFree_freshLocks Hlock0 Hload0)
    as (outs & locks' & w' & Hseq & Hall & Hfree & _ & Hfinal).
  destruct (recorded_entries env (workerWallets config addressOf) _ order Hready state0)
    as (new & Hnew & Hnewlen & HP & Hfil).
  destruct (recorded_count env (workerWallets config addressOf) order state0)
    as (Hcount & _).
  assert (Horder : List.length order
                   = Z.to_nat (totalTokensToCreate config - Storage.tokensCreated st)).
  { rewrite (Permutation_length Hperm). exact Hlen. }
  exists outs, locks', w', (fold_left (recorded env (workerWallets config addressOf))
                              order state0), new.
  split; [now rewrite Hseq|].
  split; [rewrite <- (Forall2_length _ _ _ Hall); exact Horder|].
  split; [exact Hfree|]. split; [exact Hfinal|].
  split; [rewrite Hcount, Hfil, Horder, Hn0; lia|].
  split; [now rewrite Hnew, Hl0|].
  split; [now rewrite Hnewlen|exact HP].
Qed.

End WholeRun.

(** ** The transactions of a job *)

Section ContractCalls.
Import Contracts.

Lemma withSlippage_bounds (x : Z) :
  0 <= x ->
  0 <= withSlippage x <= x
  /\ 10000 * withSlippage x <= 9900 * x < 10000 * (withSlippage x + 1).
Proof.
  intros Hx. unfold withSlippage, SLIPPAGE_BPS.
  change (10000 - 100) with 9900.
  rewrite Z.quot_div_nonneg by lia.
  pose proof (Z_div_mod_eq_full (x * 9900) 10000) as Hdiv.
  pose proof (Z.mod_pos_bound (x * 9900) 10000 ltac:(lia)) as Hmod.
  lia.
Qed.

(** X16. [createToken] sends at most one transaction and reads the balance
    at most three times. When it returns, the one transaction it sent is
    the creation with the job's name, symbol and URI, the salt of the
    salt service, the expected amount less 1% slippage (rounded down) as
    the least amount to receive, and the deploy fee of 10 MON plus the
    initial buy as its value; the receipt was not reverted and the amount
    returned is the first balance read that succeeded. When the receipt
    is reverted the call throws and reads no balance. When all three
    balance reads fail after a creation that went through, the call
    throws the error of the third read as it is, the transaction
    having been sent. *)
Theorem createToken_one_transaction (node : Node) (wallet : TokenCreator.WalletInstance)
    (md : PreparedToken) (buy : Z) :
  let c := fst (run (createToken node wallet md buy)) in
  let acts := snd (run (createToken node wallet md buy)) in
  (List.length (List.filter isSend acts) <= 1)%nat
  /\ (List.length (List.filter isReadBalance acts) <= 3)%nat
  /\ (forall tokenAddress tokensReceived hash,
        c = Returned (tokenAddress, tokensReceived, hash) ->
        exists expectedTokens salt,
          getInitialBuyAmountOut node buy = Returned expectedTokens
          /\ getSaltAndAddress node (TokenCreator.address wallet) md
             = Returned (salt, tokenAddress)
          /\ writeCreate node = Returned hash
          /\ receiptReverted node hash = Returned false
          /\ List.filter isSend acts
             = [SendCreate (name md) (symbol md) (tokenURI md)
                  (withSlippage expectedTokens) salt (deployFee + buy)]
          /\ (0 <= expectedTokens ->
              0 <= withSlippage expectedTokens <= expectedTokens
              /\ 10000 * withSlippage expectedTokens <= 9900 * expectedTokens)
          /\ exists k, 1 <= k <= 3
               /\ balanceOf node k = Returned tokensReceived
               /\ (forall j, 1 <= j < k -> returned (balanceOf node j) = false)
               /\ List.length (List.filter isReadBalance acts) = Z.to_nat k)
  /\ (forall hash,
        writeCreate node = Returned hash ->
        receiptReverted node hash = Returned true ->
        returned c = false
        /\ List.filter isReadBalance acts = []
        /\ (returned (getInitialBuyAmountOut node buy) = true ->
            returned (getSaltAndAddress node (TokenCreator.address wallet) md) = true ->
            c = Thrown (Error ("Token creation reverted: " ++ hash))))
  /\ (forall expectedTokens salt tokenAddress hash e1 e2 e3,
        getInitialBuyAmountOut node buy = Returned expectedTokens ->
        getSaltAndAddress node (TokenCreator.address wallet) md
        = Returned (salt, tokenAddress) ->
        writeCreate node = Returned hash ->
        receiptReverted node hash = Returned false ->
        balanceOf node 1 = Thrown e1 ->
        balanceOf node 2 = Thrown e2 ->
        balanceOf node 3 = Thrown e3 ->
        c = Thrown e3
        /\ acts
           = [ReadExpectedTokens buy;
              RequestSalt (TokenCreator.address wallet) (tokenURI md) (name md) (symbol md);
              SendCreate (name md) (symbol md) (tokenURI md)
                (withSlippage expectedTokens) salt (deployFee + buy);
              AwaitReceipt hash; Pause RPC_SYNC_DELAY;
              ReadBalance tokenAddress (TokenCreator.address wallet);
              Pause BALANCE_RETRY_DELAY;
              ReadBalance tokenAddress (TokenCreator.address wallet);
              Pause BALANCE_RETRY_DELAY;
              ReadBalance tokenAddress (TokenCreator.address wallet)]).
Proof.
  cbv zeta. unfold run, createToken, bind, await, ret, throw.
  change (Z.to_nat BALANCE_MAX_RETRIES) with 3%nat.
  cbn [readBalance]. unfold BALANCE_MAX_RETRIES, ret.
  change (1 <=? 3) with true. change (1 =? 3) with false.
  change (1 + 1) with 2. change (2 <=? 3) with true. change (2 =? 3) with false.
  change (2 + 1) with 3. change (3 <=? 3) with true. change (3 =? 3) with true.
  cbv iota.
  destruct (getInitialBuyAmountOut node buy) as [expected|e0] eqn:Hexp; cbn [app fst snd];
  [destruct (getSaltAndAddress node (TokenCreator.address wallet) md) as [[salt addr]|ea]
    eqn:Hsalt; cbn [app fst snd];
   [destruct (writeCreate node) as [hash|eb] eqn:Hwrite; cbn [app fst snd];
    [destruct (receiptReverted node hash) as [[|]|ec] eqn:Hrev; cbn [app fst snd];
     [|destruct (balanceOf node 1) as [n1|e1] eqn:H1; cbn [app fst snd];
       [|destruct (balanceOf node 2) as [n2|e2] eqn:H2; cbn [app fst snd];
         [|destruct (balanceOf node 3) as [n3|e3] eqn:H3; cbn [app fst snd]]]|]|]|]|].
  all: cbn [List.filter isSend isReadBalance List.length].
  all: repeat split; try lia; intros; simplify_eq; try reflexivity; try discriminate.
  all: try congruence.
  all: eexists _, _; repeat split; try reflexivity; try assumption;
    try (apply withSlippage_bounds; assumption).
  all: match goal with
       | |- exists k : Z, _ /\ _ /\ _ /\ 1%nat = _ => exists 1
       | |- exists k : Z, _ /\ _ /\ _ /\ 2%nat = _ => exists 2
       | |- exists k : Z, _ /\ _ /\ _ /\ 3%nat = _ => exists 3
       end.
  all: repeat split; try lia; try assumption.
  all: intros j Hj; try lia.
  all: assert (Hcase : j = 1 \/ j = 2) by lia; destruct Hcase as [-> | ->].
  all: try lia.
  all: match goal with H : _ = Thrown _ |- _ => rewrite H; reflexivity end.
Qed.

(** X17. [sellTokens] on a graduated token throws before it asks for a
    quote or sends anything. When it returns a hash, it has sent exactly
    two transactions, first the approval of [amount] and then the sale
    of the same [amount], to the wallet's own address, with the quoted
    amount less 1% slippage as the least to receive and a deadline 300
    seconds after the clock; the receipt of the sale was not reverted.
    The status of the approval's receipt is not looked at: once that
    receipt has arrived the sale is sent, reverted approval or not. In
    no case are more than two transactions sent. *)
Theorem sellTokens_approves_then_sells (node : Node)
    (wallet : TokenCreator.WalletInstance) (tokenAddress : string) (amount : Z) :
  let c := fst (run (sellTokens node wallet tokenAddress amount)) in
  let acts := snd (run (sellTokens node wallet tokenAddress amount)) in
  let sale := fun expectedMon =>
    SendSell amount (withSlippage expectedMon) tokenAddress
      (TokenCreator.address wallet) (dateNow node / 1000 + DEADLINE_OFFSET) in
  (isGraduated node tokenAddress = Returned true ->
     c = Thrown (Error "Token has graduated - use DEX router instead")
     /\ acts = [ReadGraduated tokenAddress])
  /\ (forall hash,
        c = Returned hash ->
        exists router expectedMon approveHash,
          isGraduated node tokenAddress = Returned false
          /\ getAmountOut node tokenAddress amount = Returned (router, expectedMon)
          /\ writeApprove node = Returned approveHash
          /\ writeSell node = Returned hash
          /\ receiptReverted node hash = Returned false
          /\ List.filter isSend acts
             = [SendApprove tokenAddress amount; sale expectedMon])
  /\ (forall router expectedMon approveHash revertedApproval,
        isGraduated node tokenAddress = Returned false ->
        getAmountOut node tokenAddress amount = Returned (router, expectedMon) ->
        writeApprove node = Returned approveHash ->
        receiptReverted node approveHash = Returned revertedApproval ->
        List.filter isSend acts = [SendApprove tokenAddress amount; sale expectedMon])
  /\ (List.length (List.filter isSend acts) <= 2)%nat.
Proof.
  cbv zeta. unfold run, sellTokens, bind, await, ret, throw.
  destruct (isGraduated node tokenAddress) as [[|]|e0] eqn:Hgrad; cbn [app fst snd];
  [| destruct (getAmountOut node tokenAddress amount) as [[router expectedMon]|ea]
       eqn:Hquote; cbn [app fst snd];
     [ destruct (writeApprove node) as [approveHash|eb] eqn:Happrove; cbn [app fst snd];
       [ destruct (receiptReverted node approveHash) as [ra|ec] eqn:Hra;
           cbn [app fst snd];
         [ destruct (writeSell node) as [hash|ed] eqn:Hsell; cbn [app fst snd];
           [ destruct (receiptReverted node hash) as [[|]|ee] eqn:Hrs;
               cbn [app fst snd] | ] | ] | ] | ] | ].
  all: cbn [List.filter isSend List.length].
  all: repeat split; try lia; intros; simplify_eq; try reflexivity; try discriminate.
  all: try congruence.
  all: eexists _, _, _; repeat split; try reflexivity; assumption.
Qed.

End ContractCalls.

(** ** The summary of a parallel run *)

Section ParallelSummary.
Import Executor.

(** X18. The summary that ends a parallel run never reports a failure:
    every task is wrapped in a handler that swallows its error, so all
    promises are fulfilled, and the summary counts every task as
    successful and none as failed, whatever the tasks did. *)
Theorem parallel_summary_counts_no_failure (outcomes : list (Completion unit)) :
  Forall (fun r => r = fulfilled) (allSettled (List.map catchAndSkip outcomes))
  /\ executionSummary outcomes
     = (List.length outcomes, List.length outcomes, 0%nat).
Proof.
  assert (Hall : Forall (fun r => r = fulfilled)
                   (allSettled (List.map catchAndSkip outcomes))).
  { induction outcomes as [|[v|e] rest IH]; cbn; constructor; auto. }
  split; [exact Hall|]. unfold executionSummary.
  assert (Hlen : List.length (allSettled (List.map catchAndSkip outcomes))
                 = List.length outcomes).
  { unfold allSettled. now rewrite !length_map. }
  revert Hall Hlen. generalize (allSettled (List.map catchAndSkip outcomes)).
  intros results Hall Hlen.
  assert (Hyes : List.filter isFulfilled results = results).
  { clear Hlen. induction Hall as [|r rs -> _ IH]; cbn; [reflexivity|]. now rewrite IH. }
  assert (Hno : List.filter (fun r => negb (isFulfilled r)) results = []).
  { clear Hlen Hyes. induction Hall as [|r rs -> _ IH]; cbn; [reflexivity|]. exact IH. }
  now rewrite Hyes, Hno, Hlen.
Qed.

End ParallelSummary.

(** ** A job whose sale can never be tried *)

Section NoBudget.

(** X19. With a retry budget below one, [withRetry] never calls the
    operation it wraps. A job run with such a budget and a positive
    sell percentage therefore creates its token, writes the new record,
    and then throws "... failed after N attempts" without a single call
    of the sale and without a pause: the token is counted and nothing
    of it was sold. *)
Theorem job_without_retry_budget (config : BotConfig) (chain : TokenCreator.Chain)
    (caller : nat) (n1 n2 : Z) (wl : TokenCreator.WalletInstance) (md : PreparedToken)
    (w : Storage.World) (st : Storage.BotState) (tokenAddress : string)
    (tokensReceived : Z) :
  maxRetries config < 1 ->
  0 < sellPercentage config ->
  Storage.stateLock w = Storage.StateLockManager.create ->
  Storage.loadState w = Returned st ->
  TokenCreator.createToken chain wl md = Returned (tokenAddress, tokensReceived) ->
  exists w' st',
    TokenCreator.executeTokenCreation config chain caller [] n1 n2 wl md w
    = TokenCreator.Ended
        (Thrown (Error ("Sell tokens for " ++ symbol md ++ " failed after "
                        ++ Z_to_string (maxRetries config) ++ " attempts"))) w'
    /\ TokenCreator.recordCreation tokenAddress md wl n1 n2 st = Returned st'
    /\ Storage.stateFile w' = Some (Storage.Json st')
    /\ Storage.tokensCreated st' = Storage.tokensCreated st + 1
    /\ Storage.stateLock w' = Storage.StateLockManager.create
    /\ Storage.log w'
       = Storage.log w
         ++ [Storage.CreateToken (TokenCreator.index wl) (symbol md);
             Storage.WriteState st'].
Proof.
  intros Hbudget Hsell Hlock Hload Hcreate.
  unfold TokenCreator.executeTokenCreation. rewrite Hcreate.
  unfold Storage.updateState.
  rewrite withLock_free by (cbn; now rewrite Hlock).
  rewrite withLock_granted_eq.
  rewrite (updateState_body_commits _ _ st
             (Storage.Build_BotState (Storage.tokensCreated st + 1)
                (Storage.startTime st) (Some n1)
                (Storage.createdTokens st ++
                 [Storage.Build_CreatedToken tokenAddress md n2 (TokenCreator.index wl)])))
    by (try exact Hload; reflexivity).
  cbn [fst snd]. rewrite afterUpdate_commit.
  unfold TokenCreator.sellStep, TokenCreator.withRetry.
  rewrite (proj2 (Z.ltb_lt _ _) Hsell).
  replace (Z.to_nat (maxRetries config)) with 0%nat by lia.
  cbn [TokenCreator.withRetry_loop fst snd].
  eexists _, _. split; [reflexivity|]. split; [reflexivity|].
  cbn. rewrite Hlock, <- app_assoc. repeat split; reflexivity.
Qed.

End NoBudget.

(** ** Worked examples of the further properties *)

Section FurtherExamples.

(** The one listed entry, prepared in reuse mode, is what the bot loads. *)
Lemma prepared_pool_is_loaded_witness :
  MetadataStore.loadMetadata
    (MetadataService.prepareMetadata MetadataService.reuse listingApi 1 10 None)
  = Returned (flat_map (processed MetadataService.reuse listingApi) [listedToken])
  /\ List.length (flat_map (processed MetadataService.reuse listingApi) [listedToken])
     = 1%nat.
Proof.
  destruct (prepared_pool_is_loaded MetadataService.reuse listingApi 1 10 None)
    as [Hfetched _].
  destruct (Hfetched [listedToken] eq_refl) as (_ & Hload & _ & Hlen).
  split; [exact Hload|exact (Hlen eq_refl)].
Defined.

(** Uploading the listed entry gives [moon], whose empty twitter link is
    left out. *)
Lemma prepared_token_fields_witness :
  In moon (processed MetadataService.upload listingApi listedToken)
  /\ name moon = MetadataService.info_name listedToken
  /\ twitter moon = None.
Proof.
  assert (Hin : In moon (processed MetadataService.upload listingApi listedToken)).
  { left. reflexivity. }
  split; [exact Hin|].
  destruct (prepared_token_fields MetadataService.upload listingApi listedToken moon Hin)
    as (Hname & _ & _ & Htwitter & _).
  split; [exact Hname|exact Htwitter].
Defined.

(** Five parallel tasks are generated in the order of their times. *)
Lemma generated_tasks_chronological_witness :
  Scheduler.sortByScheduledTime
    (fst (Scheduler.generateTasks (fiveTokens parallel) 5 3600000 2 [moon] 900
            (constantSource (1 # 3))))
  = fst (Scheduler.generateTasks (fiveTokens parallel) 5 3600000 2 [moon] 900
           (constantSource (1 # 3))).
Proof.
  destruct (generated_tasks_chronological (fiveTokens parallel) 5 3600000 2 [moon] 900
              (constantSource (1 # 3))) as (_ & _ & Hpar & _).
  exact (Hpar eq_refl).
Defined.


(** One task on one wallet: the loop completes and the counter is 1. *)
Lemma sequential_run_completes_witness :
  exists outcomes locks' w' st',
    Executor.runSequential (fiveTokens sequential) steadyEnv [wallet1] [firstTask]
      Executor.freshLocks (Scheduler.processStart None)
    = Executor.Completed outcomes locks' w'
    /\ Storage.loadState w' = Returned st'
    /\ Storage.tokensCreated st' = 1.
Proof.
  destruct (sequential_run_completes (fiveTokens sequential) steadyEnv [wallet1]
              [firstTask] Executor.freshLocks (Scheduler.processStart None)
              Storage.emptyState allFree_freshLocks eq_refl eq_refl)
    as (outs & locks' & w' & st' & Hrun & _ & _ & _ & _ & Hload & Hn & _).
  exists outs, locks', w', st'. split; [exact Hrun|]. split; [exact Hload|].
  rewrite Hn. reflexivity.
Defined.

(** The first of two worker wallets is the account with index 1. *)
Lemma worker_wallets_skip_master_witness :
  at_index (Executor.workerWallets (fiveTokens sequential) (fun _ => "0xW"%string)) 0
  = Some {| TokenCreator.address := "0xW"%string; TokenCreator.index := 0 + 1 |}.
Proof.
  destruct (worker_wallets_skip_master (fiveTokens sequential) (fun _ => "0xW"%string))
    as (_ & Hat & _).
  apply Hat. cbn. lia.
Defined.

(** A run that resumes after three of five tokens ends with five. *)
Lemma sequential_run_reaches_total_witness :
  exists outcomes locks w' st',
    Executor.runSchedulerSequential (fiveTokens sequential) (fun _ => "0xW"%string)
      (Some [moon]) 900 0 (constantSource (1 # 3)) steadyEnv
      (Some (Storage.Json threeDone))
    = Some (Executor.Completed outcomes locks w')
    /\ List.length outcomes = 2%nat
    /\ Storage.loadState w' = Returned st'
    /\ Storage.tokensCreated st' = 5.
Proof.
  destruct (sequential_run_reaches_total (fiveTokens sequential)
              (fun _ => "0xW"%string) [moon] 900 0 (constantSource (1 # 3)) steadyEnv
              (Some (Storage.Json threeDone)) threeDone)
    as (outs & locks & w' & st' & new & Hrun & Hlen & _ & Hload & Hn & _).
  - cbn. lia.
  - reflexivity.
  - discriminate.
  - apply fair_constantSource; [discriminate|reflexivity].
  - reflexivity.
  - cbn. lia.
  - intros i wl m. reflexivity.
  - exists outs, locks, w', st'. split; [exact Hrun|].
    split; [exact Hlen|]. split; [exact Hload|exact Hn].
Defined.

(** On [slowNode] the creation returns after the second balance read. *)
Lemma createToken_one_transaction_witness :
  exists expectedTokens salt,
    List.filter Contracts.isSend
      (snd (Contracts.run (Contracts.createToken slowNode wallet1 moon 5)))
    = [Contracts.SendCreate (name moon) (symbol moon) (tokenURI moon)
         (Contracts.withSlippage expectedTokens) salt (Contracts.deployFee + 5)]
    /\ exists k, 1 <= k <= 3 /\ Contracts.balanceOf slowNode k = Returned 990.
Proof.
  destruct (createToken_one_transaction slowNode wallet1 moon 5)
    as (_ & _ & Hret & _).
  destruct (Hret "0xT0"%string 990 "0xcreate"%string eq_refl)
    as (expectedTokens & salt & _ & _ & _ & _ & Hsent & _ & k & Hk & Hread & _).
  exists expectedTokens, salt. split; [exact Hsent|].
  exists k. split; [exact Hk|exact Hread].
Defined.

(** On [slowNode] the sale returns after an approval and a sale of 500. *)
Lemma sellTokens_approves_then_sells_witness :
  exists expectedMon,
    List.filter Contracts.isSend
      (snd (Contracts.run (Contracts.sellTokens slowNode wallet1 "0xT0" 500)))
    = [Contracts.SendApprove "0xT0" 500;
       Contracts.SendSell 500 (Contracts.withSlippage expectedMon) "0xT0"
         (TokenCreator.address wallet1)
         (Contracts.dateNow slowNode / 1000 + Contracts.DEADLINE_OFFSET)].
Proof.
  destruct (sellTokens_approves_then_sells slowNode wallet1 "0xT0" 500)
    as (_ & Hret & _).
  destruct (Hret "0xsell"%string eq_refl)
    as (router & expectedMon & approveHash & _ & _ & _ & _ & _ & Hsent).
  exists expectedMon. exact Hsent.
Defined.

(** With [noBudget] the token is counted and the sale is never tried. *)
Lemma job_without_retry_budget_witness :
  exists w' st',
    TokenCreator.executeTokenCreation noBudget sellReverts 0 [] 10 11 wallet1 moon
      (Scheduler.processStart None)
    = TokenCreator.Ended
        (Thrown (Error ("Sell tokens for " ++ symbol moon ++ " failed after "
                        ++ Z_to_string (maxRetries noBudget) ++ " attempts"))) w'
    /\ Storage.stateFile w' = Some (Storage.Json st')
    /\ Storage.tokensCreated st' = 1.
Proof.
  destruct (job_without_retry_budget noBudget sellReverts 0 10 11 wallet1 moon
              (Scheduler.processStart None) Storage.emptyState "0xT0" 1000)
    as (w' & st' & Hrun & _ & Hfile & Hn & _).
  - cbn. lia.
  - cbn. lia.
  - reflexivity.
  - reflexivity.
  - reflexivity.
  - exists w', st'. split; [exact Hrun|]. split; [exact Hfile|].
    rewrite Hn. reflexivity.
Defined.

End FurtherExamples.
